(** * File-backed cluster repository (ClusterRepositoryFileBased)

    A shallow embedding of the cluster-registry storage layer of
    [internal/sql/repository]: the entity/model translation
    ([convertToEntity], [convertToModel]), the CRUD operations and the
    soft-delete read paths, together with models of the two libraries the
    code is written against: Go's [encoding/json] (restricted to the
    [map[string]string] the repository encodes) and the gorm/SQLite
    statements the repository issues. *)

From Stdlib Require Import ZArith Lia Ascii String List Bool.
From stdpp Require Import base option list strings gmap sorting.

Local Open Scope Z_scope.

(** ** Bytes and Go strings

    A Go [string] is a sequence of bytes; Rocq's [string] is a sequence of
    8-bit [ascii] values, so the two coincide.  Byte-level code works on
    [list ascii]. *)

Definition bytes := list ascii.

(** The numeric value of a byte. *)
Definition b2z (c : ascii) : Z := Z.of_N (N_of_ascii c).

(** Go's [byte(x)] conversion: keeps the low 8 bits. *)
Definition z2b (z : Z) : ascii := ascii_of_N (Z.to_N (Z.land z 0xFF)).

Definition to_bytes (s : string) : bytes := list_ascii_of_string s.
Definition of_bytes (l : bytes) : string := string_of_list_ascii l.

(** ** unicode/utf8 and unicode/utf16 (the parts encoding/json uses) *)

Module utf8.

Definition RuneError : Z := 0xFFFD.
Definition RuneSelf : Z := 0x80.
Definition MaxRune : Z := 0x10FFFF.
Definition UTFMax : nat := 4.

Definition surrogateMin : Z := 0xD800.
Definition surrogateMax : Z := 0xDFFF.

Definition t2 : Z := 0xC0.
Definition t3 : Z := 0xE0.
Definition t4 : Z := 0xF0.
Definition tx : Z := 0x80.
Definition maskx : Z := 0x3F.
Definition mask2 : Z := 0x1F.
Definition mask3 : Z := 0x0F.
Definition mask4 : Z := 0x07.

Definition locb : Z := 0x80.
Definition hicb : Z := 0xBF.

(** The table [first]: information about the first byte of an encoding.
    The low three bits give the length, the high four bits index
    [acceptRanges]; [as] (0xF0) marks ASCII and [xx] (0xF1) an invalid
    first byte. *)
Definition first (b : Z) : Z :=
  if b <? 0x80 then 0xF0
  else if b <? 0xC2 then 0xF1
  else if b <? 0xE0 then 0x02
  else if b =? 0xE0 then 0x13
  else if b <? 0xED then 0x03
  else if b =? 0xED then 0x23
  else if b <? 0xF0 then 0x03
  else if b =? 0xF0 then 0x34
  else if b <? 0xF4 then 0x04
  else if b =? 0xF4 then 0x44
  else 0xF1.

(** [acceptRanges]: the range of valid values for the second byte. *)
Definition acceptRanges (i : Z) : Z * Z :=
  if i =? 1 then (0xA0, hicb)
  else if i =? 2 then (locb, 0x9F)
  else if i =? 3 then (0x90, hicb)
  else if i =? 4 then (locb, 0x8F)
  else (locb, hicb).

Definition at_ (p : bytes) (i : nat) : Z := b2z (nth i p "000"%char).

(** [DecodeRune]: the first rune of [p] and its width in bytes;
    [(RuneError, 1)] on an invalid encoding, [(RuneError, 0)] on empty
    input. *)
Definition DecodeRune (p : bytes) : Z * nat :=
  let n := Z.of_nat (length p) in
  if n <? 1 then (RuneError, 0%nat)
  else
    let p0 := at_ p 0 in
    let x := first p0 in
    if 0xF0 <=? x then
      ((if x =? 0xF0 then p0 else RuneError), 1%nat)
    else
      let sz := Z.land x 7 in
      let '(lo, hi) := acceptRanges (Z.shiftr x 4) in
      if n <? sz then (RuneError, 1%nat)
      else
        let b1 := at_ p 1 in
        if (b1 <? lo) || (hi <? b1) then (RuneError, 1%nat)
        else if sz <=? 2 then
          (Z.lor (Z.shiftl (Z.land p0 mask2) 6) (Z.land b1 maskx), 2%nat)
        else
          let b2 := at_ p 2 in
          if (b2 <? locb) || (hicb <? b2) then (RuneError, 1%nat)
          else if sz <=? 3 then
            (Z.lor (Z.lor (Z.shiftl (Z.land p0 mask3) 12)
                          (Z.shiftl (Z.land b1 maskx) 6))
                   (Z.land b2 maskx), 3%nat)
          else
            let b3 := at_ p 3 in
            if (b3 <? locb) || (hicb <? b3) then (RuneError, 1%nat)
            else
              (Z.lor (Z.lor (Z.lor (Z.shiftl (Z.land p0 mask4) 18)
                                   (Z.shiftl (Z.land b1 maskx) 12))
                            (Z.shiftl (Z.land b2 maskx) 6))
                     (Z.land b3 maskx), 4%nat).

(** [AppendRune] / [EncodeRune]: the UTF-8 encoding of a rune; surrogates
    and out-of-range values encode as [RuneError]. *)
Definition encode3 (r : Z) : bytes :=
  [ z2b (Z.lor t3 (Z.land (Z.shiftr r 12) 0xFF));
    z2b (Z.lor tx (Z.land (Z.land (Z.shiftr r 6) 0xFF) maskx));
    z2b (Z.lor tx (Z.land (Z.land r 0xFF) maskx)) ].

Definition EncodeRune (r : Z) : bytes :=
  if (0 <=? r) && (r <=? 0x7F) then [ z2b r ]
  else if (0 <=? r) && (r <=? 0x7FF) then
    [ z2b (Z.lor t2 (Z.land (Z.shiftr r 6) 0xFF));
      z2b (Z.lor tx (Z.land (Z.land r 0xFF) maskx)) ]
  else if (r <? 0) || (MaxRune <? r)
          || ((surrogateMin <=? r) && (r <=? surrogateMax)) then
    encode3 RuneError
  else if r <=? 0xFFFF then encode3 r
  else
    [ z2b (Z.lor t4 (Z.land (Z.shiftr r 18) 0xFF));
      z2b (Z.lor tx (Z.land (Z.land (Z.shiftr r 12) 0xFF) maskx));
      z2b (Z.lor tx (Z.land (Z.land (Z.shiftr r 6) 0xFF) maskx));
      z2b (Z.lor tx (Z.land (Z.land r 0xFF) maskx)) ].

(** [ValidString]: [s] consists entirely of valid UTF-8-encoded runes. *)
Fixpoint valid_loop (fuel : nat) (p : bytes) : bool :=
  match fuel with
  | O => match p with [] => true | _ => false end
  | S fuel =>
      match p with
      | [] => true
      | _ :: _ =>
          let '(r, size) := DecodeRune p in
          if (r =? RuneError) && (size =? 1)%nat then false
          else valid_loop fuel (drop size p)
      end
  end.

Definition Valid (p : bytes) : bool := valid_loop (length p) p.
Definition ValidString (s : string) : bool := Valid (to_bytes s).

End utf8.

Module utf16.

Definition surr1 : Z := 0xD800.
Definition surr2 : Z := 0xDC00.
Definition surr3 : Z := 0xE000.
Definition surrSelf : Z := 0x10000.
Definition replacementChar : Z := 0xFFFD.

Definition IsSurrogate (r : Z) : bool := (surr1 <=? r) && (r <? surr3).

Definition DecodeRune (r1 r2 : Z) : Z :=
  if (surr1 <=? r1) && (r1 <? surr2) && (surr2 <=? r2) && (r2 <? surr3)
  then Z.lor (Z.shiftl (r1 - surr1) 10) (r2 - surr2) + surrSelf
  else replacementChar.

End utf16.

(** ** encoding/json, for a destination of type [map[string]string]

    A Go map value is either [nil] or a reference to a finite mapping;
    [len] of either may be 0. *)

Definition GoMap := option (gmap string string).

(** The key/value pairs a map holds ([nil] holds none). *)
Definition entries (m : GoMap) : gmap string string := default ∅ m.

Module json.

Definition quote : ascii := "034"%char.
Definition backslash : ascii := "\"%char.

Definition hex (i : Z) : ascii :=
  nth (Z.to_nat i) (to_bytes "0123456789abcdef") "0"%char.

(** [htmlSafeSet]: the ASCII bytes that are written without escaping
    when HTML escaping is on (as it is for [Marshal]): everything from
    space up, except the quote, the backslash and the characters
    <, > and &. *)
Definition htmlSafeSet (b : Z) : bool :=
  (0x20 <=? b) && (b <? 0x80)
  && negb (b =? 0x22) && negb (b =? 0x5C)
  && negb (b =? 0x3C) && negb (b =? 0x3E) && negb (b =? 0x26).

(** The escape sequence written for an ASCII byte outside [htmlSafeSet]. *)
Definition escape (b : ascii) : bytes :=
  let z := b2z b in
  if (z =? 0x5C) || (z =? 0x22) then [backslash; b]
  else if z =? 0x08 then [backslash; "b"%char]
  else if z =? 0x0C then [backslash; "f"%char]
  else if z =? 0x0A then [backslash; "n"%char]
  else if z =? 0x0D then [backslash; "r"%char]
  else if z =? 0x09 then [backslash; "t"%char]
  else [backslash; "u"%char; "0"%char; "0"%char;
        hex (Z.shiftr z 4); hex (Z.land z 0xF)].

(** The body of the loop of [appendString], one rune per iteration.  The
    source copies runs of unescaped bytes in one [append]; here they are
    emitted as they are passed. *)
Fixpoint appendString_loop (fuel : nat) (src : bytes) : bytes :=
  match fuel with
  | O => []
  | S fuel =>
      match src with
      | [] => []
      | b :: tl =>
          if b2z b <? utf8.RuneSelf then
            if htmlSafeSet (b2z b) then b :: appendString_loop fuel tl
            else escape b ++ appendString_loop fuel tl
          else
            let '(c, size) := utf8.DecodeRune (take utf8.UTFMax src) in
            if (c =? utf8.RuneError) && (size =? 1)%nat then
              backslash :: to_bytes "ufffd" ++ appendString_loop fuel (drop size src)
            else if (c =? 0x2028) || (c =? 0x2029) then
              backslash :: to_bytes "u202" ++ hex (Z.land c 0xF)
                :: appendString_loop fuel (drop size src)
            else
              take size src ++ appendString_loop fuel (drop size src)
      end
  end.

Definition appendString (src : string) : bytes :=
  quote :: appendString_loop (length (to_bytes src)) (to_bytes src) ++ [quote].

(** Map keys are written in the order of [strings.Compare]. *)
Definition key_le (p q : string * string) : Prop :=
  String.leb p.1 q.1 = true.

#[global] Instance key_le_dec p q : Decision (key_le p q).
Proof. unfold key_le. apply _. Defined.

Definition sorted_pairs (m : gmap string string) : list (string * string) :=
  merge_sort key_le (map_to_list m).

Definition appendPair (kv : string * string) : bytes :=
  appendString kv.1 ++ ":"%char :: appendString kv.2.

Fixpoint appendPairs (l : list (string * string)) : bytes :=
  match l with
  | [] => []
  | [kv] => appendPair kv
  | kv :: l' => appendPair kv ++ ","%char :: appendPairs l'
  end.

(** [Marshal] of a [map[string]string]: [null] for a nil map, otherwise
    an object with sorted keys.  It has no failing case for this type;
    the source still tests the error it returns. *)
Definition Marshal (m : GoMap) : option string :=
  match m with
  | None => Some "null"%string
  | Some kvs =>
      Some (of_bytes ("{"%char :: appendPairs (sorted_pairs kvs) ++ ["}"%char]))
  end.

(** *** Decoding *)

Definition isSpace (c : ascii) : bool :=
  let z := b2z c in
  (z =? 0x20) || (z =? 0x09) || (z =? 0x0D) || (z =? 0x0A).

Fixpoint skipSpace (s : bytes) : bytes :=
  match s with
  | c :: tl => if isSpace c then skipSpace tl else s
  | [] => []
  end.

Definition hexval (c : ascii) : Z :=
  let z := b2z c in
  if (0x30 <=? z) && (z <=? 0x39) then z - 0x30
  else if (0x61 <=? z) && (z <=? 0x66) then z - 0x61 + 10
  else if (0x41 <=? z) && (z <=? 0x46) then z - 0x41 + 10
  else -1.

(** [getu4] decodes [\uXXXX] from the beginning of [s], returning the hex
    value, or -1. *)
Definition getu4 (s : bytes) : Z :=
  match s with
  | c0 :: c1 :: h1 :: h2 :: h3 :: h4 :: _ =>
      if negb (b2z c0 =? 0x5C) || negb (b2z c1 =? 0x75) then -1
      else
        fold_left
          (fun r c => if (r <? 0) || (hexval c <? 0) then -1 else r * 16 + hexval c)
          [h1; h2; h3; h4] 0
  | _ => -1
  end.

(** The character a one-letter escape stands for. *)
Definition unescape (e : ascii) : option ascii :=
  let z := b2z e in
  if (z =? 0x22) || (z =? 0x5C) || (z =? 0x2F) then Some e
  else if z =? 0x62 then Some "008"%char
  else if z =? 0x66 then Some "012"%char
  else if z =? 0x6E then Some "010"%char
  else if z =? 0x72 then Some "013"%char
  else if z =? 0x74 then Some "009"%char
  else None.

(** [unquote]: scans a string literal, [s] starting just after its
    opening quote, and converts it as [unquoteBytes] does; returns the
    decoded bytes and the input after the closing quote.  [None] is a
    syntax error. *)
Fixpoint unquote (fuel : nat) (s : bytes) : option (bytes * bytes) :=
  match fuel with
  | O => None
  | S fuel =>
      match s with
      | [] => None
      | c :: tl =>
          let z := b2z c in
          if z =? 0x22 then Some ([], tl)
          else if z =? 0x5C then
            match tl with
            | [] => None
            | e :: tl' =>
                match unescape e with
                | Some ch =>
                    '(d, rest) ← unquote fuel tl'; Some (ch :: d, rest)
                | None =>
                    let rr := getu4 s in
                    if rr <? 0 then None
                    else
                      let s' := drop 6 s in
                      if utf16.IsSurrogate rr then
                        let dec := utf16.DecodeRune rr (getu4 s') in
                        if negb (dec =? utf16.replacementChar) then
                          '(d, rest) ← unquote fuel (drop 6 s');
                          Some (utf8.EncodeRune dec ++ d, rest)
                        else
                          '(d, rest) ← unquote fuel s';
                          Some (utf8.EncodeRune utf16.replacementChar ++ d, rest)
                      else
                        '(d, rest) ← unquote fuel s';
                        Some (utf8.EncodeRune rr ++ d, rest)
                end
            end
          else if z <? 0x20 then None
          else if z <? utf8.RuneSelf then
            '(d, rest) ← unquote fuel tl; Some (c :: d, rest)
          else
            let '(rr, size) := utf8.DecodeRune s in
            '(d, rest) ← unquote fuel (drop size s);
            Some (utf8.EncodeRune rr ++ d, rest)
      end
  end.

Definition literalNull (s : bytes) : option bytes :=
  match s with
  | c0 :: c1 :: c2 :: c3 :: rest =>
      if String.eqb (of_bytes [c0; c1; c2; c3]) "null" then Some rest else None
  | _ => None
  end.

(** A value stored into a [string]: a string literal, or [null], which
    leaves the (zero) element unchanged.  Any other value is an
    [UnmarshalTypeError] or a syntax error. *)
Definition stringValue (s : bytes) : option (bytes * bytes) :=
  match s with
  | c :: tl =>
      if b2z c =? 0x22 then unquote (length tl) tl
      else rest ← literalNull s; Some ([], rest)
  | [] => None
  end.

(** The members of an object, [s] at the opening quote of a key; each
    pair is stored into the map as it is read, so a repeated key keeps
    its last value. *)
Fixpoint members (fuel : nat) (s : bytes) (m : gmap string string)
  : option (gmap string string * bytes) :=
  match fuel with
  | O => None
  | S fuel =>
      match s with
      | c :: tl =>
          if b2z c =? 0x22 then
            '(k, r1) ← unquote (length tl) tl;
            match skipSpace r1 with
            | c1 :: r2 =>
                if b2z c1 =? 0x3A then
                  '(v, r3) ← stringValue (skipSpace r2);
                  let m' := <[of_bytes k := of_bytes v]> m in
                  match skipSpace r3 with
                  | c2 :: r4 =>
                      if b2z c2 =? 0x2C then members fuel (skipSpace r4) m'
                      else if b2z c2 =? 0x7D then Some (m', r4)
                      else None
                  | [] => None
                  end
                else None
            | [] => None
            end
          else None
      | [] => None
      end
  end.

(** [Unmarshal data &v] for [v : map[string]string]: [Some v'] is the
    new value of [v] when the call returns a nil error, [None] stands
    for a non-nil error (a [SyntaxError] or an [UnmarshalTypeError];
    callers here only test it against nil).  JSON [null] sets the map to
    nil; an object stores its members into the existing map, allocating
    one if it is nil. *)
Definition Unmarshal (data : string) (v : GoMap) : option GoMap :=
  let s := skipSpace (to_bytes data) in
  match s with
  | c :: tl =>
      if b2z c =? 0x7B then
        '(m, rest) ←
          match skipSpace tl with
          | c1 :: tl1 =>
              if b2z c1 =? 0x7D then Some (entries v, tl1)
              else members (length tl) (skipSpace tl) (entries v)
          | [] => None
          end;
        match skipSpace rest with
        | [] => Some (Some m)
        | _ :: _ => None
        end
      else
        rest ← literalNull s;
        match skipSpace rest with
        | [] => Some None
        | _ :: _ => None
        end
  | [] => None
  end.

End json.

(** ** Data model *)

(** A Go [error] is represented by its message; a nil error by [None]. *)
Definition error := string.

Inductive result (A : Type) : Type :=
| Ok (a : A)
| Err (e : error).
Arguments Ok {A} a.
Arguments Err {A} e.

Module sql.

(** Modelled from the spec: the declaration of [sql.AuditLog] (package
    pkg/sql) is not among the sources.  The audit fields are the created
    and updated time stamp and actor identifier, under the names
    [convertToEntity] reads them by; a time stamp is a number, 0 being the
    zero [time.Time], and so is an actor id. *)
Record AuditLog : Type := mkAuditLog {
  CreatedOn : Z;
  CreatedBy : Z;
  UpdatedOn : Z;
  UpdatedBy : Z;
}.

End sql.

(** Modelled from the spec: the declaration of [Cluster] (package
    pkg/cluster/repository) is not among the sources.  The logical model
    has the fields of the spec's data model, under the names this
    repository reads and writes them by: the identity, the name, the
    server URL, the config mapping, the two diagnostic strings, the
    [Active] flag and the audit fields. *)
Record Cluster : Type := mkCluster {
  Id : Z;
  ClusterName : string;
  ServerUrl : string;
  Config : GoMap;
  K8sVersion : string;
  ErrorInConnecting : string;
  Active : bool;
  AuditLog : sql.AuditLog;
}.

Module Entity.

(** [ClusterEntity], the stored record: [Config] is encoded text and
    [Active] is a [*bool], nil when the column is NULL. *)
Record ClusterEntity : Type := mkClusterEntity {
  ID : Z;
  ClusterName : string;
  ServerUrl : string;
  Active : option bool;
  Config : string;
  K8sVersion : string;
  ErrorInConnecting : string;
  AuditLog : sql.AuditLog;
}.

(** [&ClusterEntity{}] *)
Definition zero : ClusterEntity :=
  mkClusterEntity 0 "" "" None "" "" "" (sql.mkAuditLog 0 0 0 0).

End Entity.

Abbreviation ClusterEntity := Entity.ClusterEntity.

(** ** The embedded store: gorm over SQLite

    The table [cluster_entities] that [CreateTable(&ClusterEntity{})]
    makes, and the statements the repository issues against it. *)

Module gorm.

Local Open Scope string_scope.

(** The columns of the table.  gorm's default naming strategy derives a
    column name from a field name by snake-casing it. *)
Inductive Column : Type :=
| id | cluster_name | server_url | active | config | k8s_version
| error_in_connecting | created_on | created_by | updated_on | updated_by.

Definition columns : list Column :=
  [ id; cluster_name; server_url; active; config; k8s_version;
    error_in_connecting; created_on; created_by; updated_on; updated_by ].

(** The struct field a column comes from. *)
Definition FieldName (c : Column) : string :=
  match c with
  | id => "ID"
  | cluster_name => "ClusterName"
  | server_url => "ServerUrl"
  | active => "Active"
  | config => "Config"
  | k8s_version => "K8sVersion"
  | error_in_connecting => "ErrorInConnecting"
  | created_on => "CreatedOn"
  | created_by => "CreatedBy"
  | updated_on => "UpdatedOn"
  | updated_by => "UpdatedBy"
  end.

(** The name of the column in the table. *)
Definition DBName (c : Column) : string :=
  match c with
  | id => "id"
  | cluster_name => "cluster_name"
  | server_url => "server_url"
  | active => "active"
  | config => "config"
  | k8s_version => "k8s_version"
  | error_in_connecting => "error_in_connecting"
  | created_on => "created_on"
  | created_by => "created_by"
  | updated_on => "updated_on"
  | updated_by => "updated_by"
  end.

(** SQL values. *)
Inductive Value : Type :=
| Null
| Integer (z : Z)
| Text (s : string).

Definition Z_of_bool (b : bool) : Z := if b then 1%Z else 0%Z.

Definition column_value (c : Column) (e : ClusterEntity) : Value :=
  match c with
  | id => Integer (Entity.ID e)
  | cluster_name => Text (Entity.ClusterName e)
  | server_url => Text (Entity.ServerUrl e)
  | active =>
      match Entity.Active e with
      | None => Null
      | Some b => Integer (Z_of_bool b)
      end
  | config => Text (Entity.Config e)
  | k8s_version => Text (Entity.K8sVersion e)
  | error_in_connecting => Text (Entity.ErrorInConnecting e)
  | created_on => Integer (sql.CreatedOn (Entity.AuditLog e))
  | created_by => Integer (sql.CreatedBy (Entity.AuditLog e))
  | updated_on => Integer (sql.UpdatedOn (Entity.AuditLog e))
  | updated_by => Integer (sql.UpdatedBy (Entity.AuditLog e))
  end.

(** The contents of the database file: the rows of the table, the
    AUTOINCREMENT counter of its primary key, and the condition of the
    engine: [Some e] when the file cannot be read or written, in which
    case every statement fails with [e]. *)
Record DB : Type := mkDB {
  rows : list ClusterEntity;
  sequence : Z;
  fault : option error;
}.

(** The outcome of a statement: [result.Error]. *)
Record Result : Type := mkResult {
  Error : option error;
}.

Definition ErrMissingWhereClause : error := "WHERE conditions required".

(** *** Conditions

    [Where(query, arg)] passes [query] to SQLite as it is written, with
    [arg] bound to its placeholder. *)

Inductive Arg : Type :=
| AInt (z : Z)
| ABool (b : bool)
| AString (s : string)
| AAppender (ids : list Z).

Definition Condition : Type := string * Arg.

(** Binding an argument: database/sql accepts integers, booleans and
    strings; a go-pg value appender, which is what [pg.In] returns, is
    none of the driver's value types and is refused. *)
Definition bind (a : Arg) : result Value :=
  match a with
  | AInt z => Ok (Integer z)
  | ABool b => Ok (Integer (Z_of_bool b))
  | AString s => Ok (Text s)
  | AAppender _ =>
      Err "sql: converting argument $1 type: unsupported type types.inOp, a struct"
  end.

Definition lower (c : ascii) : ascii :=
  let z := b2z c in
  if ((0x41 <=? z) && (z <=? 0x5A))%Z then z2b (z + 0x20) else c.

Definition lowercase (s : string) : string :=
  of_bytes (map lower (to_bytes s)).

Definition isIdent (c : ascii) : bool :=
  let z := b2z (lower c) in
  (((0x61 <=? z) && (z <=? 0x7A)) || ((0x30 <=? z) && (z <=? 0x39))
   || (z =? 0x5F))%Z.

Fixpoint span_ident (s : bytes) : bytes * bytes :=
  match s with
  | c :: tl =>
      if isIdent c then let '(i, r) := span_ident tl in (c :: i, r)
      else ([], s)
  | [] => ([], [])
  end.

(** SQLite resolves a column name without regard to case. *)
Definition resolve (name : string) : option Column :=
  List.find (fun c => String.eqb (DBName c) (lowercase name)) columns.

Inductive Operator : Type := OpEq | OpIn.

(** The conditions the repository writes have the form
    [<column> = ?] or [<column> in(?)]. *)
Definition parse (query : string) : option (string * Operator) :=
  let '(ident, rest) := span_ident (to_bytes query) in
  let op := lowercase (of_bytes (filter (fun c => b2z c ≠ 0x20%Z) rest)) in
  if String.eqb op "=?" then Some (of_bytes ident, OpEq)
  else if String.eqb op "in(?)" then Some (of_bytes ident, OpIn)
  else None.

(** SQL comparison: NULL equals nothing. *)
Definition sql_eq (v w : Value) : bool :=
  match v, w with
  | Integer a, Integer b => (a =? b)%Z
  | Text a, Text b => String.eqb a b
  | _, _ => false
  end.

(** The rows a condition selects, as a predicate. *)
Definition compile (c : Condition) : result (ClusterEntity → bool) :=
  match bind c.2 with
  | Err e => Err e
  | Ok v =>
      match parse c.1 with
      | None => Err ("near " ++ c.1 ++ ": syntax error")
      | Some (name, _) =>
          match resolve name with
          | None => Err ("no such column: " ++ name)
          | Some col => Ok (fun e => sql_eq (column_value col e) v)
          end
      end
  end.

Fixpoint compile_all (cs : list Condition) : result (ClusterEntity → bool) :=
  match cs with
  | [] => Ok (fun _ => true)
  | c :: cs' =>
      match compile c with
      | Err e => Err e
      | Ok p =>
          match compile_all cs' with
          | Err e => Err e
          | Ok q => Ok (fun e => p e && q e)
          end
      end
  end.

(** [SELECT * FROM cluster_entities WHERE ...]: the selected rows, in
    table order. *)
Definition query (wheres : list Condition) (db : DB)
  : result (list ClusterEntity) :=
  match fault db with
  | Some e => Err e
  | None =>
      match compile_all wheres with
      | Err e => Err e
      | Ok p => Ok (List.filter p (rows db))
      end
  end.

(** [Find(dest)] with [dest] a pointer to a slice: all selected rows. *)
Definition FindAll (wheres : list Condition) (db : DB)
  : Result * list ClusterEntity :=
  match query wheres db with
  | Err e => (mkResult (Some e), [])
  | Ok l => (mkResult None, l)
  end.

(** [Find(dest)] with [dest] a pointer to a struct: the first selected
    row is scanned into [dest]; with no row [dest] is left as it is and
    no error is reported (only First, Take and Last report
    ErrRecordNotFound).  A primary key already set in [dest] is added to
    the conditions. *)
Definition Find (wheres : list Condition) (dest : ClusterEntity) (db : DB)
  : Result * ClusterEntity :=
  match query wheres db with
  | Err e => (mkResult (Some e), dest)
  | Ok l =>
      let l' := if (Entity.ID dest =? 0)%Z then l
                else List.filter (fun e => (Entity.ID e =? Entity.ID dest)%Z) l in
      (mkResult None, hd dest l')
  end.

(** [Limit] on the value [Find] returned adds a clause to a statement
    that has already run. *)
Definition Limit (n : Z) (r : Result) : Result := r.

(** *** Insert *)

Definition max_id (l : list ClusterEntity) : Z :=
  fold_right (fun e m => Z.max (Entity.ID e) m) 0%Z l.

Definition set_ID (i : Z) (e : ClusterEntity) : ClusterEntity :=
  Entity.mkClusterEntity i (Entity.ClusterName e) (Entity.ServerUrl e)
    (Entity.Active e) (Entity.Config e) (Entity.K8sVersion e)
    (Entity.ErrorInConnecting e) (Entity.AuditLog e).

(** [Create(value)]: inserts [value]; a zero primary key is left to the
    table's AUTOINCREMENT and written back into [value]. *)
Definition Create (value : ClusterEntity) (db : DB)
  : Result * ClusterEntity * DB :=
  match fault db with
  | Some e => (mkResult (Some e), value, db)
  | None =>
      if (Entity.ID value =? 0)%Z then
        let i := (Z.max (sequence db) (max_id (rows db)) + 1)%Z in
        let row := set_ID i value in
        (mkResult None, row, mkDB (rows db ++ [row]) i None)
      else if existsb (fun e => (Entity.ID e =? Entity.ID value)%Z) (rows db) then
        (mkResult (Some "UNIQUE constraint failed: cluster_entities.id"),
         value, db)
      else
        (mkResult None, value,
         mkDB (rows db ++ [value]) (Z.max (sequence db) (Entity.ID value)) None)
  end.

(** *** Update *)

(** [Updates(value)] with a struct: only the fields whose value is not
    the zero value of their type are written.  A [*bool] is zero only
    when nil. *)
Definition pick_string (new old : string) : string :=
  if String.eqb new "" then old else new.

Definition pick_Z (new old : Z) : Z :=
  if (new =? 0)%Z then old else new.

Definition pick_ptr {A} (new old : option A) : option A :=
  match new with
  | Some _ => new
  | None => old
  end.

Definition assign_nonzero (value row : ClusterEntity) : ClusterEntity :=
  Entity.mkClusterEntity
    (Entity.ID row)
    (pick_string (Entity.ClusterName value) (Entity.ClusterName row))
    (pick_string (Entity.ServerUrl value) (Entity.ServerUrl row))
    (pick_ptr (Entity.Active value) (Entity.Active row))
    (pick_string (Entity.Config value) (Entity.Config row))
    (pick_string (Entity.K8sVersion value) (Entity.K8sVersion row))
    (pick_string (Entity.ErrorInConnecting value) (Entity.ErrorInConnecting row))
    (sql.mkAuditLog
       (pick_Z (sql.CreatedOn (Entity.AuditLog value)) (sql.CreatedOn (Entity.AuditLog row)))
       (pick_Z (sql.CreatedBy (Entity.AuditLog value)) (sql.CreatedBy (Entity.AuditLog row)))
       (pick_Z (sql.UpdatedOn (Entity.AuditLog value)) (sql.UpdatedOn (Entity.AuditLog row)))
       (pick_Z (sql.UpdatedBy (Entity.AuditLog value)) (sql.UpdatedBy (Entity.AuditLog row)))).

(** [Model(value).Updates(value)]: the row whose primary key is that of
    [value] is updated; without a primary key there is no WHERE clause
    and gorm refuses the statement. *)
Definition Updates (value : ClusterEntity) (db : DB) : Result * DB :=
  if (Entity.ID value =? 0)%Z then (mkResult (Some ErrMissingWhereClause), db)
  else
    match fault db with
    | Some e => (mkResult (Some e), db)
    | None =>
        (mkResult None,
         mkDB (map (fun row => if (Entity.ID row =? Entity.ID value)%Z
                               then assign_nonzero value row else row)
                   (rows db))
              (sequence db) None)
    end.

(** Storing a bound value in a column. *)
Definition assign (c : Column) (v : Value) (e : ClusterEntity)
  : option ClusterEntity :=
  let a := Entity.AuditLog e in
  match c, v with
  | id, Integer z => Some (set_ID z e)
  | cluster_name, Text s =>
      Some (Entity.mkClusterEntity (Entity.ID e) s (Entity.ServerUrl e)
              (Entity.Active e) (Entity.Config e) (Entity.K8sVersion e)
              (Entity.ErrorInConnecting e) a)
  | server_url, Text s =>
      Some (Entity.mkClusterEntity (Entity.ID e) (Entity.ClusterName e) s
              (Entity.Active e) (Entity.Config e) (Entity.K8sVersion e)
              (Entity.ErrorInConnecting e) a)
  | active, Integer z =>
      Some (Entity.mkClusterEntity (Entity.ID e) (Entity.ClusterName e)
              (Entity.ServerUrl e) (Some (negb (z =? 0)%Z)) (Entity.Config e)
              (Entity.K8sVersion e) (Entity.ErrorInConnecting e) a)
  | active, Null =>
      Some (Entity.mkClusterEntity (Entity.ID e) (Entity.ClusterName e)
              (Entity.ServerUrl e) None (Entity.Config e)
              (Entity.K8sVersion e) (Entity.ErrorInConnecting e) a)
  | config, Text s =>
      Some (Entity.mkClusterEntity (Entity.ID e) (Entity.ClusterName e)
              (Entity.ServerUrl e) (Entity.Active e) s
              (Entity.K8sVersion e) (Entity.ErrorInConnecting e) a)
  | k8s_version, Text s =>
      Some (Entity.mkClusterEntity (Entity.ID e) (Entity.ClusterName e)
              (Entity.ServerUrl e) (Entity.Active e) (Entity.Config e)
              s (Entity.ErrorInConnecting e) a)
  | error_in_connecting, Text s =>
      Some (Entity.mkClusterEntity (Entity.ID e) (Entity.ClusterName e)
              (Entity.ServerUrl e) (Entity.Active e) (Entity.Config e)
              (Entity.K8sVersion e) s a)
  | created_on, Integer z =>
      Some (Entity.mkClusterEntity (Entity.ID e) (Entity.ClusterName e)
              (Entity.ServerUrl e) (Entity.Active e) (Entity.Config e)
              (Entity.K8sVersion e) (Entity.ErrorInConnecting e)
              (sql.mkAuditLog z (sql.CreatedBy a) (sql.UpdatedOn a) (sql.UpdatedBy a)))
  | created_by, Integer z =>
      Some (Entity.mkClusterEntity (Entity.ID e) (Entity.ClusterName e)
              (Entity.ServerUrl e) (Entity.Active e) (Entity.Config e)
              (Entity.K8sVersion e) (Entity.ErrorInConnecting e)
              (sql.mkAuditLog (sql.CreatedOn a) z (sql.UpdatedOn a) (sql.UpdatedBy a)))
  | updated_on, Integer z =>
      Some (Entity.mkClusterEntity (Entity.ID e) (Entity.ClusterName e)
              (Entity.ServerUrl e) (Entity.Active e) (Entity.Config e)
              (Entity.K8sVersion e) (Entity.ErrorInConnecting e)
              (sql.mkAuditLog (sql.CreatedOn a) (sql.CreatedBy a) z (sql.UpdatedBy a)))
  | updated_by, Integer z =>
      Some (Entity.mkClusterEntity (Entity.ID e) (Entity.ClusterName e)
              (Entity.ServerUrl e) (Entity.Active e) (Entity.Config e)
              (Entity.K8sVersion e) (Entity.ErrorInConnecting e)
              (sql.mkAuditLog (sql.CreatedOn a) (sql.CreatedBy a) (sql.UpdatedOn a) z))
  | _, _ => None
  end.

(** The column [Update(column, value)] writes: gorm looks [column] up
    among the fields of the model, by field name or by column name, and
    otherwise hands it to SQLite, quoted, as the name of a column. *)
Definition LookUpField (name : string) : option Column :=
  List.find (fun c => String.eqb (DBName c) name || String.eqb (FieldName c) name)
            columns.

Definition target_column (name : string) : result Column :=
  match LookUpField name with
  | Some c => Ok c
  | None =>
      match resolve name with
      | Some c => Ok c
      | None => Err ("no such column: " ++ name)
      end
  end.

(** [Model(&ClusterEntity{}).Where(...).Update(column, value)]: sets one
    column of the selected rows. *)
Definition Update (wheres : list Condition) (column : string) (value : Arg)
    (db : DB) : Result * DB :=
  match wheres with
  | [] => (mkResult (Some ErrMissingWhereClause), db)
  | _ :: _ =>
      match fault db with
      | Some e => (mkResult (Some e), db)
      | None =>
          match bind value, compile_all wheres with
          | Err e, _ | Ok _, Err e => (mkResult (Some e), db)
          | Ok v, Ok p =>
              match target_column column with
              | Err e => (mkResult (Some e), db)
              | Ok c =>
                  match mapM (fun row => if p row then assign c v row
                                         else Some row) (rows db) with
                  | None => (mkResult (Some "datatype mismatch"), db)
                  | Some rows' =>
                      (mkResult None, mkDB rows' (sequence db) None)
                  end
              end
          end
      end
  end.

(** [Delete(value)]: removes the row with the primary key of [value];
    refused when that is zero. *)
Definition Delete (value : ClusterEntity) (db : DB) : Result * DB :=
  if (Entity.ID value =? 0)%Z then (mkResult (Some ErrMissingWhereClause), db)
  else
    match fault db with
    | Some e => (mkResult (Some e), db)
    | None =>
        (mkResult None,
         mkDB (List.filter (fun row => negb (Entity.ID row =? Entity.ID value)%Z)
                      (rows db))
              (sequence db) None)
    end.

End gorm.

(** ** The repository *)

(** [ClusterRepositoryFileBased]: what the logger has written so far (the
    messages of its [Errorw] calls) and the database behind the
    connection. *)
Record ClusterRepositoryFileBased : Type := mkRepository {
  logger : list string;
  dbConnection : gorm.DB;
}.

(** A method of the repository runs against the receiver [impl] and leaves
    it in a new state. *)
Definition M (A : Type) : Type :=
  ClusterRepositoryFileBased → A * ClusterRepositoryFileBased.

#[global] Instance M_ret : MRet M := λ A a impl, (a, impl).
#[global] Instance M_bind : MBind M :=
  λ A B f m impl, let '(a, impl') := m impl in f a impl'.

(** [logger.Errorw(msg, ...)]: the message is recorded, its key-value
    arguments are not. *)
Definition Errorw (msg : string) : M unit :=
  λ impl, (tt, mkRepository (logger impl ++ [msg]) (dbConnection impl)).

(** A statement that reads the database. *)
Definition reading {A} (stmt : gorm.DB → A) : M A :=
  λ impl, (stmt (dbConnection impl), impl).

(** A statement that may change it. *)
Definition writing {A} (stmt : gorm.DB → A * gorm.DB) : M A :=
  λ impl, let '(a, db) := stmt (dbConnection impl) in
          (a, mkRepository (logger impl) db).

Definition set_Id (i : Z) (model : Cluster) : Cluster :=
  mkCluster i (ClusterName model) (ServerUrl model) (Config model)
    (K8sVersion model) (ErrorInConnecting model) (Active model) (AuditLog model).

Definition set_Active (b : bool) (model : Cluster) : Cluster :=
  mkCluster (Id model) (ClusterName model) (ServerUrl model) (Config model)
    (K8sVersion model) (ErrorInConnecting model) b (AuditLog model).

Local Open Scope string_scope.

Definition convertToEntity (model : Cluster) : M (result ClusterEntity) :=
  match json.Marshal (Config model) with
  | None =>
      Errorw "error occurred while converting to entity";;
      mret (Err "failed to process cluster data")
  | Some configJson =>
      mret (Ok (Entity.mkClusterEntity
                  (Id model)
                  (ClusterName model)
                  (ServerUrl model)
                  (Some (Active model))
                  configJson
                  (K8sVersion model)
                  (ErrorInConnecting model)
                  (sql.mkAuditLog
                     (sql.CreatedOn (AuditLog model))
                     (sql.CreatedBy (AuditLog model))
                     (sql.UpdatedOn (AuditLog model))
                     (sql.UpdatedBy (AuditLog model)))))
  end.

Definition convertToModel (entity : ClusterEntity) : M (result Cluster) :=
  let clusterConfig : GoMap := Some ∅ in
  let decoded :=
    if (0 <? String.length (Entity.Config entity))%nat
    then json.Unmarshal (Entity.Config entity) clusterConfig
    else Some clusterConfig in
  match decoded with
  | None =>
      Errorw "error occured while unmarshalling cluster config ";;
      mret (Err "failed to process cluster data")
  | Some clusterConfig =>
      let isActive :=
        match Entity.Active entity with
        | Some b => b
        | None => false
        end in
      mret (Ok (mkCluster
                  (Entity.ID entity)
                  (Entity.ClusterName entity)
                  (Entity.ServerUrl entity)
                  clusterConfig
                  (Entity.K8sVersion entity)
                  (Entity.ErrorInConnecting entity)
                  isActive
                  (Entity.AuditLog entity)))
  end.

(** [Save] writes the generated id through the pointer it is given: the
    first component of its outcome is the caller's model after the call,
    the second the error it returns. *)
Definition Save (model : Cluster) : M (Cluster * option error) :=
  r ← convertToEntity model;
  match r with
  | Err err => mret (model, Some err)
  | Ok clusterEntity =>
      '(result, clusterEntity) ← writing (gorm.Create clusterEntity);
      match gorm.Error result with
      | Some err =>
          Errorw "error occurred while executing insert statement";;
          mret (model, Some err)
      | None => mret (set_Id (Entity.ID clusterEntity) model, None)
      end
  end.

Definition FindOneActive (clusterName : string) : M (result Cluster) :=
  let clusterEntity := Entity.zero in
  '(result, clusterEntity) ←
    reading (gorm.Find [ ("ClusterName = ?", gorm.AString clusterName);
                         ("Active = ?", gorm.ABool true) ] clusterEntity);
  let result := gorm.Limit 1 result in
  match gorm.Error result with
  | Some err =>
      Errorw "error occurred while finding cluster data ";;
      mret (Err err)
  | None =>
      r ← convertToModel clusterEntity;
      match r with
      | Err _ =>
          Errorw "error occurred while converting cluster data to  model ";;
          mret (Err "failed to fetch cluster")
      | Ok clusterBean => mret (Ok clusterBean)
      end
  end.

Definition FindOne (clusterName : string) : M (result Cluster) :=
  FindOneActive clusterName.

(** The loop over the selected entities that [FindAllActive] and
    [FindByIds] both end with. *)
Fixpoint convertEach (clusterEntities : list ClusterEntity)
    (clusters : list Cluster) : M (list Cluster) :=
  match clusterEntities with
  | [] => mret clusters
  | clusterEntity :: rest =>
      r ← convertToModel clusterEntity;
      match r with
      | Err _ =>
          Errorw "error occurred while converting entity to model bean";;
          convertEach rest clusters
      | Ok clusterBean => convertEach rest (clusters ++ [clusterBean])
      end
  end.

Definition FindAllActive : M (result (list Cluster)) :=
  '(result, clusterEntities) ←
    reading (gorm.FindAll [ ("Active = ?", gorm.ABool true) ]);
  match gorm.Error result with
  | Some err =>
      Errorw "error occurred while finding all cluster data";;
      mret (Err err)
  | None =>
      clusters ← convertEach clusterEntities [];
      mret (Ok clusters)
  end.

Definition FindAll : M (result (list Cluster)) := FindAllActive.

Definition FindById (id : Z) : M (result Cluster) :=
  let clusterEntity := Entity.zero in
  '(result, clusterEntity) ←
    reading (gorm.Find [ ("ID =?", gorm.AInt id);
                         ("Active = ?", gorm.ABool true) ] clusterEntity);
  let result := gorm.Limit 1 result in
  match gorm.Error result with
  | Some err =>
      Errorw "error occurred while finding cluster data ";;
      mret (Err err)
  | None =>
      r ← convertToModel clusterEntity;
      match r with
      | Err _ =>
          Errorw "error occurred while converting cluster data to  model ";;
          mret (Err "failed to fetch cluster")
      | Ok clusterBean => mret (Ok clusterBean)
      end
  end.

(** [pg.In(id)] wraps the slice in go-pg's value appender. *)
Definition pg_In (id : list Z) : gorm.Arg := gorm.AAppender id.

Definition FindByIds (id : list Z) : M (result (list Cluster)) :=
  '(result, clusterEntities) ←
    reading (gorm.FindAll [ ("ID in(?)", pg_In id);
                            ("Active = ?", gorm.ABool true) ]);
  match gorm.Error result with
  | Some err =>
      Errorw "error occurred while finding all cluster data";;
      mret (Err err)
  | None =>
      clusters ← convertEach clusterEntities [];
      mret (Ok clusters)
  end.

Definition Update (model : Cluster) : M (option error) :=
  r ← convertToEntity model;
  match r with
  | Err _ =>
      Errorw "error occurred while converting model to entity";;
      mret (Some "failed to update cluster")
  | Ok entity =>
      result ← writing (gorm.Updates entity);
      match gorm.Error result with
      | Some _ =>
          Errorw "error occurred while updating cluster";;
          mret (Some "failed to update cluster")
      | None => mret None
      end
  end.

Definition Delete (model : Cluster) : M (option error) :=
  r ← convertToEntity model;
  match r with
  | Err _ =>
      Errorw "error occurred while converting model to entity";;
      mret (Some "failed to delete cluster")
  | Ok entity =>
      result ← writing (gorm.Delete entity);
      match gorm.Error result with
      | Some _ =>
          Errorw "error occurred while deleting cluster";;
          mret (Some "failed to delete cluster")
      | None => mret None
      end
  end.

(** [MarkClusterDeleted] clears [Active] on the caller's model and
    updates; its outcome is that model and the error. *)
Definition MarkClusterDeleted (model : Cluster) : M (Cluster * option error) :=
  let model := set_Active false model in
  err ← Update model;
  mret (model, err).

Definition UpdateClusterConnectionStatus (clusterId : Z)
    (errorInConnecting : string) : M (option error) :=
  result ← writing (gorm.Update [ ("ID = ?", gorm.AInt clusterId) ]
                      "ErrorInConnecting = ?" (gorm.AString errorInConnecting));
  match gorm.Error result with
  | Some _ =>
      Errorw "error occurred while updating cluster connection status";;
      mret (Some "failed to update cluster status")
  | None => mret None
  end.

Local Open Scope list_scope.
Local Open Scope Z_scope.

(** ** Vocabulary of the statements *)

(** What [convertToModel] makes of the stored text: the decoded map, or
    [None] when the text cannot be decoded. *)
Definition decodeConfig (text : string) : option GoMap :=
  if (0 <? String.length text)%nat then json.Unmarshal text (Some ∅)
  else Some (Some ∅).

(** The model of an entity whose config decodes to [cfg]. *)
Definition toModel (entity : ClusterEntity) (cfg : GoMap) : Cluster :=
  mkCluster (Entity.ID entity) (Entity.ClusterName entity)
    (Entity.ServerUrl entity) cfg (Entity.K8sVersion entity)
    (Entity.ErrorInConnecting entity)
    (match Entity.Active entity with Some b => b | None => false end)
    (Entity.AuditLog entity).

Definition decode (entity : ClusterEntity) : option Cluster :=
  toModel entity <$> decodeConfig (Entity.Config entity).

(** The repository after it has logged [msgs]. *)
Definition logged (msgs : list string) (impl : ClusterRepositoryFileBased)
  : ClusterRepositoryFileBased :=
  mkRepository (logger impl ++ msgs) (dbConnection impl).

(** The rows of the table behind a repository. *)
Definition table (impl : ClusterRepositoryFileBased) : list ClusterEntity :=
  gorm.rows (dbConnection impl).

(** The rows an [Active = true] filter lets through. *)
Definition isActive (e : ClusterEntity) : bool :=
  match Entity.Active e with
  | Some true => true
  | _ => false
  end.

(** [r] is the decoded form of a stored row whose flag is true. *)
Definition stored_active (impl : ClusterRepositoryFileBased) (r : Cluster) : Prop :=
  ∃ e, e ∈ table impl ∧ Entity.Active e = Some true ∧ decode e = Some r.

(** What a single-row lookup returns when no row matches: the model of
    the untouched [&ClusterEntity{}]. *)
Definition notFound : Cluster :=
  mkCluster 0 "" "" (Some ∅) "" "" false (sql.mkAuditLog 0 0 0 0).

(** The messages logged for the rows of a batch that do not decode. *)
Definition skipped (es : list ClusterEntity) : list string :=
  flat_map (fun e => match decode e with
                     | Some _ => []
                     | None => [ "error occured while unmarshalling cluster config ";
                                 "error occurred while converting entity to model bean" ]
                     end) es.

(** The entity [convertToEntity] builds around encoded config [text]. *)
Definition toEntity (model : Cluster) (text : string) : ClusterEntity :=
  Entity.mkClusterEntity (Id model) (ClusterName model) (ServerUrl model)
    (Some (Active model)) text (K8sVersion model) (ErrorInConnecting model)
    (sql.mkAuditLog (sql.CreatedOn (AuditLog model)) (sql.CreatedBy (AuditLog model))
       (sql.UpdatedOn (AuditLog model)) (sql.UpdatedBy (AuditLog model))).

Definition set_Active_ptr (a : option bool) (e : ClusterEntity) : ClusterEntity :=
  Entity.mkClusterEntity (Entity.ID e) (Entity.ClusterName e) (Entity.ServerUrl e)
    a (Entity.Config e) (Entity.K8sVersion e) (Entity.ErrorInConnecting e)
    (Entity.AuditLog e).

(** The table after [Updates(entity)]. *)
Definition updated (entity : ClusterEntity) (l : list ClusterEntity)
  : list ClusterEntity :=
  map (fun row => if Entity.ID row =? Entity.ID entity
                  then gorm.assign_nonzero entity row else row) l.

(** The row a lookup by id scans into its destination: the first active
    row with that id, or the untouched [&ClusterEntity{}]. *)
Definition selectedById (id : Z) (impl : ClusterRepositoryFileBased)
  : ClusterEntity :=
  hd Entity.zero
     (List.filter (fun e => (Entity.ID e =? id) && isActive e) (table impl)).

(** No read of [impl] returns the cluster [c]: the lookups by its name
    and by its id return something else, the batch reads do not list
    it. *)
Definition invisible (c : Cluster) (impl : ClusterRepositoryFileBased) : Prop :=
  (∀ r impl', FindOneActive (ClusterName c) impl = (Ok r, impl') → Id r ≠ Id c)
  ∧ (∀ rs impl', FindAllActive impl = (Ok rs, impl') → ∀ r, r ∈ rs → Id r ≠ Id c)
  ∧ (∀ r impl', FindById (Id c) impl = (Ok r, impl') → r = notFound)
  ∧ (∀ ids rs impl', FindByIds ids impl = (Ok rs, impl') → ∀ r, r ∈ rs → Id r ≠ Id c).

(** Every read of [impl] returns only decoded rows whose flag is true (or,
    for a lookup, the not-found result). *)
Definition reads_only_active (impl : ClusterRepositoryFileBased) : Prop :=
  (∀ name r impl', FindOne name impl = (Ok r, impl') →
                   r = notFound ∨ stored_active impl r)
  ∧ (∀ name r impl', FindOneActive name impl = (Ok r, impl') →
                     r = notFound ∨ stored_active impl r)
  ∧ (∀ id r impl', FindById id impl = (Ok r, impl') →
                   r = notFound ∨ stored_active impl r)
  ∧ (∀ rs impl', FindAll impl = (Ok rs, impl') → ∀ r, r ∈ rs → stored_active impl r)
  ∧ (∀ rs impl', FindAllActive impl = (Ok rs, impl') → ∀ r, r ∈ rs → stored_active impl r)
  ∧ (∀ ids rs impl', FindByIds ids impl = (Ok rs, impl') → ∀ r, r ∈ rs → stored_active impl r).

(** [new] is [old] overwritten by the entity of [model] the way
    [Updates] does it: the flag and the encoded config always, every other
    field only when the model's value is not the zero value of its type. *)
Definition overwritten (model : Cluster) (old new : ClusterEntity) : Prop :=
  Entity.ID new = Id model
  ∧ Entity.Active new = Some (Active model)
  ∧ json.Marshal (Config model) = Some (Entity.Config new)
  ∧ Entity.ClusterName new
    = (if String.eqb (ClusterName model) "" then Entity.ClusterName old
       else ClusterName model)
  ∧ Entity.ServerUrl new
    = (if String.eqb (ServerUrl model) "" then Entity.ServerUrl old
       else ServerUrl model)
  ∧ Entity.K8sVersion new
    = (if String.eqb (K8sVersion model) "" then Entity.K8sVersion old
       else K8sVersion model)
  ∧ Entity.ErrorInConnecting new
    = (if String.eqb (ErrorInConnecting model) "" then Entity.ErrorInConnecting old
       else ErrorInConnecting model)
  ∧ sql.CreatedOn (Entity.AuditLog new)
    = (if sql.CreatedOn (AuditLog model) =? 0 then sql.CreatedOn (Entity.AuditLog old)
       else sql.CreatedOn (AuditLog model))
  ∧ sql.CreatedBy (Entity.AuditLog new)
    = (if sql.CreatedBy (AuditLog model) =? 0 then sql.CreatedBy (Entity.AuditLog old)
       else sql.CreatedBy (AuditLog model))
  ∧ sql.UpdatedOn (Entity.AuditLog new)
    = (if sql.UpdatedOn (AuditLog model) =? 0 then sql.UpdatedOn (Entity.AuditLog old)
       else sql.UpdatedOn (AuditLog model))
  ∧ sql.UpdatedBy (Entity.AuditLog new)
    = (if sql.UpdatedBy (AuditLog model) =? 0 then sql.UpdatedBy (Entity.AuditLog old)
       else sql.UpdatedBy (AuditLog model)).

(** *** Sample data *)

Definition audit0 : sql.AuditLog := sql.mkAuditLog 0 0 0 0.

(** A table with one active row, id 1, whose config is the empty object. *)
Definition row_c1 : ClusterEntity :=
  Entity.mkClusterEntity 1 "c1" "https://c1" (Some true) "{}" "1.20" "" audit0.

(** An active row, id 2, whose config text is cut short. *)
Definition row_corrupt : ClusterEntity :=
  Entity.mkClusterEntity 2 "c2" "https://c2" (Some true) "{" "1.21" "" audit0.

Definition repository_of (l : list ClusterEntity) : ClusterRepositoryFileBased :=
  mkRepository [] (gorm.mkDB l (gorm.max_id l) None).

(** The model of [row_c1]. *)
Definition cluster_c1 : Cluster :=
  mkCluster 1 "c1" "https://c1" (Some ∅) "1.20" "" true audit0.

(** A new cluster, not yet saved. *)
Definition cluster_new : Cluster :=
  mkCluster 0 "c3" "https://c3" (Some (<["token" := "abc"]> ∅)) "1.22" "" true audit0.

(** [cluster_c1] with its version cleared. *)
Definition cluster_c1_cleared : Cluster :=
  mkCluster 1 "c1" "https://c1" (Some ∅) "" "" true audit0.

(** A string that is not valid UTF-8: the single byte 0xFF. *)
Definition invalid_utf8 : string := String "255"%char EmptyString.

(** A cluster whose config holds that string. *)
Definition cluster_invalid_utf8 : Cluster :=
  mkCluster 0 "c4" "https://c4" (Some (<["k" := invalid_utf8]> ∅)) "" "" true audit0.

(** *** Vocabulary and tactics of the encoding proofs *)

(** [lia] is to reason about division and remainder by constants. *)
Ltac Zify.zify_post_hook ::= Z.to_euclidean_division_equations.

(** Case analysis on the comparisons of the goal, dropping the cases the
    hypotheses exclude. *)
Ltac split_tests :=
  repeat (match goal with
          | |- context [?a <=? ?b] =>
              destruct (Z.leb_spec a b); try (exfalso; lia)
          | |- context [?a <? ?b] =>
              destruct (Z.ltb_spec a b); try (exfalso; lia)
          | |- context [?a =? ?b] =>
              destruct (Z.eqb_spec a b); try (exfalso; lia)
          end; cbv beta iota; cbn [andb orb negb]).

(** The first [n] bytes of [p] are the encoding of the rune [r], on more
    than one byte: [EncodeRune] gives them back and [DecodeRune] reads
    them whatever follows. *)
Definition rune_ok (p : bytes) (r : Z) (n : nat) : Prop :=
  (2 ≤ n ≤ 4)%nat ∧ (n ≤ length p)%nat
  ∧ utf8.EncodeRune r = take n p
  ∧ 0x80 ≤ r
  ∧ ∀ Y, utf8.DecodeRune (take n p ++ Y) = (r, n).

(** Names for the rune expressions of [DecodeRune]. *)
Ltac name_runes :=
  repeat match goal with
  | |- context [Z.lor (Z.lor (Z.lor ?a ?b) ?c) ?d] =>
      let r := fresh "r4" in set (r := Z.lor (Z.lor (Z.lor a b) c) d)
  | |- context [Z.lor (Z.lor ?a ?b) ?c] =>
      let r := fresh "r3" in set (r := Z.lor (Z.lor a b) c)
  | |- context [Z.lor ?a ?b] =>
      let r := fresh "r2" in set (r := Z.lor a b)
  end.

(** Evaluation of the table lookups of [DecodeRune] on literals. *)
Ltac is_pos_lit p :=
  lazymatch p with
  | xH => idtac
  | xO ?q => is_pos_lit q
  | xI ?q => is_pos_lit q
  end.

Ltac is_Z_lit z :=
  lazymatch z with
  | Z0 => idtac
  | Zpos ?p => is_pos_lit p
  | Zneg ?p => is_pos_lit p
  end.

Ltac eval_closed :=
  repeat match goal with
  | |- context [Z.land ?a ?b] =>
      is_Z_lit a; is_Z_lit b;
      let v := eval vm_compute in (Z.land a b) in change (Z.land a b) with v
  | |- context [Z.shiftr ?a ?b] =>
      is_Z_lit a; is_Z_lit b;
      let v := eval vm_compute in (Z.shiftr a b) in change (Z.shiftr a b) with v
  | |- context [utf8.acceptRanges ?a] =>
      is_Z_lit a;
      let v := eval vm_compute in (utf8.acceptRanges a) in
      change (utf8.acceptRanges a) with v
  end.

Ltac run_decode Hf :=
  unfold utf8.DecodeRune, utf8.at_; cbn [nth length app take];
  name_runes; rewrite Hf; eval_closed; cbv beta iota;
  unfold utf8.locb, utf8.hicb; split_tests.

Ltac finish_rune HD tl :=
  right; rewrite (HD tl); cbn [fst snd]; unfold rune_ok; cbn [take app];
  split; [lia|]; split; [cbn [length]; lia|]; split; [|split; [lia|exact HD]].

(** Key and value are valid UTF-8. *)
Definition valid_pair (kv : string * string) : Prop :=
  utf8.ValidString kv.1 = true ∧ utf8.ValidString kv.2 = true.

(** The map after the pairs of [l] have been stored into [m], in order. *)
Definition store (m : gmap string string) (l : list (string * string))
  : gmap string string :=
  foldl (fun m kv => <[kv.1 := kv.2]> m) m l.

(** Every key and every value of the map is valid UTF-8. *)
Definition valid_config (m : GoMap) : Prop :=
  ∀ k v, entries m !! k = Some v →
         utf8.ValidString k = true ∧ utf8.ValidString v = true.

(** *** Sequences of writes *)

(** The calls that can change the store. *)
Inductive Operation : Type :=
| OpSave (model : Cluster)
| OpUpdate (model : Cluster)
| OpDelete (model : Cluster)
| OpMarkClusterDeleted (model : Cluster)
| OpUpdateClusterConnectionStatus (clusterId : Z) (errorInConnecting : string).

(** The repository after one call, whatever the call returned. *)
Definition perform (op : Operation) (impl : ClusterRepositoryFileBased)
  : ClusterRepositoryFileBased :=
  match op with
  | OpSave model => (Save model impl).2
  | OpUpdate model => (Update model impl).2
  | OpDelete model => (Delete model impl).2
  | OpMarkClusterDeleted model => (MarkClusterDeleted model impl).2
  | OpUpdateClusterConnectionStatus clusterId errorInConnecting =>
      (UpdateClusterConnectionStatus clusterId errorInConnecting impl).2
  end.

(** The repository after a sequence of calls, in order. *)
Definition perform_all (ops : list Operation) (impl : ClusterRepositoryFileBased)
  : ClusterRepositoryFileBased :=
  foldl (fun impl op => perform op impl) impl ops.

(** The rows [convertToModel] fails on. *)
Definition undecodable (e : ClusterEntity) : bool :=
  match decode e with Some _ => false | None => true end.

(** The primary keys of the table, in row order. *)
Definition ids (impl : ClusterRepositoryFileBased) : list Z :=
  map Entity.ID (table impl).


(** * Code written against collaborators

    The REST handler and the services below do their work through
    interfaces ([UserService], [Enforcer], the repositories, ...) whose
    implementations are not part of the code embedded here.  Such a method
    is embedded as a program that calls its collaborators: every call to a
    collaborator is a node of the program, and the answer is chosen by
    whoever runs it.  What is proved of a program holds for every run,
    that is for every implementation of the collaborators, stateful or
    not. *)

(** How a call ends when it does not return. *)
Inductive Abort : Type :=
| Panic (reason : string)
| Exit (code : Z).

(** A program with calls [E] (the call [e : E X] is answered by an [X])
    and result [R]. *)
Inductive Prog (E : Type → Type) (R : Type) : Type :=
| Ret (r : R)
| Stop (a : Abort)
| Vis (X : Type) (e : E X) (k : X → Prog E R).

Arguments Ret {E R} r.
Arguments Stop {E R} a.
Arguments Vis {E R X} e k.

Fixpoint Prog_bind {E A B} (f : A → Prog E B) (p : Prog E A) : Prog E B :=
  match p with
  | Ret r => f r
  | Stop a => Stop a
  | Vis e k => Vis e (fun x => Prog_bind f (k x))
  end.

#[global] Instance Prog_ret {E} : MRet (Prog E) := λ A a, Ret a.
#[global] Instance Prog_mbind {E} : MBind (Prog E) := λ A B f p, Prog_bind f p.

(** One call of a collaborator. *)
Definition trigger {E : Type → Type} {X} (e : E X) : Prog E X := Vis e Ret.

(** A call together with its answer. *)
Inductive Call (E : Type → Type) : Type :=
| call (X : Type) (e : E X) (x : X).

Arguments call {E X} e x.

(** How a run ends. *)
Inductive Outcome (R : Type) : Type :=
| Returned (r : R)
| Aborted (a : Abort).

Arguments Returned {R} r.
Arguments Aborted {R} a.

(** [runs p tr out]: the program [p] can make the calls of [tr], getting
    the answers of [tr], and then end as [out]. *)
Fixpoint runs {E R} (p : Prog E R) (tr : list (Call E)) (out : Outcome R) : Prop :=
  match p with
  | Ret r => tr = [] ∧ out = Returned r
  | Stop a => tr = [] ∧ out = Aborted a
  | Vis e k => ∃ x tr', tr = call e x :: tr' ∧ runs (k x) tr' out
  end.

(** Collaborators with a state of their own. *)
Definition Env (E : Type → Type) (S : Type) : Type := ∀ X, E X → S → X * S.

(** The run of [p] against the collaborators [env]. *)
Fixpoint run {E R S} (env : Env E S) (p : Prog E R) (s : S)
  : list (Call E) * Outcome R :=
  match p with
  | Ret r => ([], Returned r)
  | Stop a => ([], Aborted a)
  | Vis e k =>
      let '(x, s') := env _ e s in
      let '(tr, out) := run env (k x) s' in
      (call e x :: tr, out)
  end.

(** ** strconv.Atoi (64-bit [int]) *)

Module strconv.

Inductive Cause : Type := ErrSyntax | ErrRange.

(** [*NumError]: the failed conversion. *)
Record NumError : Type := mkNumError {
  Func : string;
  Num : string;
  Err : Cause;
}.

Definition syntaxError (fn str : string) : NumError := mkNumError fn str ErrSyntax.
Definition rangeError (fn str : string) : NumError := mkNumError fn str ErrRange.

Definition maxUint64 : Z := 2 ^ 64 - 1.

(** The value of a decimal digit. *)
Definition digit (c : ascii) : option Z :=
  if (48 <=? b2z c) && (b2z c <=? 57) then Some (b2z c - 48) else None.

(** The loop of [ParseUint(s, 10, 64)] from the value [n] read so far: the
    value and the cause of the failure, if any. *)
Fixpoint ParseUint_loop (s : bytes) (n : Z) : Z * option Cause :=
  match s with
  | [] => (n, None)
  | c :: s' =>
      match digit c with
      | None => (0, Some ErrSyntax)
      | Some d =>
          if maxUint64 / 10 + 1 <=? n then (maxUint64, Some ErrRange)
          else
            let n1 := n * 10 + d in
            if maxUint64 <? n1 then (maxUint64, Some ErrRange)
            else ParseUint_loop s' n1
      end
  end.

Definition ParseUint (s : bytes) : Z * option Cause :=
  match s with
  | [] => (0, Some ErrSyntax)
  | _ => ParseUint_loop s 0
  end.

(** [ParseInt(s, 10, 0)]. *)
Definition ParseInt (s : bytes) : Z * option Cause :=
  match s with
  | [] => (0, Some ErrSyntax)
  | c :: s' =>
      let neg := (b2z c =? 45) in
      let digits := if (b2z c =? 43) || (b2z c =? 45) then s' else s in
      let '(un, err) := ParseUint digits in
      match err with
      | Some ErrSyntax => (0, Some ErrSyntax)
      | _ =>
          let cutoff := 2 ^ 63 in
          if negb neg && (cutoff <=? un) then (cutoff - 1, Some ErrRange)
          else if neg && (cutoff <? un) then (- cutoff, Some ErrRange)
          else (if neg then - un else un, None)
      end
  end.

(** The fast path of [Atoi], for strings of 1 to 18 bytes. *)
Fixpoint Atoi_loop (s : bytes) (n : Z) : option Z :=
  match s with
  | [] => Some n
  | c :: s' =>
      match digit c with
      | None => None
      | Some d => Atoi_loop s' (n * 10 + d)
      end
  end.

Definition Atoi (s : string) : Z * option NumError :=
  let s0 := to_bytes s in
  let sLen := length s0 in
  if (0 <? sLen)%nat && (sLen <? 19)%nat then
    match s0 with
    | [] => (0, Some (syntaxError "Atoi" s))
    | c :: s' =>
        let digits := if (b2z c =? 45) || (b2z c =? 43) then s' else s0 in
        match digits with
        | [] => (0, Some (syntaxError "Atoi" s))
        | _ =>
            match Atoi_loop digits 0 with
            | None => (0, Some (syntaxError "Atoi" s))
            | Some n => (if b2z c =? 45 then - n else n, None)
            end
        end
    end
  else
    let '(i64, err) := ParseInt s0 in
    (i64, mkNumError "Atoi" s <$> err).

End strconv.

(** ** net/http and gorilla/mux: what the handler reads of a request *)

Module http.

(** [url.Values] and [http.Header]. *)
Definition Values : Type := gmap string (list string).

(** [Values.Get]: the first value of the key, or the empty string. *)
Definition Get (v : Values) (key : string) : string :=
  match v !! key with
  | Some (x :: _) => x
  | _ => ""
  end.

(** [Values.Has]: whether the key is set. *)
Definition Has (v : Values) (key : string) : bool :=
  bool_decide (is_Some (v !! key)).

(** The request: its header (keys in canonical form), the parsed query of
    its URL ([r.URL.Query()]) and the route variables ([mux.Vars(r)]).
    The body is read through the decoder, see the calls below. *)
Record Request : Type := mkRequest {
  Header : Values;
  URL_Query : Values;
  Vars : gmap string string;
}.

(** [r.Header.Get("token")]: [Header.Get] puts its key in canonical form
    before the lookup. *)
Definition Header_Get_token (r : Request) : string := Get (Header r) "Token".

Definition StatusOK : Z := 200.
Definition StatusBadRequest : Z := 400.
Definition StatusUnauthorized : Z := 401.
Definition StatusForbidden : Z := 403.
Definition StatusInternalServerError : Z := 500.

End http.

(** ** pkg/user/casbin and pkg/externalLink: what the handler uses

    The packages are not among the sources read here.  The values of
    their constants are left open: every statement holds whatever strings
    they are. *)

Module casbin.

Class Constants : Type := mkConstants {
  ResourceApplications : string;
  ResourceGlobal : string;
  ActionGet : string;
  ActionCreate : string;
  ActionUpdate : string;
  ActionDelete : string;
}.

End casbin.

Module externalLink.

Class Constants : Type := mkConstants {
  SUPER_ADMIN_ROLE : string;
  ADMIN_ROLE : string;
}.

(** [ExternalLinkDto]: the field the handler assigns, and the others,
    which it only passes on. *)
Record ExternalLinkDto (Any : Type) : Type := mkExternalLinkDto {
  UserId : Z;
  fields : Any;
}.

Arguments mkExternalLinkDto {Any} UserId fields.
Arguments UserId {Any} e.
Arguments fields {Any} e.

(** [LinkIdentifier]: the fields the handler sets (any other keeps its
    zero value). *)
Record LinkIdentifier : Type := mkLinkIdentifier {
  Type_ : string;
  Identifier : string;
  ClusterId : Z;
}.

End externalLink.

(** ** api/externalLink: the REST handler *)

Module ExternalLinkRestHandlerImpl.

(** The error values the handler meets: those of its collaborators and of
    [errors.New] and [fmt.Errorf], known by their message, and those of
    [strconv.Atoi]. *)
Inductive Error : Type :=
| errorString (s : string)
| numError (e : strconv.NumError).

Record AppIdDto : Type := mkAppIdDto { AppId : Z }.

Record RoleCheckResponse : Type := mkRoleCheckResponse { Access : bool }.

(** What is handed to [common.WriteJsonResp] as the result: nil, a
    string, a [RoleCheckResponse] or the value a service returned. *)
Inductive Payload (Any : Type) : Type :=
| Nil
| Text (s : string)
| Response (res : RoleCheckResponse)
| Value (v : Any).

Arguments Nil {Any}.
Arguments Text {Any} s.
Arguments Response {Any} res.
Arguments Value {Any} v.

(** The calls of the handler: the methods of its four collaborators, the
    decoding of the request body into the three destinations the handler
    uses, the logger (the message is recorded, its key-value arguments are
    not) and the writer of the response.  [Any] is the type of the values
    the handler only passes on. *)
Inductive Event (Any : Type) : Type → Type :=
| userService_GetLoggedInUser (r : http.Request) : Event Any (Z * option Error)
| Decode_AppIdDto (r : http.Request) : Event Any (AppIdDto * option Error)
| Decode_ExternalLinkDtos (r : http.Request)
  : Event Any (list (option (externalLink.ExternalLinkDto Any)) * option Error)
| Decode_ExternalLinkDto (r : http.Request)
  : Event Any (externalLink.ExternalLinkDto Any * option Error)
| enforcer_Enforce (token resource action object : string) : Event Any bool
| enforcerUtil_GetAppRBACName (appName : string) : Event Any string
| enforcerUtil_GetAppRBACNameByAppId (appId : Z) : Event Any string
| externalLinkService_Create
    (beans : list (option (externalLink.ExternalLinkDto Any)))
    (userId : Z) (userRole : string) : Event Any (Any * option Error)
| externalLinkService_GetAllActiveTools : Event Any (Any * option Error)
| externalLinkService_FetchAllActiveLinksByLinkIdentifier
    (linkIdentifier : option externalLink.LinkIdentifier) (clusterId : Z)
    (userRole : string) (userId : Z) : Event Any (Any * option Error)
| externalLinkService_Update
    (bean : externalLink.ExternalLinkDto Any) (userRole : string)
  : Event Any (Any * option Error)
| externalLinkService_DeleteLink (linkId userId : Z) (userRole : string)
  : Event Any (Any * option Error)
| logger_Errorw (msg : string) : Event Any unit
| common_WriteJsonResp (err : option Error) (payload : Payload Any) (status : Z)
  : Event Any unit.

Arguments userService_GetLoggedInUser {Any} r.
Arguments Decode_AppIdDto {Any} r.
Arguments Decode_ExternalLinkDtos {Any} r.
Arguments Decode_ExternalLinkDto {Any} r.
Arguments enforcer_Enforce {Any} token resource action object.
Arguments enforcerUtil_GetAppRBACName {Any} appName.
Arguments enforcerUtil_GetAppRBACNameByAppId {Any} appId.
Arguments externalLinkService_Create {Any} beans userId userRole.
Arguments externalLinkService_GetAllActiveTools {Any}.
Arguments externalLinkService_FetchAllActiveLinksByLinkIdentifier
  {Any} linkIdentifier clusterId userRole userId.
Arguments externalLinkService_Update {Any} bean userRole.
Arguments externalLinkService_DeleteLink {Any} linkId userId userRole.
Arguments logger_Errorw {Any} msg.
Arguments common_WriteJsonResp {Any} err payload status.

Definition isNil {A} (err : option A) : bool :=
  match err with
  | Some _ => false
  | None => true
  end.

Section Handler.

Context {Any : Type} {casbinConstants : casbin.Constants}
  {externalLinkConstants : externalLink.Constants}.

Definition RoleCheck (r : http.Request) : Prog (Event Any) unit :=
  '(userId, err) ← trigger (userService_GetLoggedInUser r);
  if negb (isNil err) || (userId =? 0) then
    trigger (common_WriteJsonResp err (Text "Unauthorized User") http.StatusUnauthorized)
  else
    '(appIdDto, err) ← trigger (Decode_AppIdDto r);
    if negb (isNil err) then
      trigger (logger_Errorw "invalid payload to the role check api");;
      trigger (common_WriteJsonResp err (Text "invalid request") http.StatusBadRequest)
    else
      let res := mkRoleCheckResponse false in
      let token := http.Header_Get_token r in
      object ← trigger (enforcerUtil_GetAppRBACNameByAppId (AppId appIdDto));
      ok ← trigger (enforcer_Enforce token casbin.ResourceApplications "*" object);
      if negb ok then
        trigger (common_WriteJsonResp (Some (errorString "unauthorized"))
                   (Response res) http.StatusOK)
      else
        trigger (common_WriteJsonResp (Some (errorString "unauthorized"))
                   (Response res) http.StatusForbidden).

Definition roleCheckHelper (r : http.Request) (action : string)
  : Prog (Event Any) (Z * string * option Error) :=
  '(userId, err) ← trigger (userService_GetLoggedInUser r);
  if (userId =? 0) || negb (isNil err) then
    trigger (common_WriteJsonResp err (Text "Unauthorized User") http.StatusUnauthorized);;
    mret (userId, "", Some (errorString "unauthorized error"))
  else
    let v := http.URL_Query r in
    let appName := http.Get v "appName" in
    let token := http.Header_Get_token r in
    if negb (http.Has v "appName") then
      ok ← trigger (enforcer_Enforce token casbin.ResourceGlobal action "*");
      if negb ok then
        trigger (common_WriteJsonResp (Some (errorString "unauthorized")) Nil
                   http.StatusForbidden);;
        mret (userId, "", Some (errorString "unauthorized error"))
      else
        mret (userId, externalLink.SUPER_ADMIN_ROLE, None)
    else
      object ← trigger (enforcerUtil_GetAppRBACName appName);
      ok ← trigger (enforcer_Enforce token casbin.ResourceApplications action object);
      if negb ok then
        trigger (common_WriteJsonResp (Some (errorString "unauthorized")) Nil
                   http.StatusForbidden);;
        mret (userId, "", Some (errorString "unauthorized error"))
      else
        mret (userId, externalLink.ADMIN_ROLE, None).

Definition CreateExternalLinks (r : http.Request) : Prog (Event Any) unit :=
  '(userId, userRole, err) ← roleCheckHelper r casbin.ActionCreate;
  if negb (isNil err) then mret tt
  else
    '(beans, err) ← trigger (Decode_ExternalLinkDtos r);
    if negb (isNil err) then
      trigger (logger_Errorw "request err, SaveLink");;
      trigger (common_WriteJsonResp err Nil http.StatusBadRequest)
    else
      '(res, err) ← trigger (externalLinkService_Create beans userId userRole);
      if negb (isNil err) then
        trigger (logger_Errorw "service err, SaveLink");;
        trigger (common_WriteJsonResp err Nil http.StatusInternalServerError)
      else
        trigger (common_WriteJsonResp err (Value res) http.StatusOK).

Definition GetExternalLinkMonitoringTools (r : http.Request)
  : Prog (Event Any) unit :=
  '(userId, err) ← trigger (userService_GetLoggedInUser r);
  if (userId =? 0) || negb (isNil err) then
    trigger (common_WriteJsonResp err (Text "Unauthorized User") http.StatusUnauthorized)
  else
    '(res, err) ← trigger externalLinkService_GetAllActiveTools;
    if negb (isNil err) then
      trigger (logger_Errorw "service err, GetAllActiveTools");;
      trigger (common_WriteJsonResp err Nil http.StatusInternalServerError)
    else
      trigger (common_WriteJsonResp err (Value res) http.StatusOK).

Definition GetExternalLinks (r : http.Request) : Prog (Event Any) unit :=
  '(userId, err) ← trigger (userService_GetLoggedInUser r);
  if (userId =? 0) || negb (isNil err) then
    trigger (common_WriteJsonResp err (Text "Unauthorized User") http.StatusUnauthorized)
  else
    let v := http.URL_Query r in
    let clusterId := http.Get v "clusterId" in
    let linkType := http.Get v "type" in
    let identifier := http.Get v "identifier" in
    let token := http.Header_Get_token r in
    if (String.length identifier =? 0)%nat && (String.length linkType =? 0)%nat
       && (String.length clusterId =? 0)%nat then
      ok ← trigger (enforcer_Enforce token casbin.ResourceGlobal casbin.ActionGet "*");
      if negb ok then
        trigger (common_WriteJsonResp (Some (errorString "unauthorized")) Nil
                   http.StatusForbidden)
      else
        let '(id, _) := strconv.Atoi clusterId in
        '(res, err) ← trigger (externalLinkService_FetchAllActiveLinksByLinkIdentifier
                                 None id externalLink.SUPER_ADMIN_ROLE userId);
        if negb (isNil err) then
          trigger (logger_Errorw "service err, FetchAllActive");;
          trigger (common_WriteJsonResp err Nil http.StatusInternalServerError)
        else
          trigger (common_WriteJsonResp err (Value res) http.StatusOK)
    else if negb (String.length identifier =? 0)%nat
            && negb (String.length linkType =? 0)%nat then
      let '(id, err) :=
        if negb (String.length clusterId =? 0)%nat
        then strconv.Atoi clusterId
        else (0, None) in
      match err with
      | Some e =>
          trigger (logger_Errorw "error occurred while parsing cluster_id");;
          trigger (common_WriteJsonResp (Some (numError e)) Nil http.StatusBadRequest)
      | None =>
          let linkIdentifier := externalLink.mkLinkIdentifier linkType identifier 0 in
          '(res, err) ← trigger (externalLinkService_FetchAllActiveLinksByLinkIdentifier
                                   (Some linkIdentifier) id externalLink.ADMIN_ROLE userId);
          if negb (isNil err) then
            trigger (logger_Errorw "service err, FetchAllActive");;
            trigger (common_WriteJsonResp err Nil http.StatusInternalServerError)
          else
            trigger (common_WriteJsonResp err (Value res) http.StatusOK)
      end
    else
      trigger (logger_Errorw "invalid request, FetchAllActive external links");;
      trigger (common_WriteJsonResp err Nil http.StatusBadRequest).

Definition UpdateExternalLink (r : http.Request) : Prog (Event Any) unit :=
  '(userId, userRole, err) ← roleCheckHelper r casbin.ActionUpdate;
  if negb (isNil err) then mret tt
  else
    '(bean, err) ← trigger (Decode_ExternalLinkDto r);
    if negb (isNil err) then
      trigger (logger_Errorw "request err, Update Link");;
      trigger (common_WriteJsonResp err Nil http.StatusBadRequest)
    else
      let bean := externalLink.mkExternalLinkDto userId (externalLink.fields bean) in
      '(res, err) ← trigger (externalLinkService_Update bean userRole);
      if negb (isNil err) then
        trigger (logger_Errorw "service err, Update Links");;
        trigger (common_WriteJsonResp err Nil http.StatusInternalServerError)
      else
        trigger (common_WriteJsonResp err (Value res) http.StatusOK).

Definition DeleteExternalLink (r : http.Request) : Prog (Event Any) unit :=
  '(userId, userRole, err) ← roleCheckHelper r casbin.ActionDelete;
  if negb (isNil err) then mret tt
  else
    let params := http.Vars r in
    let id := default "" (params !! "id") in
    let '(linkId, err) := strconv.Atoi id in
    match err with
    | Some e =>
        trigger (logger_Errorw "request err, DeleteExternalLink");;
        trigger (common_WriteJsonResp (Some (numError e)) Nil http.StatusBadRequest)
    | None =>
        '(res, err) ← trigger (externalLinkService_DeleteLink linkId userId userRole);
        if negb (isNil err) then
          trigger (logger_Errorw "service err, delete Links");;
          trigger (common_WriteJsonResp err Nil http.StatusInternalServerError)
        else
          trigger (common_WriteJsonResp err (Value res) http.StatusOK)
    end.

End Handler.

(** *** Vocabulary of the statements about the handler *)

(** A call of the [ExternalLinkService]. *)
Inductive ServiceCall (Any : Type) : Type :=
| SCreate (beans : list (option (externalLink.ExternalLinkDto Any)))
    (userId : Z) (userRole : string)
| SGetAllActiveTools
| SFetchAllActiveLinksByLinkIdentifier
    (linkIdentifier : option externalLink.LinkIdentifier) (clusterId : Z)
    (userRole : string) (userId : Z)
| SUpdate (bean : externalLink.ExternalLinkDto Any) (userRole : string)
| SDeleteLink (linkId userId : Z) (userRole : string).

Arguments SCreate {Any} beans userId userRole.
Arguments SGetAllActiveTools {Any}.
Arguments SFetchAllActiveLinksByLinkIdentifier {Any} linkIdentifier clusterId userRole userId.
Arguments SUpdate {Any} bean userRole.
Arguments SDeleteLink {Any} linkId userId userRole.

(** The service call made by [c] and the answer it got, if [c] is one. *)
Definition service_call_of {Any} (c : Call (Event Any))
  : option (ServiceCall Any * (Any * option Error)) :=
  match c with
  | call e x =>
      match e in Event _ X return X → option (ServiceCall Any * (Any * option Error)) with
      | externalLinkService_Create beans userId userRole =>
          fun x => Some (SCreate beans userId userRole, x)
      | externalLinkService_GetAllActiveTools =>
          fun x => Some (SGetAllActiveTools, x)
      | externalLinkService_FetchAllActiveLinksByLinkIdentifier li cid role uid =>
          fun x => Some (SFetchAllActiveLinksByLinkIdentifier li cid role uid, x)
      | externalLinkService_Update bean userRole =>
          fun x => Some (SUpdate bean userRole, x)
      | externalLinkService_DeleteLink linkId userId userRole =>
          fun x => Some (SDeleteLink linkId userId userRole, x)
      | _ => fun _ => None
      end x
  end.

(** The service calls of a run, with their answers, in order. *)
Definition service_calls {Any} (tr : list (Call (Event Any)))
  : list (ServiceCall Any * (Any * option Error)) :=
  omap service_call_of tr.

(** On whose behalf and in which role a service call is made. *)
Definition caller {Any} (c : ServiceCall Any) : option (Z * string) :=
  match c with
  | SCreate _ userId userRole => Some (userId, userRole)
  | SGetAllActiveTools => None
  | SFetchAllActiveLinksByLinkIdentifier _ _ userRole userId => Some (userId, userRole)
  | SUpdate bean userRole => Some (externalLink.UserId bean, userRole)
  | SDeleteLink _ userId userRole => Some (userId, userRole)
  end.

Definition response_of {Any} (c : Call (Event Any))
  : option (option Error * Payload Any * Z) :=
  match c with
  | call e _ =>
      match e with
      | common_WriteJsonResp err payload status => Some (err, payload, status)
      | _ => None
      end
  end.

(** The responses written in a run: error, result and status. *)
Definition responses {Any} (tr : list (Call (Event Any)))
  : list (option Error * Payload Any * Z) :=
  omap response_of tr.

Definition enforcement_of {Any} (c : Call (Event Any))
  : option (string * string * string * string * bool) :=
  match c with
  | call e x =>
      match e in Event _ X return X → option (string * string * string * string * bool) with
      | enforcer_Enforce token resource action object =>
          fun ok => Some (token, resource, action, object, ok)
      | _ => fun _ => None
      end x
  end.

(** The policy checks of a run: token, resource, action, object and the
    enforcer's answer. *)
Definition enforcements {Any} (tr : list (Call (Event Any)))
  : list (string * string * string * string * bool) :=
  omap enforcement_of tr.

Definition login_of {Any} (c : Call (Event Any)) : option (Z * option Error) :=
  match c with
  | call e x =>
      match e in Event _ X return X → option (Z * option Error) with
      | userService_GetLoggedInUser _ => fun x => Some x
      | _ => fun _ => None
      end x
  end.

(** What the user service said of the logged-in user. *)
Definition logins {Any} (tr : list (Call (Event Any))) : list (Z * option Error) :=
  omap login_of tr.

Definition log_of {Any} (c : Call (Event Any)) : option string :=
  match c with
  | call e _ =>
      match e with
      | logger_Errorw msg => Some msg
      | _ => None
      end
  end.

(** The messages logged in a run. *)
Definition logs {Any} (tr : list (Call (Event Any))) : list string :=
  omap log_of tr.

(** The endpoints of the handler. *)
Inductive Endpoint : Type :=
| EpRoleCheck
| EpCreateExternalLinks
| EpGetExternalLinkMonitoringTools
| EpGetExternalLinks
| EpUpdateExternalLink
| EpDeleteExternalLink.

Definition handle {Any} {casbinConstants : casbin.Constants}
  {externalLinkConstants : externalLink.Constants} (ep : Endpoint) (r : http.Request) : Prog (Event Any) unit :=
  match ep with
  | EpRoleCheck => RoleCheck r
  | EpCreateExternalLinks => CreateExternalLinks r
  | EpGetExternalLinkMonitoringTools => GetExternalLinkMonitoringTools r
  | EpGetExternalLinks => GetExternalLinks r
  | EpUpdateExternalLink => UpdateExternalLink r
  | EpDeleteExternalLink => DeleteExternalLink r
  end.

(** The action an endpoint that changes links asks the enforcer for. *)
Definition action_of {casbinConstants : casbin.Constants} (ep : Endpoint) : option string :=
  match ep with
  | EpCreateExternalLinks => Some casbin.ActionCreate
  | EpUpdateExternalLink => Some casbin.ActionUpdate
  | EpDeleteExternalLink => Some casbin.ActionDelete
  | _ => None
  end.

(** *** Sample data *)

(** Sample values for the constants. *)
Definition casbin_constants : casbin.Constants :=
  casbin.mkConstants "applications" "global-resource" "get" "create" "update" "delete".

Definition externalLink_constants : externalLink.Constants :=
  externalLink.mkConstants "superAdmin" "admin".

(** Collaborators for a run: the user service knows the caller as
    [userId], the enforcer answers [allow], the service answers with the
    number of the calls made so far and no error, and the body of the
    request decodes to zero values. *)
Definition collaborators (userId : Z) (allow : bool) : Env (Event nat) nat :=
  fun X e =>
    match e in Event _ X return nat → X * nat with
    | userService_GetLoggedInUser _ => fun n => ((userId, None), n)
    | Decode_AppIdDto _ => fun n => ((mkAppIdDto 0, None), n)
    | Decode_ExternalLinkDtos _ => fun n => (([], None), n)
    | Decode_ExternalLinkDto _ =>
        fun n => ((externalLink.mkExternalLinkDto 99 0%nat, None), n)
    | enforcer_Enforce _ _ _ _ => fun n => (allow, n)
    | enforcerUtil_GetAppRBACName appName => fun n => (appName, n)
    | enforcerUtil_GetAppRBACNameByAppId _ => fun n => ("app", n)
    | externalLinkService_Create _ _ _ => fun n => ((n, None), S n)
    | externalLinkService_GetAllActiveTools => fun n => ((n, None), S n)
    | externalLinkService_FetchAllActiveLinksByLinkIdentifier _ _ _ _ =>
        fun n => ((n, None), S n)
    | externalLinkService_Update _ _ => fun n => ((n, None), S n)
    | externalLinkService_DeleteLink _ _ _ => fun n => ((n, None), S n)
    | logger_Errorw _ => fun n => (tt, n)
    | common_WriteJsonResp _ _ _ => fun n => (tt, n)
    end.

(** A request with the given query and route variables. *)
Definition request (query : list (string * list string)) (vars : list (string * string))
  : http.Request :=
  http.mkRequest (list_to_map [("Token", ["secret"])]) (list_to_map query)
    (list_to_map vars).

End ExternalLinkRestHandlerImpl.

(** *** Tactics for the runs of a program *)

(** Case analysis of a run [H : runs p tr out]: the calls of [p] one
    after the other, with a case for every branch [p] takes on their
    answers. *)
Ltac run_inv H :=
  repeat (
    cbn [runs mbind Prog_mbind Prog_bind trigger mret Prog_ret negb
           ExternalLinkRestHandlerImpl.isNil] in H;
    match type of H with
    | ∃ _, _ =>
        let x := fresh "x" in let tr := fresh "tr" in
        destruct H as (x & tr & -> & H)
    | _ ∧ _ => destruct H as [-> ->]
    | context [match ?x with _ => _ end] =>
        first [ is_var x; destruct x
              | let Heq := fresh "Heq" in
                destruct x eqn:Heq; try (cbn in Heq; discriminate Heq) ]
    end).

(** What the tests of a branch say of the answers. *)
Ltac run_tidy :=
  repeat match goal with
         | x : unit |- _ => destruct x
         | H : negb ?b = _ |- _ => is_var b; destruct b; try discriminate H; clear H
         | H : negb (ExternalLinkRestHandlerImpl.isNil ?o) = _ |- _ =>
             is_var o; destruct o; try discriminate H; clear H
         | H : negb _ = true |- _ => apply negb_true_iff in H
         | H : negb _ = false |- _ => apply negb_false_iff in H
         | H : _ || _ = false |- _ => apply orb_false_iff in H as [? ?]
         | H : (_ =? _) = false |- _ => apply Z.eqb_neq in H
         end.

(** A run against given collaborators, by evaluation. *)
Ltac run_here :=
  vm_compute; repeat (eexists _, _; split; [reflexivity|]); split; reflexivity.

(** * Properties *)

(** ** The encoding adapter *)

Lemma b2z_range c : 0 ≤ b2z c < 256.
Proof.
  unfold b2z. pose proof (N_ascii_bounded c). lia.
Qed.

Lemma land_FF z : 0 ≤ z < 256 → Z.land z 0xFF = z.
Proof.
  intros. change 0xFF with (Z.ones 8). rewrite Z.land_ones by lia.
  apply Z.mod_small. change (2^8) with 256. lia.
Qed.

Lemma z2b_b2z c : z2b (b2z c) = c.
Proof.
  unfold z2b. rewrite land_FF by apply b2z_range.
  unfold b2z. rewrite N2Z.id. apply ascii_N_embedding.
Qed.

Lemma land_disjoint a b k :
  0 ≤ k → 0 ≤ b < 2 ^ k → Z.land (a * 2 ^ k) b = 0.
Proof.
  intros Hk Hb. apply Z.bits_inj'. intros n Hn.
  rewrite Z.land_spec, Z.bits_0.
  destruct (Z.lt_ge_cases n k) as [Hlt|Hge].
  - by rewrite Z.mul_pow2_bits_low by lia.
  - destruct (Z.eq_dec b 0) as [->|Hb0].
    + by rewrite Z.bits_0, andb_false_r.
    + rewrite (Z.bits_above_log2 b n), andb_false_r; [done|lia|].
      apply Z.log2_lt_pow2; [lia|].
      apply Z.lt_le_trans with (2 ^ k); [lia|apply Z.pow_le_mono_r; lia].
Qed.

Lemma lor_add a b k :
  0 ≤ k → 0 ≤ b < 2 ^ k → Z.lor (a * 2 ^ k) b = a * 2 ^ k + b.
Proof.
  intros Hk Hb.
  rewrite <- Z.lxor_lor, Z.add_nocarry_lxor; auto using land_disjoint.
Qed.

Lemma shiftr_div z k : 0 ≤ k → Z.shiftr z k = z / 2 ^ k.
Proof. intros. by apply Z.shiftr_div_pow2. Qed.

Lemma shiftl_mul z k : 0 ≤ k → Z.shiftl z k = z * 2 ^ k.
Proof. intros. by apply Z.shiftl_mul_pow2. Qed.

Lemma land_3F z : Z.land z 0x3F = z mod 64.
Proof. change 0x3F with (Z.ones 6). by rewrite Z.land_ones. Qed.
Lemma land_1F z : Z.land z 0x1F = z mod 32.
Proof. change 0x1F with (Z.ones 5). by rewrite Z.land_ones. Qed.
Lemma land_0F z : Z.land z 0x0F = z mod 16.
Proof. change 0x0F with (Z.ones 4). by rewrite Z.land_ones. Qed.
Lemma land_07 z : Z.land z 0x07 = z mod 8.
Proof. change 0x07 with (Z.ones 3). by rewrite Z.land_ones. Qed.
Lemma land_FF' z : Z.land z 0xFF = z mod 256.
Proof. change 0xFF with (Z.ones 8). by rewrite Z.land_ones. Qed.

Lemma lor_tx b : 0 ≤ b < 64 → Z.lor 0x80 b = 0x80 + b.
Proof. intros. apply (lor_add 1 b 7); [lia|]. change (2^7) with 128. lia. Qed.
Lemma lor_t2 b : 0 ≤ b < 32 → Z.lor 0xC0 b = 0xC0 + b.
Proof. intros. apply (lor_add 3 b 6); [lia|]. change (2^6) with 64. lia. Qed.
Lemma lor_t3 b : 0 ≤ b < 16 → Z.lor 0xE0 b = 0xE0 + b.
Proof. intros. apply (lor_add 7 b 5); [lia|]. change (2^5) with 32. lia. Qed.
Lemma lor_t4 b : 0 ≤ b < 8 → Z.lor 0xF0 b = 0xF0 + b.
Proof. intros. apply (lor_add 15 b 4); [lia|]. change (2^4) with 16. lia. Qed.

Lemma lor_64 a b : 0 ≤ b < 64 → Z.lor (a * 64) b = a * 64 + b.
Proof. intros. by apply (lor_add a b 6). Qed.
Lemma lor_4096 a b : 0 ≤ b < 4096 → Z.lor (a * 4096) b = a * 4096 + b.
Proof. intros. by apply (lor_add a b 12). Qed.
Lemma lor_262144 a b : 0 ≤ b < 262144 → Z.lor (a * 262144) b = a * 262144 + b.
Proof. intros. by apply (lor_add a b 18). Qed.

Lemma rune2 p0 b1 :
  0xC0 ≤ p0 ≤ 0xDF → 0x80 ≤ b1 ≤ 0xBF →
  Z.lor (Z.shiftl (Z.land p0 utf8.mask2) 6) (Z.land b1 utf8.maskx)
  = (p0 - 0xC0) * 64 + (b1 - 0x80).
Proof.
  intros H0 H1. unfold utf8.mask2, utf8.maskx.
  rewrite land_1F, land_3F, shiftl_mul by lia. change (2 ^ 6) with 64.
  rewrite lor_64 by lia. lia.
Qed.

Lemma rune3 p0 b1 b2 :
  0xE0 ≤ p0 ≤ 0xEF → 0x80 ≤ b1 ≤ 0xBF → 0x80 ≤ b2 ≤ 0xBF →
  Z.lor (Z.lor (Z.shiftl (Z.land p0 utf8.mask3) 12)
               (Z.shiftl (Z.land b1 utf8.maskx) 6))
        (Z.land b2 utf8.maskx)
  = (p0 - 0xE0) * 4096 + (b1 - 0x80) * 64 + (b2 - 0x80).
Proof.
  intros H0 H1 H2. unfold utf8.mask3, utf8.maskx.
  rewrite land_0F, !land_3F, !shiftl_mul by lia.
  change (2 ^ 6) with 64. change (2 ^ 12) with 4096.
  rewrite lor_4096 by lia.
  replace (p0 mod 16 * 4096 + b1 mod 64 * 64)
    with ((p0 mod 16 * 64 + b1 mod 64) * 64) by lia.
  rewrite lor_64 by lia. lia.
Qed.

Lemma rune4 p0 b1 b2 b3 :
  0xF0 ≤ p0 ≤ 0xF7 → 0x80 ≤ b1 ≤ 0xBF → 0x80 ≤ b2 ≤ 0xBF → 0x80 ≤ b3 ≤ 0xBF →
  Z.lor (Z.lor (Z.lor (Z.shiftl (Z.land p0 utf8.mask4) 18)
                      (Z.shiftl (Z.land b1 utf8.maskx) 12))
               (Z.shiftl (Z.land b2 utf8.maskx) 6))
        (Z.land b3 utf8.maskx)
  = (p0 - 0xF0) * 262144 + (b1 - 0x80) * 4096 + (b2 - 0x80) * 64 + (b3 - 0x80).
Proof.
  intros H0 H1 H2 H3. unfold utf8.mask4, utf8.maskx.
  rewrite land_07, !land_3F, !shiftl_mul by lia.
  change (2 ^ 6) with 64. change (2 ^ 12) with 4096. change (2 ^ 18) with 262144.
  rewrite lor_262144 by lia.
  replace (p0 mod 8 * 262144 + b1 mod 64 * 4096)
    with ((p0 mod 8 * 64 + b1 mod 64) * 4096) by lia.
  rewrite lor_4096 by lia.
  replace ((p0 mod 8 * 64 + b1 mod 64) * 4096 + b2 mod 64 * 64)
    with (((p0 mod 8 * 64 + b1 mod 64) * 64 + b2 mod 64) * 64) by lia.
  rewrite lor_64 by lia. lia.
Qed.

Lemma encode2 a b :
  2 ≤ a < 32 → 0 ≤ b < 64 →
  utf8.EncodeRune (a * 64 + b) = [z2b (0xC0 + a); z2b (0x80 + b)].
Proof.
  intros Ha Hb. unfold utf8.EncodeRune.
  destruct (Z.leb_spec 0 (a * 64 + b)); [|lia].
  destruct (Z.leb_spec (a * 64 + b) 0x7F); [lia|].
  destruct (Z.leb_spec (a * 64 + b) 0x7FF); [|lia]. cbn [andb].
  unfold utf8.t2, utf8.tx, utf8.maskx.
  rewrite !land_FF', !land_3F, shiftr_div by lia. change (2 ^ 6) with 64.
  replace ((a * 64 + b) / 64 mod 256) with a by lia.
  replace ((a * 64 + b) mod 256 mod 64) with b by lia.
  by rewrite lor_t2, lor_tx by lia.
Qed.

Lemma encode3 a b c :
  0 ≤ a < 16 → 0 ≤ b < 64 → 0 ≤ c < 64 →
  0x800 ≤ a * 4096 + b * 64 + c →
  ¬ (0xD800 ≤ a * 4096 + b * 64 + c ≤ 0xDFFF) →
  utf8.EncodeRune (a * 4096 + b * 64 + c)
  = [z2b (0xE0 + a); z2b (0x80 + b); z2b (0x80 + c)].
Proof.
  intros Ha Hb Hc Hlo Hs. unfold utf8.EncodeRune.
  set (r := a * 4096 + b * 64 + c) in *.
  unfold utf8.MaxRune, utf8.surrogateMin, utf8.surrogateMax.
  destruct (Z.leb_spec 0 r); [|lia].
  destruct (Z.leb_spec r 0x7F); [lia|].
  destruct (Z.leb_spec r 0x7FF); [lia|].
  destruct (Z.ltb_spec r 0); [lia|].
  destruct (Z.ltb_spec 0x10FFFF r); [lia|].
  destruct (Z.leb_spec 0xD800 r), (Z.leb_spec r 0xDFFF); try lia; cbn [andb orb].
  all: destruct (Z.leb_spec r 0xFFFF); [|lia].
  all: unfold utf8.encode3, utf8.t3, utf8.tx, utf8.maskx.
  all: rewrite !land_FF', !land_3F, !shiftr_div by lia.
  all: change (2 ^ 6) with 64; change (2 ^ 12) with 4096.
  all: replace (r / 4096 mod 256) with a by lia.
  all: replace (r / 64 mod 256 mod 64) with b by lia.
  all: replace (r mod 256 mod 64) with c by lia.
  all: by rewrite lor_t3, !lor_tx by lia.
Qed.

Lemma encode4 a b c d :
  0 ≤ a < 8 → 0 ≤ b < 64 → 0 ≤ c < 64 → 0 ≤ d < 64 →
  0x10000 ≤ a * 262144 + b * 4096 + c * 64 + d ≤ 0x10FFFF →
  utf8.EncodeRune (a * 262144 + b * 4096 + c * 64 + d)
  = [z2b (0xF0 + a); z2b (0x80 + b); z2b (0x80 + c); z2b (0x80 + d)].
Proof.
  intros Ha Hb Hc Hd Hr. unfold utf8.EncodeRune.
  set (r := a * 262144 + b * 4096 + c * 64 + d) in *.
  unfold utf8.MaxRune, utf8.surrogateMin, utf8.surrogateMax.
  destruct (Z.leb_spec 0 r); [|lia].
  destruct (Z.leb_spec r 0x7F); [lia|].
  destruct (Z.leb_spec r 0x7FF); [lia|].
  destruct (Z.ltb_spec r 0); [lia|].
  destruct (Z.ltb_spec 0x10FFFF r); [lia|].
  destruct (Z.leb_spec 0xD800 r); [|lia].
  destruct (Z.leb_spec r 0xDFFF); [lia|]. cbn [andb orb].
  destruct (Z.leb_spec r 0xFFFF); [lia|].
  unfold utf8.t4, utf8.tx, utf8.maskx.
  rewrite !land_FF', !land_3F, !shiftr_div by lia.
  change (2 ^ 6) with 64; change (2 ^ 12) with 4096; change (2 ^ 18) with 262144.
  replace (r / 262144 mod 256) with a by lia.
  replace (r / 4096 mod 256 mod 64) with b by lia.
  replace (r / 64 mod 256 mod 64) with c by lia.
  replace (r mod 256 mod 64) with d by lia.
  by rewrite lor_t4, !lor_tx by lia.
Qed.

Lemma first_cases z :
  0x80 ≤ z < 256 →
  (utf8.first z = 0xF1)
  ∨ (0xC2 ≤ z ≤ 0xDF ∧ utf8.first z = 0x02)
  ∨ (z = 0xE0 ∧ utf8.first z = 0x13)
  ∨ ((0xE1 ≤ z ≤ 0xEC ∨ 0xEE ≤ z ≤ 0xEF) ∧ utf8.first z = 0x03)
  ∨ (z = 0xED ∧ utf8.first z = 0x23)
  ∨ (z = 0xF0 ∧ utf8.first z = 0x34)
  ∨ (0xF1 ≤ z ≤ 0xF3 ∧ utf8.first z = 0x04)
  ∨ (z = 0xF4 ∧ utf8.first z = 0x44).
Proof.
  intros Hz. unfold utf8.first. split_tests; auto 10 with lia.
  all: try (right; left; split; [lia|reflexivity]).
  all: try (right; right; right; left; split; [lia|reflexivity]).
  all: try (right; right; right; right; right; right; left; split; [lia|reflexivity]).
Qed.

Lemma z2b_off k z c : z = b2z c → z2b (k + (z - k)) = c.
Proof. intros ->. replace (k + (b2z c - k)) with (b2z c) by lia. apply z2b_b2z. Qed.

Lemma DecodeRune_three c tl lo hi x :
  utf8.first (b2z c) = x → Z.land x 7 = 3 →
  utf8.acceptRanges (Z.shiftr x 4) = (lo, hi) → x < 0xF0 →
  0xE0 ≤ b2z c ≤ 0xEF → 0x80 ≤ lo → hi ≤ 0xBF →
  (∀ b1, lo ≤ b1 ≤ hi →
     0x800 ≤ (b2z c - 0xE0) * 4096 + (b1 - 0x80) * 64
     ∧ ¬ (0xD800 ≤ (b2z c - 0xE0) * 4096 + (b1 - 0x80) * 64 < 0xE000)) →
  (utf8.DecodeRune (c :: tl) = (utf8.RuneError, 1%nat))
  ∨ rune_ok (c :: tl) (utf8.DecodeRune (c :: tl)).1 (utf8.DecodeRune (c :: tl)).2.
Proof.
  intros Hf Hsz Hacc Hx H0 Hlo Hhi Hr.
  assert (∀ p, utf8.DecodeRune (c :: p) =
     if Z.of_nat (length (c :: p)) <? 3 then (utf8.RuneError, 1%nat)
     else if (utf8.at_ (c :: p) 1 <? lo) || (hi <? utf8.at_ (c :: p) 1)
     then (utf8.RuneError, 1%nat)
     else if (utf8.at_ (c :: p) 2 <? 0x80) || (0xBF <? utf8.at_ (c :: p) 2)
     then (utf8.RuneError, 1%nat)
     else (Z.lor (Z.lor (Z.shiftl (Z.land (b2z c) utf8.mask3) 12)
                        (Z.shiftl (Z.land (utf8.at_ (c :: p) 1) utf8.maskx) 6))
                 (Z.land (utf8.at_ (c :: p) 2) utf8.maskx), 3%nat)) as HU.
  { intros p. unfold utf8.DecodeRune. change (utf8.at_ (c :: p) 0) with (b2z c).
    rewrite Hf, Hsz, Hacc. cbn [length].
    destruct (Z.ltb_spec (Z.of_nat (S (length p))) 1); [lia|].
    destruct (Z.leb_spec 240 x); [lia|].
    destruct (Z.leb_spec 3 2); [lia|]. destruct (Z.leb_spec 3 3); [|lia].
    reflexivity. }
  destruct tl as [|c1 [|c2 tl]]; [left; by rewrite HU..|].
  pose proof (b2z_range c1). pose proof (b2z_range c2).
  destruct (decide (lo ≤ b2z c1 ≤ hi)) as [Hb1|Hb1].
  2:{ left. rewrite HU. unfold utf8.at_; cbn [nth length]. split_tests; reflexivity. }
  destruct (decide (0x80 ≤ b2z c2 ≤ 0xBF)) as [Hb2|Hb2].
  2:{ left. rewrite HU. unfold utf8.at_; cbn [nth length]. split_tests; reflexivity. }
  assert (∀ Y, utf8.DecodeRune (c :: c1 :: c2 :: Y)
               = ((b2z c - 0xE0) * 4096 + (b2z c1 - 0x80) * 64 + (b2z c2 - 0x80),
                  3%nat)) as HD.
  { intros Y. rewrite HU. unfold utf8.at_; cbn [nth length].
    rewrite rune3 by lia. split_tests; reflexivity. }
  specialize (Hr _ Hb1).
  finish_rune HD tl.
  rewrite encode3 by lia. f_equal; [|f_equal; [|f_equal]]; by apply z2b_off.
Qed.

Lemma DecodeRune_four c tl lo hi x :
  utf8.first (b2z c) = x → Z.land x 7 = 4 →
  utf8.acceptRanges (Z.shiftr x 4) = (lo, hi) → x < 0xF0 →
  0xF0 ≤ b2z c ≤ 0xF4 → 0x80 ≤ lo → hi ≤ 0xBF →
  (∀ b1, lo ≤ b1 ≤ hi →
     0x10000 ≤ (b2z c - 0xF0) * 262144 + (b1 - 0x80) * 4096
     ∧ (b2z c - 0xF0) * 262144 + (b1 - 0x80) * 4096 + 4095 ≤ 0x10FFFF) →
  (utf8.DecodeRune (c :: tl) = (utf8.RuneError, 1%nat))
  ∨ rune_ok (c :: tl) (utf8.DecodeRune (c :: tl)).1 (utf8.DecodeRune (c :: tl)).2.
Proof.
  intros Hf Hsz Hacc Hx H0 Hlo Hhi Hr.
  assert (∀ p, utf8.DecodeRune (c :: p) =
     if Z.of_nat (length (c :: p)) <? 4 then (utf8.RuneError, 1%nat)
     else if (utf8.at_ (c :: p) 1 <? lo) || (hi <? utf8.at_ (c :: p) 1)
     then (utf8.RuneError, 1%nat)
     else if (utf8.at_ (c :: p) 2 <? 0x80) || (0xBF <? utf8.at_ (c :: p) 2)
     then (utf8.RuneError, 1%nat)
     else if (utf8.at_ (c :: p) 3 <? 0x80) || (0xBF <? utf8.at_ (c :: p) 3)
     then (utf8.RuneError, 1%nat)
     else (Z.lor (Z.lor (Z.lor (Z.shiftl (Z.land (b2z c) utf8.mask4) 18)
                               (Z.shiftl (Z.land (utf8.at_ (c :: p) 1) utf8.maskx) 12))
                        (Z.shiftl (Z.land (utf8.at_ (c :: p) 2) utf8.maskx) 6))
                 (Z.land (utf8.at_ (c :: p) 3) utf8.maskx), 4%nat)) as HU.
  { intros p. unfold utf8.DecodeRune. change (utf8.at_ (c :: p) 0) with (b2z c).
    rewrite Hf, Hsz, Hacc. cbn [length].
    destruct (Z.ltb_spec (Z.of_nat (S (length p))) 1); [lia|].
    destruct (Z.leb_spec 240 x); [lia|].
    destruct (Z.leb_spec 4 2); [lia|]. destruct (Z.leb_spec 4 3); [lia|].
    reflexivity. }
  destruct tl as [|c1 [|c2 [|c3 tl]]]; [left; by rewrite HU..|].
  pose proof (b2z_range c1). pose proof (b2z_range c2). pose proof (b2z_range c3).
  destruct (decide (lo ≤ b2z c1 ≤ hi)) as [Hb1|Hb1].
  2:{ left. rewrite HU. unfold utf8.at_; cbn [nth length]. split_tests; reflexivity. }
  destruct (decide (0x80 ≤ b2z c2 ≤ 0xBF)) as [Hb2|Hb2].
  2:{ left. rewrite HU. unfold utf8.at_; cbn [nth length]. split_tests; reflexivity. }
  destruct (decide (0x80 ≤ b2z c3 ≤ 0xBF)) as [Hb3|Hb3].
  2:{ left. rewrite HU. unfold utf8.at_; cbn [nth length]. split_tests; reflexivity. }
  assert (∀ Y, utf8.DecodeRune (c :: c1 :: c2 :: c3 :: Y)
               = ((b2z c - 0xF0) * 262144 + (b2z c1 - 0x80) * 4096
                  + (b2z c2 - 0x80) * 64 + (b2z c3 - 0x80), 4%nat)) as HD.
  { intros Y. rewrite HU. unfold utf8.at_; cbn [nth length].
    rewrite rune4 by lia. split_tests; reflexivity. }
  specialize (Hr _ Hb1).
  finish_rune HD tl.
  rewrite encode4 by lia. f_equal; [|f_equal; [|f_equal; [|f_equal]]]; by apply z2b_off.
Qed.

Lemma DecodeRune_cases c tl :
  0x80 ≤ b2z c →
  (utf8.DecodeRune (c :: tl) = (utf8.RuneError, 1%nat))
  ∨ rune_ok (c :: tl) (utf8.DecodeRune (c :: tl)).1 (utf8.DecodeRune (c :: tl)).2.
Proof.
  intros Hc. pose proof (b2z_range c) as Hr.
  destruct (first_cases (b2z c)) as [Hf|[[H0 Hf]|[[H0 Hf]|[[H0 Hf]|[[H0 Hf]|[[H0 Hf]|[[H0 Hf]|[H0 Hf]]]]]]]];
    [lia| | | | | | | |].
  - left. run_decode Hf. reflexivity.
  - (* two bytes *)
    destruct tl as [|c1 tl]; [left; by run_decode Hf|].
    pose proof (b2z_range c1).
    destruct (decide (0x80 ≤ b2z c1 ≤ 0xBF)) as [Hb1|Hb1];
      [|left; by run_decode Hf].
    assert (∀ Y, utf8.DecodeRune (c :: c1 :: Y)
                 = ((b2z c - 0xC0) * 64 + (b2z c1 - 0x80), 2%nat)) as HD.
    { intros Y. run_decode Hf. subst r2. by rewrite rune2 by lia. }
    finish_rune HD tl.
    rewrite encode2 by lia. f_equal; [|f_equal]; by apply z2b_off.
  - apply (DecodeRune_three c tl 0xA0 0xBF 0x13); try done; try lia.
  - apply (DecodeRune_three c tl 0x80 0xBF 0x03); try done; try lia.
  - apply (DecodeRune_three c tl 0x80 0x9F 0x23); try done; try lia.
  - apply (DecodeRune_four c tl 0x90 0xBF 0x34); try done; try lia.
  - apply (DecodeRune_four c tl 0x80 0xBF 0x04); try done; try lia.
  - apply (DecodeRune_four c tl 0x80 0x8F 0x44); try done; try lia.
Qed.

Lemma DecodeRune_ascii c tl :
  b2z c < 0x80 → utf8.DecodeRune (c :: tl) = (b2z c, 1%nat).
Proof.
  intros Hc. pose proof (b2z_range c).
  unfold utf8.DecodeRune, utf8.at_, utf8.first. cbn [nth length].
  destruct (Z.ltb_spec (Z.of_nat (S (length tl))) 1); [lia|].
  destruct (Z.ltb_spec (b2z c) 128); [|lia]. reflexivity.
Qed.

Lemma rune_ok_decode c tl r n :
  rune_ok (c :: tl) r n → utf8.DecodeRune (c :: tl) = (r, n).
Proof.
  intros (Hn & Hl & _ & _ & HD).
  rewrite <- (take_drop n (c :: tl)) at 1. apply HD.
Qed.

Lemma DecodeRune_take4 c tl :
  0x80 ≤ b2z c →
  utf8.DecodeRune (take utf8.UTFMax (c :: tl)) = utf8.DecodeRune (c :: tl).
Proof.
  intros Hc. unfold utf8.UTFMax. cbn [take].
  destruct (DecodeRune_cases c (take 3 tl) Hc) as [H4|H4].
  - destruct (DecodeRune_cases c tl Hc) as [H|H]; [congruence|].
    destruct (utf8.DecodeRune (c :: tl)) as [r n]. cbn [fst snd] in H.
    destruct H as (Hn & Hl & _ & _ & HD).
    rewrite <- (HD (take (4 - n) (drop n (c :: tl)))).
    f_equal. change (c :: take 3 tl) with (take 4 (c :: tl)).
    rewrite <- (take_drop n (take 4 (c :: tl))).
    rewrite take_take, Nat.min_l by lia. f_equal.
    by rewrite skipn_firstn_comm.
  - destruct (utf8.DecodeRune (c :: take 3 tl)) as [r n] eqn:E. cbn [fst snd] in H4.
    destruct H4 as (Hn & Hl & _ & _ & HD).
    rewrite <- (take_drop n (c :: tl)) at 1.
    change (c :: take 3 tl) with (take 4 (c :: tl)) in HD.
    rewrite take_take, Nat.min_l in HD by lia. by rewrite HD.
Qed.

Lemma valid_loop_multi f c tl :
  0x80 ≤ b2z c → utf8.valid_loop (S f) (c :: tl) = true →
  ∃ r n, rune_ok (c :: tl) r n ∧ utf8.valid_loop f (drop n (c :: tl)) = true.
Proof.
  intros Hc. cbn [utf8.valid_loop].
  destruct (DecodeRune_cases c tl Hc) as [H|H].
  - rewrite H. unfold utf8.RuneError. by rewrite Z.eqb_refl.
  - destruct (utf8.DecodeRune (c :: tl)) as [r n]. cbn [fst snd] in H.
    destruct ((r =? utf8.RuneError) && (n =? 1)%nat); [discriminate|].
    intros Hv. by exists r, n.
Qed.

Lemma valid_loop_ascii f c tl :
  b2z c < 0x80 → utf8.valid_loop (S f) (c :: tl) = true →
  utf8.valid_loop f tl = true.
Proof.
  intros Hc. cbn [utf8.valid_loop]. rewrite (DecodeRune_ascii _ _ Hc).
  unfold utf8.RuneError. destruct (Z.eqb_spec (b2z c) 65533); [lia|]. done.
Qed.

(** One iteration of [unquote] on an escape written by [escape]. *)
Lemma unquote_escape c f X :
  b2z c < 0x80 → json.htmlSafeSet (b2z c) = false →
  json.unquote (S f) (json.escape c ++ X)
  = '(d, rest) ← json.unquote f X; Some (c :: d, rest).
Proof.
  destruct c as [[] [] [] [] [] [] [] []]; intros H1 H2;
    try discriminate H2; try (exfalso; revert H1; vm_compute; congruence);
    reflexivity.
Qed.

Lemma unquote_safe c f X :
  json.htmlSafeSet (b2z c) = true →
  json.unquote (S f) (c :: X)
  = '(d, rest) ← json.unquote f X; Some (c :: d, rest).
Proof.
  destruct c as [[] [] [] [] [] [] [] []]; intros H2;
    try discriminate H2; reflexivity.
Qed.

Lemma unquote_rune c tl r n f Y :
  0x80 ≤ b2z c → rune_ok (c :: tl) r n →
  json.unquote (S f) (take n (c :: tl) ++ Y)
  = '(d, rest) ← json.unquote f Y; Some (take n (c :: tl) ++ d, rest).
Proof.
  intros Hc (Hn & Hl & HE & Hr & HD). pose proof (b2z_range c).
  assert (drop n (take n (c :: tl) ++ Y) = Y) as Hdrop.
  { rewrite drop_app_length'; [done|]. rewrite length_take. lia. }
  specialize (HD Y). revert HD Hdrop.
  destruct n as [|n]; [lia|]. cbn [take app]. intros HD Hdrop.
  cbn [json.unquote]. unfold utf8.RuneSelf.
  destruct (Z.eqb_spec (b2z c) 34); [lia|].
  destruct (Z.eqb_spec (b2z c) 92); [lia|].
  destruct (Z.ltb_spec (b2z c) 32); [lia|].
  destruct (Z.ltb_spec (b2z c) 128); [lia|].
  rewrite HD, Hdrop, HE. reflexivity.
Qed.

Lemma unquote_u202x r f Y :
  r = 0x2028 ∨ r = 0x2029 →
  json.unquote (S f)
    (json.backslash :: to_bytes "u202" ++ json.hex (Z.land r 0xF) :: Y)
  = '(d, rest) ← json.unquote f Y; Some (utf8.EncodeRune r ++ d, rest).
Proof. intros [-> | ->]; reflexivity. Qed.

Lemma appendString_loop_unquote f : ∀ p,
  (length p ≤ f)%nat → utf8.valid_loop f p = true →
  ∀ f2 rest,
    (length (json.appendString_loop f p) < f2)%nat →
    json.unquote f2 (json.appendString_loop f p ++ json.quote :: rest)
    = Some (p, rest).
Proof.
  induction f as [|f IH]; intros p Hlen Hv f2 rest Hf2.
  { destruct p; [|simpl in Hlen; lia]. destruct f2; [simpl in Hf2; lia|]. reflexivity. }
  destruct p as [|c tl].
  { destruct f2; [simpl in Hf2; lia|]. reflexivity. }
  cbn [length] in Hlen. revert Hf2. cbn [json.appendString_loop]. unfold utf8.RuneSelf.
  destruct (Z.ltb_spec (b2z c) 128) as [Hc|Hc].
  - apply valid_loop_ascii in Hv; [|done].
    destruct (json.htmlSafeSet (b2z c)) eqn:Hs; intros Hf2.
    + destruct f2 as [|f2]; [lia|]. cbn [app]. rewrite (unquote_safe _ _ _ Hs).
      rewrite IH; [done|lia|done|]. cbn [length] in Hf2. lia.
    + destruct f2 as [|f2]; [lia|]. rewrite <- app_assoc.
      rewrite (unquote_escape _ _ _ Hc Hs).
      rewrite IH; [done|lia|done|]. rewrite length_app in Hf2.
      assert (1 ≤ length (json.escape c))%nat; [|lia].
      unfold json.escape. repeat case_match; cbn; lia.
  - rewrite DecodeRune_take4 by lia.
    apply valid_loop_multi in Hv as (r & n & Hok & Hv); [|lia].
    rewrite (rune_ok_decode _ _ _ _ Hok).
    pose proof Hok as (Hn & Hl & HE & Hr & HD).
    assert ((r =? utf8.RuneError) && (n =? 1)%nat = false) as ->.
    { destruct (Nat.eqb_spec n 1); [lia|]. apply andb_false_r. }
    assert (length (drop n (c :: tl)) ≤ f)%nat
      by (rewrite length_drop; cbn [length] in *; lia).
    destruct ((r =? 8232) || (r =? 8233)) eqn:Hu; intros Hf2.
    + destruct f2 as [|f2]; [lia|].
      cbn [app]. rewrite <- app_assoc. cbn [app].
      rewrite unquote_u202x by (apply orb_true_iff in Hu; lia).
      cbn [length] in Hf2. rewrite length_app in Hf2. cbn [length] in Hf2.
      rewrite IH; [|done|done|lia].
      cbn [mbind option_bind]. by rewrite HE, take_drop.
    + destruct f2 as [|f2]; [lia|].
      rewrite <- app_assoc, (unquote_rune c tl r n) by (done || lia).
      rewrite length_app, length_take in Hf2.
      rewrite IH; [|done|done|lia].
      cbn [mbind option_bind]. by rewrite take_drop.
Qed.

Lemma appendString_app s rest :
  json.appendString s ++ rest
  = json.quote :: json.appendString_loop (length (to_bytes s)) (to_bytes s)
                  ++ json.quote :: rest.
Proof. unfold json.appendString. cbn [app]. by rewrite <- app_assoc. Qed.

Lemma unquote_appendString s rest :
  utf8.ValidString s = true →
  json.unquote
    (length (json.appendString_loop (length (to_bytes s)) (to_bytes s)
             ++ json.quote :: rest))
    (json.appendString_loop (length (to_bytes s)) (to_bytes s)
     ++ json.quote :: rest)
  = Some (to_bytes s, rest).
Proof.
  intros Hv. apply appendString_loop_unquote; [done|exact Hv|].
  rewrite length_app. cbn [length]. lia.
Qed.

Lemma stringValue_appendString s rest :
  utf8.ValidString s = true →
  json.stringValue (json.appendString s ++ rest) = Some (to_bytes s, rest).
Proof.
  intros Hv. rewrite appendString_app. unfold json.stringValue.
  change (b2z json.quote =? 34) with true. cbv beta iota.
  by apply unquote_appendString.
Qed.

Lemma of_to_bytes s : of_bytes (to_bytes s) = s.
Proof. apply string_of_list_ascii_of_string. Qed.

Lemma to_of_bytes l : to_bytes (of_bytes l) = l.
Proof. apply list_ascii_of_string_of_list_ascii. Qed.

Lemma appendPairs_cons kv l :
  json.appendPairs (kv :: l)
  = json.appendPair kv
    ++ match l with [] => [] | _ :: _ => ","%char :: json.appendPairs l end.
Proof. destruct l; cbn [json.appendPairs]; [by rewrite app_nil_r|done]. Qed.

Lemma appendPairs_head kv l :
  ∃ X, json.appendPairs (kv :: l) = json.quote :: X.
Proof.
  rewrite appendPairs_cons. unfold json.appendPair, json.appendString.
  cbn [app]. eauto.
Qed.

Lemma members_appendPairs l : ∀ fuel m rest,
  l ≠ [] → Forall valid_pair l → (length l ≤ fuel)%nat →
  json.members fuel (json.appendPairs l ++ "}"%char :: rest) m
  = Some (store m l, rest).
Proof.
  induction l as [|[k v] l IH]; intros fuel m rest Hne Hv Hfuel; [done|].
  destruct fuel as [|fuel]; [cbn [length] in Hfuel; lia|].
  apply Forall_cons in Hv as [[Hk Hv1] Hv]. cbn [fst snd] in Hk, Hv1.
  rewrite appendPairs_cons. unfold json.appendPair. cbn [fst snd].
  rewrite <- !app_assoc. rewrite appendString_app.
  cbn [json.members]. change (b2z json.quote =? 34) with true. cbv beta iota.
  rewrite (unquote_appendString k _ Hk). cbn [mbind option_bind].
  cbn [app]. change (json.skipSpace (":"%char :: ?X)) with (":"%char :: X).
  change (b2z ":"%char =? 58) with true. cbv beta iota.
  rewrite appendString_app.
  change (json.skipSpace (json.quote :: ?X)) with (json.quote :: X).
  rewrite <- appendString_app, (stringValue_appendString v _ Hv1).
  cbn [mbind option_bind]. rewrite !of_to_bytes.
  destruct l as [|kv' l'].
  - cbn [app]. change (json.skipSpace ("}"%char :: ?X)) with ("}"%char :: X).
    reflexivity.
  - cbn [app]. change (json.skipSpace (","%char :: ?X)) with (","%char :: X).
    change (b2z ","%char =? 44) with true. cbv beta iota.
    destruct (appendPairs_head kv' l') as [X HX].
    rewrite HX. cbn [app].
    change (json.skipSpace (json.quote :: ?X)) with (json.quote :: X).
    change (json.quote :: X ++ "}"%char :: rest)
      with ((json.quote :: X) ++ "}"%char :: rest).
    rewrite <- HX. rewrite IH; [done|done|done|cbn [length] in *; lia].
Qed.

Lemma store_snoc m l kv : store m (l ++ [kv]) = <[kv.1 := kv.2]> (store m l).
Proof. unfold store. by rewrite foldl_app. Qed.

Lemma store_list_to_map l : store ∅ l = list_to_map (rev l).
Proof.
  induction l as [|kv l IH] using rev_ind; [done|].
  rewrite store_snoc, rev_app_distr, IH. by destruct kv.
Qed.

Lemma store_sorted_pairs kvs : store ∅ (json.sorted_pairs kvs) = kvs.
Proof.
  rewrite store_list_to_map.
  rewrite <- (list_to_map_to_list kvs) at 2.
  assert (rev (json.sorted_pairs kvs) ≡ₚ map_to_list kvs) as HP.
  { rewrite <- Permutation_rev. apply merge_sort_Permutation. }
  apply list_to_map_proper; [|done].
  rewrite HP. apply NoDup_fst_map_to_list.
Qed.

Lemma valid_sorted_pairs kvs :
  valid_config (Some kvs) → Forall valid_pair (json.sorted_pairs kvs).
Proof.
  intros Hv. apply Forall_forall. intros [k v] Hin.
  unfold json.sorted_pairs in Hin. rewrite merge_sort_Permutation in Hin.
  apply elem_of_map_to_list in Hin. exact (Hv k v Hin).
Qed.

Lemma length_appendPairs l : (length l ≤ length (json.appendPairs l))%nat.
Proof.
  induction l as [|kv l IH]; [done|].
  rewrite appendPairs_cons, length_app.
  assert (1 ≤ length (json.appendPair kv))%nat.
  { unfold json.appendPair, json.appendString. cbn [length app]. lia. }
  destruct l; cbn [length] in *; lia.
Qed.

Lemma length_of_bytes l : String.length (of_bytes l) = length l.
Proof. induction l as [|c l IH]; [done|]. unfold of_bytes in *. cbn. by rewrite IH. Qed.

Lemma Unmarshal_Marshal m text :
  valid_config m → json.Marshal m = Some text →
  (0 < String.length text)%nat
  ∧ ∃ m', json.Unmarshal text (Some ∅) = Some m' ∧ entries m' = entries m.
Proof.
  intros Hv. destruct m as [kvs|]; intros [= <-].
  2:{ split; [cbn; lia|]. by exists None. }
  change (String "{"%char (of_bytes ?X)) with (of_bytes ("{"%char :: X)).
  split; [rewrite length_of_bytes; cbn [length]; lia|].
  exists (Some kvs). split; [|done].
  pose proof (store_sorted_pairs kvs) as Hs.
  pose proof (valid_sorted_pairs kvs Hv) as Hvs.
  unfold json.Unmarshal. rewrite to_of_bytes. cbv zeta.
  change (json.skipSpace ("{"%char :: ?X)) with ("{"%char :: X). cbv beta iota.
  change (b2z "{"%char =? 123) with true. cbv beta iota.
  destruct (json.sorted_pairs kvs) as [|kv l] eqn:E.
  - cbn in Hs. by rewrite <- Hs.
  - destruct (appendPairs_head kv l) as [X HX].
    assert (json.skipSpace (json.appendPairs (kv :: l) ++ ["}"%char])
            = json.appendPairs (kv :: l) ++ ["}"%char]) as Hsk
      by (by rewrite HX).
    rewrite Hsk. rewrite HX at 1. cbn [app]. cbv beta iota.
    change (b2z json.quote =? 125) with false. cbv beta iota.
    rewrite members_appendPairs; [|done|done|].
    + cbn [mbind option_bind json.skipSpace].
      change (entries (Some ∅)) with (∅ : gmap string string). by rewrite Hs.
    + rewrite length_app. pose proof (length_appendPairs (kv :: l)). lia.
Qed.

(** ** The translation between entity and model *)

Lemma convertToModel_eq entity impl :
  convertToModel entity impl =
  match decode entity with
  | Some c => (Ok c, impl)
  | None => (Err "failed to process cluster data",
             logged ["error occured while unmarshalling cluster config "] impl)
  end.
Proof.
  unfold convertToModel, decode, decodeConfig.
  destruct (0 <? String.length (Entity.Config entity))%nat;
    [destruct (json.Unmarshal _ _)|]; reflexivity.
Qed.

Lemma Marshal_total m : ∃ text, json.Marshal m = Some text.
Proof. destruct m; simpl; eauto. Qed.

Lemma convertToEntity_eq model impl :
  ∃ text, json.Marshal (Config model) = Some text
          ∧ convertToEntity model impl = (Ok (toEntity model text), impl).
Proof.
  destruct (Marshal_total (Config model)) as [text H].
  exists text. split; [done|]. unfold convertToEntity. rewrite H. reflexivity.
Qed.

Lemma convertEach_eq es : ∀ acc impl,
  convertEach es acc impl = ((acc ++ omap decode es)%list, logged (skipped es) impl).
Proof.
  induction es as [|e es IH]; intros acc impl; simpl.
  - rewrite app_nil_r. unfold logged. rewrite app_nil_r. by destruct impl.
  - unfold mbind, M_bind. rewrite convertToModel_eq.
    destruct (decode e) as [c|]; simpl.
    + rewrite IH. by rewrite <- app_assoc.
    + rewrite IH. unfold logged; simpl. by rewrite <- !app_assoc.
Qed.

(** ** The statements of the store *)

Lemma compile_Active :
  gorm.compile ("Active = ?", gorm.ABool true)
  = Ok (fun e => gorm.sql_eq (gorm.column_value gorm.active e) (gorm.Integer 1)).
Proof. reflexivity. Qed.

Lemma compile_ID id :
  gorm.compile ("ID =?", gorm.AInt id)
  = Ok (fun e => gorm.sql_eq (gorm.column_value gorm.id e) (gorm.Integer id)).
Proof. reflexivity. Qed.

Lemma compile_ClusterName name :
  gorm.compile ("ClusterName = ?", gorm.AString name)
  = Err "no such column: ClusterName".
Proof. reflexivity. Qed.

Lemma sql_eq_active e :
  gorm.sql_eq (gorm.column_value gorm.active e) (gorm.Integer 1) = isActive e.
Proof. unfold isActive. simpl. by destruct (Entity.Active e) as [[]|]. Qed.

Lemma isActive_spec e : isActive e = true ↔ Entity.Active e = Some true.
Proof. unfold isActive. destruct (Entity.Active e) as [[]|]; split; congruence. Qed.

Lemma query_Active db :
  gorm.fault db = None →
  gorm.query [("Active = ?", gorm.ABool true)] db
  = Ok (List.filter isActive (gorm.rows db)).
Proof.
  intros H. unfold gorm.query. rewrite H. cbn [gorm.compile_all].
  rewrite compile_Active. f_equal. apply List.filter_ext. intros e.
  rewrite sql_eq_active. apply andb_true_r.
Qed.

Lemma query_ID_Active id db :
  gorm.fault db = None →
  gorm.query [("ID =?", gorm.AInt id); ("Active = ?", gorm.ABool true)] db
  = Ok (List.filter (fun e => (Entity.ID e =? id) && isActive e) (gorm.rows db)).
Proof.
  intros H. unfold gorm.query. rewrite H. cbn [gorm.compile_all].
  rewrite compile_ID, compile_Active. f_equal. apply List.filter_ext. intros e.
  rewrite sql_eq_active, andb_true_r. reflexivity.
Qed.

Lemma query_fault wheres db e :
  gorm.fault db = Some e → gorm.query wheres db = Err e.
Proof. intros H. unfold gorm.query. by rewrite H. Qed.

(** ** The read paths *)

Lemma FindAllActive_eq impl :
  gorm.fault (dbConnection impl) = None →
  FindAllActive impl =
  (Ok (omap decode (List.filter isActive (table impl))),
   logged (skipped (List.filter isActive (table impl))) impl).
Proof.
  intros H. unfold FindAllActive, mbind, M_bind, reading, gorm.FindAll.
  rewrite (query_Active _ H). cbn [gorm.Error].
  rewrite convertEach_eq. reflexivity.
Qed.

Lemma FindAllActive_fault impl e :
  gorm.fault (dbConnection impl) = Some e →
  FindAllActive impl =
  (Err e, logged ["error occurred while finding all cluster data"] impl).
Proof.
  intros H. unfold FindAllActive, mbind, M_bind, reading, gorm.FindAll.
  rewrite (query_fault _ _ _ H). reflexivity.
Qed.

Lemma FindById_eq id impl :
  gorm.fault (dbConnection impl) = None →
  FindById id impl =
  match decode (hd Entity.zero
                  (List.filter (fun e => (Entity.ID e =? id) && isActive e)
                               (table impl))) with
  | Some c => (Ok c, impl)
  | None =>
      (Err "failed to fetch cluster",
       logged [ "error occured while unmarshalling cluster config ";
                "error occurred while converting cluster data to  model " ] impl)
  end.
Proof.
  intros H. unfold FindById, mbind, M_bind, reading, gorm.Find.
  rewrite (query_ID_Active _ _ H). cbn [gorm.Error gorm.Limit Entity.ID Entity.zero Z.eqb].
  rewrite convertToModel_eq. unfold table.
  destruct (decode _); [reflexivity|].
  unfold Errorw, logged; simpl. by rewrite <- app_assoc.
Qed.

Lemma FindById_fault id impl e :
  gorm.fault (dbConnection impl) = Some e →
  FindById id impl =
  (Err e, logged ["error occurred while finding cluster data "] impl).
Proof.
  intros H. unfold FindById, mbind, M_bind, reading, gorm.Find.
  rewrite (query_fault _ _ _ H). reflexivity.
Qed.

(** The lookup by name names a column the table does not have (the field
    is [ClusterName], its column [cluster_name]): the statement fails
    whatever the table holds. *)
Lemma FindOneActive_fails name impl :
  ∃ e, FindOneActive name impl =
       (Err e, logged ["error occurred while finding cluster data "] impl).
Proof.
  unfold FindOneActive, mbind, M_bind, reading, gorm.Find, gorm.query.
  destruct (gorm.fault (dbConnection impl)) as [e|]; [by exists e|].
  cbn [gorm.compile_all]. rewrite compile_ClusterName. eexists. reflexivity.
Qed.

(** The batch lookup by id binds the go-pg wrapper [pg.In] makes, which
    the driver refuses: the statement fails whatever the table holds. *)
Lemma FindByIds_fails ids impl :
  ∃ e, FindByIds ids impl =
       (Err e, logged ["error occurred while finding all cluster data"] impl).
Proof.
  unfold FindByIds, mbind, M_bind, reading, gorm.FindAll, gorm.query.
  destruct (gorm.fault (dbConnection impl)) as [e|]; [by exists e|].
  eexists. reflexivity.
Qed.

Lemma hd_filter_cases {A} (p : A → bool) (d : A) (l : list A) :
  hd d (List.filter p l) = d ∨ (hd d (List.filter p l) ∈ l ∧ p (hd d (List.filter p l)) = true).
Proof.
  destruct (List.filter p l) as [|x l'] eqn:E; [by left|right].
  assert (In x (List.filter p l)) as Hin by (rewrite E; by left).
  apply List.filter_In in Hin as [Hin Hp]. simpl. split; [|done].
  by apply list_elem_of_In.
Qed.

Lemma decode_zero : decode Entity.zero = Some notFound.
Proof. reflexivity. Qed.

Lemma FindById_sound id impl r impl' :
  FindById id impl = (Ok r, impl') →
  r = notFound ∨ (stored_active impl r ∧ Id r = id).
Proof.
  destruct (gorm.fault (dbConnection impl)) as [e|] eqn:Hf.
  { rewrite (FindById_fault _ _ _ Hf). discriminate. }
  rewrite (FindById_eq _ _ Hf).
  destruct (hd_filter_cases (fun e => (Entity.ID e =? id) && isActive e)
              Entity.zero (table impl)) as [->|[Hin Hp]].
  - rewrite decode_zero. intros [= <- _]. by left.
  - destruct (decode _) as [c|] eqn:Hd; [|discriminate].
    intros [= <- _]. right.
    apply andb_true_iff in Hp as [Hid Hact].
    apply Z.eqb_eq in Hid. apply isActive_spec in Hact.
    split; [by eexists|].
    unfold decode in Hd. destruct (decodeConfig _); [|discriminate].
    simpl in Hd. injection Hd as <-. exact Hid.
Qed.

Lemma FindAllActive_sound impl rs impl' :
  FindAllActive impl = (Ok rs, impl') → ∀ r, r ∈ rs → stored_active impl r.
Proof.
  destruct (gorm.fault (dbConnection impl)) as [e|] eqn:Hf.
  { rewrite (FindAllActive_fault _ _ Hf). discriminate. }
  rewrite (FindAllActive_eq _ Hf). intros [= <- _] r Hr.
  apply list_elem_of_omap in Hr as (e & He & Hd).
  apply list_elem_of_In, List.filter_In in He as [He Ha].
  exists e. split; [by apply list_elem_of_In|]. split; [by apply isActive_spec|done].
Qed.

(** A statement with the condition [Active = true] among its conditions
    selects only rows of the table whose flag is true, whatever its other
    conditions are. *)
Lemma compile_all_elem cs : ∀ p c,
  gorm.compile_all cs = Ok p → c ∈ cs →
  ∃ pc, gorm.compile c = Ok pc ∧ ∀ e, p e = true → pc e = true.
Proof.
  induction cs as [|c0 cs IH]; intros p c Hp Hc; [by apply elem_of_nil in Hc|].
  cbn [gorm.compile_all] in Hp.
  destruct (gorm.compile c0) as [p0|] eqn:E0; [|discriminate].
  destruct (gorm.compile_all cs) as [q|] eqn:Eq; [|discriminate].
  injection Hp as <-. apply elem_of_cons in Hc as [->|Hc].
  - exists p0. split; [done|]. by intros e [H _]%andb_true_iff.
  - destruct (IH q c eq_refl Hc) as (pc & Hpc & Himp).
    exists pc. split; [done|]. intros e [_ H]%andb_true_iff. by apply Himp.
Qed.

Lemma query_sound wheres db l :
  ("Active = ?", gorm.ABool true) ∈ wheres →
  gorm.query wheres db = Ok l →
  ∀ e, e ∈ l → e ∈ gorm.rows db ∧ Entity.Active e = Some true.
Proof.
  intros Hin. unfold gorm.query.
  destruct (gorm.fault db); [discriminate|].
  destruct (gorm.compile_all wheres) as [p|] eqn:Ep; [|discriminate].
  intros [= <-] e He.
  apply list_elem_of_In, List.filter_In in He as [He Hp].
  split; [by apply list_elem_of_In|].
  destruct (compile_all_elem _ _ _ Ep Hin) as (pc & Hpc & Himp).
  rewrite compile_Active in Hpc. injection Hpc as <-.
  specialize (Himp e Hp). cbv beta in Himp.
  by destruct (Entity.Active e) as [[]|].
Qed.

Lemma Find_sound wheres db res ent :
  ("Active = ?", gorm.ABool true) ∈ wheres →
  gorm.Find wheres Entity.zero db = (res, ent) → gorm.Error res = None →
  ent = Entity.zero ∨ (ent ∈ gorm.rows db ∧ Entity.Active ent = Some true).
Proof.
  intros Hin. unfold gorm.Find.
  destruct (gorm.query wheres db) as [l|e] eqn:Eq; [|by intros [= <- <-]].
  cbn [Entity.ID Entity.zero Z.eqb]. intros [= <- <-] _.
  destruct l as [|e l]; [by left|right].
  apply (query_sound _ _ _ Hin Eq). apply list_elem_of_here.
Qed.

Lemma FindAll_sound wheres db res l :
  ("Active = ?", gorm.ABool true) ∈ wheres →
  gorm.FindAll wheres db = (res, l) → gorm.Error res = None →
  ∀ e, e ∈ l → e ∈ gorm.rows db ∧ Entity.Active e = Some true.
Proof.
  intros Hin. unfold gorm.FindAll.
  destruct (gorm.query wheres db) as [l'|e] eqn:Eq; [|by intros [= <- <-]].
  intros [= <- <-] _. exact (query_sound _ _ _ Hin Eq).
Qed.

Lemma FindOneActive_sound name impl r impl' :
  FindOneActive name impl = (Ok r, impl') →
  r = notFound ∨ stored_active impl r.
Proof.
  unfold FindOneActive, mbind, M_bind, reading.
  destruct (gorm.Find _ _ _) as [res ent] eqn:EF.
  unfold gorm.Limit. destruct (gorm.Error res) as [err|] eqn:Eres; [by cbn|].
  rewrite convertToModel_eq.
  destruct (decode ent) as [c|] eqn:Ed; [|by cbn]. intros [= <- _].
  destruct (Find_sound _ _ _ _
              (list_elem_of_further _ _ _ (list_elem_of_here _ _)) EF Eres)
    as [->|[Hin Ha]].
  - left. rewrite decode_zero in Ed. congruence.
  - right. by exists ent.
Qed.

Lemma FindByIds_sound ids impl rs impl' :
  FindByIds ids impl = (Ok rs, impl') → ∀ r, r ∈ rs → stored_active impl r.
Proof.
  unfold FindByIds, mbind, M_bind, reading.
  destruct (gorm.FindAll _ _) as [res l] eqn:EF.
  destruct (gorm.Error res) as [err|] eqn:Eres; [by cbn|].
  rewrite convertEach_eq. intros [= <- _] r Hr.
  apply list_elem_of_omap in Hr as (e & He & Hd).
  destruct (FindAll_sound _ _ _ _ (list_elem_of_further _ _ _ (list_elem_of_here _ _)) EF Eres e He)
    as [Hin Ha].
  by exists e.
Qed.

Lemma stored_active_Active impl r : stored_active impl r → Active r = true.
Proof.
  intros (e & _ & Ha & Hd). unfold decode in Hd.
  destruct (decodeConfig _); [|discriminate]. injection Hd as <-.
  simpl. by rewrite Ha.
Qed.

(** ** The write paths *)

Lemma Update_eq model impl :
  ∃ text, json.Marshal (Config model) = Some text ∧
  Update model impl =
  if (Id model =? 0) || bool_decide (is_Some (gorm.fault (dbConnection impl)))
  then (Some "failed to update cluster",
        logged ["error occurred while updating cluster"] impl)
  else (None,
        mkRepository (logger impl)
          (gorm.mkDB (updated (toEntity model text) (table impl))
                     (gorm.sequence (dbConnection impl)) None)).
Proof.
  destruct (convertToEntity_eq model impl) as (text & Hm & He).
  exists text. split; [done|].
  unfold Update, mbind, M_bind. rewrite He.
  unfold writing, gorm.Updates. cbn [Entity.ID toEntity].
  destruct (Id model =? 0); [reflexivity|].
  destruct (gorm.fault (dbConnection impl)); reflexivity.
Qed.

Lemma Update_success model impl impl' :
  Update model impl = (None, impl') →
  Id model ≠ 0 ∧
  ∃ text, json.Marshal (Config model) = Some text ∧
          table impl' = updated (toEntity model text) (table impl).
Proof.
  destruct (Update_eq model impl) as (text & Hm & ->).
  destruct (Id model =? 0) eqn:Hid; [discriminate|].
  cbn [orb]. case_bool_decide; [discriminate|].
  intros [= <-]. split; [by apply Z.eqb_neq|]. by exists text.
Qed.

Lemma updated_lookup entity l i new :
  updated entity l !! i = Some new →
  ∃ old, l !! i = Some old ∧
         new = if Entity.ID old =? Entity.ID entity
               then gorm.assign_nonzero entity old else old.
Proof.
  unfold updated. rewrite list_lookup_fmap.
  destruct (l !! i) as [old|]; [|discriminate].
  intros [= <-]. by exists old.
Qed.

Lemma updated_elem entity l e :
  e ∈ updated entity l →
  (Entity.ID e = Entity.ID entity ∧ ∃ old, old ∈ l ∧ e = gorm.assign_nonzero entity old)
  ∨ (Entity.ID e ≠ Entity.ID entity ∧ e ∈ l).
Proof.
  unfold updated. intros (old & -> & Hold)%list_elem_of_fmap.
  destruct (Entity.ID old =? Entity.ID entity) eqn:E.
  - left. apply Z.eqb_eq in E. split; [exact E|]. by exists old.
  - right. apply Z.eqb_neq in E. by split.
Qed.

Lemma MarkClusterDeleted_success c c' impl impl' :
  MarkClusterDeleted c impl = ((c', None), impl') →
  Id c ≠ 0 ∧ c' = set_Active false c ∧
  ∀ e, e ∈ table impl' → Entity.ID e = Id c → Entity.Active e = Some false.
Proof.
  unfold MarkClusterDeleted, mbind, M_bind.
  destruct (Update (set_Active false c) impl) as [err impl1] eqn:HU.
  intros [= <- -> <-].
  apply Update_success in HU as (Hid & text & _ & Ht).
  split; [exact Hid|]. split; [done|].
  intros e He Heq. rewrite Ht in He.
  apply updated_elem in He as [(_ & old & _ & ->)|(Hne & _)]; [done|].
  by destruct Hne.
Qed.

Lemma stored_active_Id impl r :
  stored_active impl r →
  ∃ e, e ∈ table impl ∧ Entity.Active e = Some true ∧ Entity.ID e = Id r.
Proof.
  intros (e & He & Ha & Hd). exists e. split; [done|]. split; [done|].
  unfold decode in Hd. destruct (decodeConfig _); [|discriminate].
  by injection Hd as <-.
Qed.

(** The update of the connection status names the column
    [ErrorInConnecting = ?], which is neither a field of the model nor a
    column of the table: the statement fails whatever the table holds. *)
Lemma UpdateClusterConnectionStatus_eq clusterId errorInConnecting impl :
  UpdateClusterConnectionStatus clusterId errorInConnecting impl =
  (Some "failed to update cluster status",
   logged ["error occurred while updating cluster connection status"] impl).
Proof.
  unfold UpdateClusterConnectionStatus, mbind, M_bind, writing, gorm.Update.
  destruct impl as [lg db]. cbn [dbConnection].
  destruct (gorm.fault db); reflexivity.
Qed.

Lemma max_id_ge l e : e ∈ l → Entity.ID e ≤ gorm.max_id l.
Proof.
  induction 1 as [e l|e e' l _ IH]; simpl; lia.
Qed.

Lemma Save_eq model impl :
  Id model = 0 →
  ∃ text, json.Marshal (Config model) = Some text ∧
  Save model impl =
  match gorm.fault (dbConnection impl) with
  | Some e =>
      ((model, Some e),
       logged ["error occurred while executing insert statement"] impl)
  | None =>
      let i := Z.max (gorm.sequence (dbConnection impl)) (gorm.max_id (table impl)) + 1 in
      ((set_Id i model, None),
       mkRepository (logger impl)
         (gorm.mkDB (table impl ++ [gorm.set_ID i (toEntity model text)]) i None))
  end.
Proof.
  intros Hid.
  destruct (convertToEntity_eq model impl) as (text & Hm & He).
  exists text. split; [done|].
  unfold Save, mbind, M_bind. rewrite He.
  unfold writing, gorm.Create. cbn [Entity.ID toEntity]. rewrite Hid.
  destruct (gorm.fault (dbConnection impl)); reflexivity.
Qed.

Lemma reads_only_active_all impl : reads_only_active impl.
Proof.
  repeat split.
  - intros name r impl' H. exact (FindOneActive_sound _ _ _ _ H).
  - intros name r impl' H. exact (FindOneActive_sound _ _ _ _ H).
  - intros id r impl' H.
    destruct (FindById_sound _ _ _ _ H) as [->|[Hs _]]; [by left|by right].
  - intros rs impl' H. exact (FindAllActive_sound _ _ _ H).
  - intros rs impl' H. exact (FindAllActive_sound _ _ _ H).
  - intros ids rs impl' H. exact (FindByIds_sound _ _ _ _ H).
Qed.

(** ** Soft delete *)

(** C2: after [MarkClusterDeleted c] has succeeded no read returns [c]:
    [FindOneActive] by its name, [FindAllActive], [FindById] by its id
    and [FindByIds] all exclude it; and in every state of the store,
    every read returns only rows whose [Active] flag is true. *)
Theorem MarkClusterDeleted_hides_the_cluster c c' impl impl1 :
  MarkClusterDeleted c impl = ((c', None), impl1) →
  invisible c impl1 ∧ ∀ impl0, reads_only_active impl0.
Proof.
  intros H. split; [|exact reads_only_active_all].
  apply MarkClusterDeleted_success in H as (Hid & _ & Hoff).
  assert (∀ r, stored_active impl1 r → Id r ≠ Id c) as Hne.
  { intros r (e & He & Ha & Heq)%stored_active_Id Hr.
    rewrite <- Heq in Hr. specialize (Hoff e He Hr). congruence. }
  repeat split.
  - intros r impl' Hf.
    destruct (FindOneActive_sound _ _ _ _ Hf) as [->|Hs]; [done|by apply Hne].
  - intros rs impl' Hf r Hr. apply Hne. exact (FindAllActive_sound _ _ _ Hf r Hr).
  - intros r impl' Hf.
    destruct (FindById_sound _ _ _ _ Hf) as [->|[Hs Hr]]; [done|].
    by destruct (Hne r Hs).
  - intros ids rs impl' Hf r Hr. apply Hne. exact (FindByIds_sound _ _ _ _ Hf r Hr).
Qed.

Lemma MarkClusterDeleted_hides_the_cluster_witness :
  MarkClusterDeleted cluster_c1 (repository_of [row_c1])
  = ((set_Active false cluster_c1, None),
     (MarkClusterDeleted cluster_c1 (repository_of [row_c1])).2)
  ∧ invisible cluster_c1 (MarkClusterDeleted cluster_c1 (repository_of [row_c1])).2.
Proof.
  split; [reflexivity|].
  apply (MarkClusterDeleted_hides_the_cluster cluster_c1
           (set_Active false cluster_c1) (repository_of [row_c1])).
  reflexivity.
Defined.

(** ** Update *)

(** C3 as stated does not hold: updating the stored cluster with an empty
    [K8sVersion] succeeds and leaves the stored version in place. *)
Lemma Update_overwrites_all_fields_counterexample :
  ¬ (∀ model impl impl' text,
       Update model impl = (None, impl') →
       json.Marshal (Config model) = Some text →
       ∀ row, row ∈ table impl' → Entity.ID row = Id model →
              row = toEntity model text).
Proof.
  intros H.
  specialize (H cluster_c1_cleared (repository_of [row_c1]) _ "{}" eq_refl eq_refl
                row_c1).
  assert (row_c1 = toEntity cluster_c1_cleared "{}") as Heq.
  { apply H; [|reflexivity]. vm_compute. apply list_elem_of_here. }
  discriminate Heq.
Qed.

(** C3, amended: a successful [Update model] rewrites the rows with the
    id of [model] and no other; in such a row the [Active] flag and the
    encoded config are those of the model ([Active = false] included),
    and every other field takes the model's value when that is not empty
    or zero and keeps the stored value when it is. *)
Theorem Update_overwrites_nonzero_fields model impl impl' :
  Update model impl = (None, impl') →
  length (table impl') = length (table impl)
  ∧ ∀ i new, table impl' !! i = Some new →
      ∃ old, table impl !! i = Some old
             ∧ (Entity.ID old ≠ Id model → new = old)
             ∧ (Entity.ID old = Id model → overwritten model old new).
Proof.
  intros (Hid & text & Hm & Ht)%Update_success. rewrite Ht. split.
  { unfold updated. by rewrite length_map. }
  intros i new (old & Hold & ->)%updated_lookup.
  exists old. split; [done|]. cbn [toEntity Entity.ID]. split.
  - intros Hne. apply Z.eqb_neq in Hne. by rewrite Hne.
  - intros Heq. apply Z.eqb_eq in Heq as Hb. rewrite Hb.
    unfold overwritten, gorm.assign_nonzero, gorm.pick_string, gorm.pick_Z.
    cbn. repeat split; try done.
    rewrite Hm. f_equal. destruct (Config model); simpl in Hm.
    + injection Hm as <-. reflexivity.
    + injection Hm as <-. reflexivity.
Qed.

Lemma Update_overwrites_nonzero_fields_witness :
  Update cluster_c1_cleared (repository_of [row_c1])
  = (None, (Update cluster_c1_cleared (repository_of [row_c1])).2)
  ∧ length (table (Update cluster_c1_cleared (repository_of [row_c1])).2)
    = length (table (repository_of [row_c1]))
  ∧ ∀ i new,
      table (Update cluster_c1_cleared (repository_of [row_c1])).2 !! i = Some new →
      ∃ old, table (repository_of [row_c1]) !! i = Some old
             ∧ (Entity.ID old ≠ Id cluster_c1_cleared → new = old)
             ∧ (Entity.ID old = Id cluster_c1_cleared →
                overwritten cluster_c1_cleared old new).
Proof.
  split; [reflexivity|].
  apply (Update_overwrites_nonzero_fields cluster_c1_cleared (repository_of [row_c1])).
  reflexivity.
Defined.

(** ** Save *)

(** C4: [Save] of a model whose [Id] is unset encodes the config and
    inserts a row; when it returns nil the caller's model carries the id
    the store generated, which is the id of the new row (an id no stored
    row had); when it returns an error the model is as it was and nothing
    was inserted.  It returns nil whenever the engine is in order. *)
Theorem Save_writes_back_the_generated_id model impl :
  Id model = 0 →
  ∃ model' err impl',
    Save model impl = ((model', err), impl')
    ∧ (gorm.fault (dbConnection impl) = None → err = None)
    ∧ match err with
      | None =>
          ∃ row text,
            table impl' = table impl ++ [row]
            ∧ json.Marshal (Config model) = Some text
            ∧ row = gorm.set_ID (Entity.ID row) (toEntity model text)
            ∧ model' = set_Id (Entity.ID row) model
            ∧ Id model' = Entity.ID row
            ∧ Entity.ID row ≠ 0
            ∧ ∀ e, e ∈ table impl → Entity.ID e ≠ Entity.ID row
      | Some _ => model' = model ∧ table impl' = table impl
      end.
Proof.
  intros Hid. destruct (Save_eq model impl Hid) as (text & Hm & ->).
  destruct (gorm.fault (dbConnection impl)) as [e|].
  - eexists _, _, _. split; [reflexivity|]. split; [discriminate|]. by split.
  - eexists _, _, _. split; [reflexivity|]. split; [done|].
    eexists _, text. split; [reflexivity|]. split; [done|].
    cbn [gorm.set_ID Entity.ID toEntity set_Id Id]. repeat split.
    + assert (0 ≤ gorm.max_id (table impl)); [|lia].
      clear. induction (table impl); simpl; lia.
    + intros e He Heq. apply max_id_ge in He. lia.
Qed.

Lemma Save_writes_back_the_generated_id_witness :
  Id cluster_new = 0
  ∧ Save cluster_new (repository_of [row_c1])
    = ((set_Id 2 cluster_new, None), (Save cluster_new (repository_of [row_c1])).2)
  ∧ ∃ model' err impl',
      Save cluster_new (repository_of [row_c1]) = ((model', err), impl')
      ∧ (gorm.fault (dbConnection (repository_of [row_c1])) = None → err = None)
      ∧ match err with
        | None =>
            ∃ row text,
              table impl' = table (repository_of [row_c1]) ++ [row]
              ∧ json.Marshal (Config cluster_new) = Some text
              ∧ row = gorm.set_ID (Entity.ID row) (toEntity cluster_new text)
              ∧ model' = set_Id (Entity.ID row) cluster_new
              ∧ Id model' = Entity.ID row
              ∧ Entity.ID row ≠ 0
              ∧ ∀ e, e ∈ table (repository_of [row_c1]) → Entity.ID e ≠ Entity.ID row
        | Some _ => model' = cluster_new
                    ∧ table impl' = table (repository_of [row_c1])
        end.
Proof.
  split; [reflexivity|]. split; [reflexivity|].
  apply (Save_writes_back_the_generated_id cluster_new (repository_of [row_c1])).
  reflexivity.
Defined.

(** ** Batch reads *)

(** [FindAllActive] skips a row that does not decode: with one such row
    among the active ones it returns the others, decoded, logs the
    failure and returns no error. *)
Lemma FindAllActive_skips_undecodable impl l1 bad l2 :
  gorm.fault (dbConnection impl) = None →
  List.filter isActive (table impl) = l1 ++ bad :: l2 →
  decode bad = None →
  (∀ e, e ∈ l1 ++ l2 → is_Some (decode e)) →
  ∃ rs, FindAllActive impl
        = (Ok rs, logged [ "error occured while unmarshalling cluster config ";
                           "error occurred while converting entity to model bean" ] impl)
        ∧ Forall2 (fun e r => decode e = Some r) (l1 ++ l2) rs
        ∧ length rs = (length (l1 ++ bad :: l2) - 1)%nat.
Proof.
  intros Hf Hl Hbad Hgood. rewrite (FindAllActive_eq _ Hf), Hl.
  assert (∀ l, (∀ e, e ∈ l → is_Some (decode e)) →
               skipped l = [] ∧ Forall2 (fun e r => decode e = Some r) l (omap decode l))
    as Hall.
  { induction l as [|e l IH]; intros Hl'; [by split; [|constructor]|].
    destruct (Hl' e) as [r Hr]; [apply list_elem_of_here|].
    destruct IH as [IH1 IH2]; [intros e' He'; apply Hl'; by apply list_elem_of_further|].
    unfold skipped in *. simpl. rewrite Hr. simpl. rewrite IH1.
    split; [done|]. by constructor. }
  destruct (Hall l1) as [Hs1 Hd1]; [intros e He; apply Hgood, elem_of_app; by left|].
  destruct (Hall l2) as [Hs2 Hd2]; [intros e He; apply Hgood, elem_of_app; by right|].
  exists (omap decode l1 ++ omap decode l2). split; [|split].
  - f_equal.
    + rewrite omap_app. cbn. by rewrite Hbad.
    + unfold skipped. rewrite flat_map_app. fold (skipped l1). rewrite Hs1.
      cbn. rewrite Hbad. fold (skipped l2). by rewrite Hs2.
  - by apply Forall2_app.
  - rewrite length_app, <- (Forall2_length _ _ _ Hd1), <- (Forall2_length _ _ _ Hd2).
    rewrite length_app. simpl. lia.
Qed.

(** C5, at the store holding [row_c1] and [row_corrupt]: [FindAllActive]
    returns the one decodable cluster and no error, as specified;
    [FindByIds] of the two ids returns an error and no cluster, the
    statement failing before any row is decoded. *)
Theorem FindByIds_fails_on_a_partly_corrupt_batch :
  decode row_corrupt = None
  ∧ (FindAllActive (repository_of [row_c1; row_corrupt])).1 = Ok [cluster_c1]
  ∧ (FindAll (repository_of [row_c1; row_corrupt])).1 = Ok [cluster_c1]
  ∧ (FindByIds [1; 2] (repository_of [row_c1; row_corrupt])).1
    = Err "sql: converting argument $1 type: unsupported type types.inOp, a struct".
Proof. repeat split. Qed.

(** ** The nullable flag *)

(** C6: the translation of an entity never fails on account of its
    [Active] flag (it fails only when the config text does not decode), a
    nil flag gives [Active = false] and a flag that is present gives its
    value. *)
Theorem convertToModel_maps_nil_Active_to_false entity impl cfg :
  decodeConfig (Entity.Config entity) = Some cfg →
  ∃ c, convertToModel entity impl = (Ok c, impl)
       ∧ (Entity.Active entity = None → Active c = false)
       ∧ (∀ b, Entity.Active entity = Some b → Active c = b).
Proof.
  intros H. rewrite convertToModel_eq. unfold decode. rewrite H. cbn.
  eexists. split; [reflexivity|]. cbn. split.
  - by intros ->.
  - by intros b ->.
Qed.

Lemma convertToModel_maps_nil_Active_to_false_witness :
  decodeConfig (Entity.Config (set_Active_ptr None row_c1)) = Some (Some ∅)
  ∧ ∃ c, convertToModel (set_Active_ptr None row_c1) (repository_of []) = (Ok c, repository_of [])
         ∧ (Entity.Active (set_Active_ptr None row_c1) = None → Active c = false)
         ∧ (∀ b, Entity.Active (set_Active_ptr None row_c1) = Some b → Active c = b).
Proof.
  split; [reflexivity|].
  apply (convertToModel_maps_nil_Active_to_false (set_Active_ptr None row_c1)
           (repository_of []) (Some ∅)).
  reflexivity.
Defined.

(** ** Lookups that match nothing *)

(** [FindById] with no active row of that id returns the zero cluster
    and no error. *)
Lemma FindById_not_found id impl :
  gorm.fault (dbConnection impl) = None →
  (∀ e, e ∈ table impl → Entity.ID e = id → Entity.Active e ≠ Some true) →
  FindById id impl = (Ok notFound, impl).
Proof.
  intros Hf Hno. rewrite (FindById_eq _ _ Hf).
  destruct (hd_filter_cases (fun e => (Entity.ID e =? id) && isActive e)
              Entity.zero (table impl)) as [->|[Hin Hp]]; [reflexivity|].
  apply andb_true_iff in Hp as [Hid Ha].
  apply Z.eqb_eq in Hid. apply isActive_spec in Ha.
  by destruct (Hno _ Hin Hid).
Qed.

(** C7, at the empty store: [FindById] returns the zero cluster and a nil
    error, as specified; [FindOneActive] and [FindOne] return an
    error, that of the engine, which has no column [ClusterName]. *)
Theorem FindOneActive_reports_not_found_as_an_error :
  FindById 1 (repository_of []) = (Ok notFound, repository_of [])
  ∧ (FindOneActive "c1" (repository_of [])).1 = Err "no such column: ClusterName"
  ∧ (FindOne "c1" (repository_of [])).1 = Err "no such column: ClusterName".
Proof. repeat split. Qed.

(** ** Errors of decoding *)

(** C8 as stated does not hold: a batch read that meets a row it cannot
    decode returns no error at all. *)
Lemma decode_failure_returns_generic_error_counterexample :
  ¬ (∀ impl e,
       gorm.fault (dbConnection impl) = None →
       e ∈ table impl → isActive e = true → decode e = None →
       ∃ msg, (FindAllActive impl).1 = Err msg
              ∧ (msg = "failed to process cluster data"
                 ∨ msg = "failed to fetch cluster")).
Proof.
  intros H.
  destruct (H (repository_of [row_corrupt]) row_corrupt) as (msg & Hm & _);
    [reflexivity|apply list_elem_of_here|reflexivity|reflexivity|].
  discriminate Hm.
Qed.

(** C8, amended: when the config text of an entity does not decode,
    [convertToModel] returns exactly "failed to process cluster data" and
    [FindById], when that entity is the row it selects, returns exactly
    "failed to fetch cluster"; an error [FindById], [FindOne] or
    [FindOneActive] returns is that message or the error of the select
    statement, never the error of the JSON decoder; the batch reads
    return no error for such a row; and encoding the config of a model
    never fails. *)
Theorem decode_failure_returns_generic_error entity impl :
  decode entity = None →
  (convertToModel entity impl).1 = Err "failed to process cluster data"
  ∧ (∀ id, gorm.fault (dbConnection impl) = None →
           selectedById id impl = entity →
           (FindById id impl).1 = Err "failed to fetch cluster")
  ∧ (∀ id msg, (FindById id impl).1 = Err msg →
               msg = "failed to fetch cluster"
               ∨ gorm.fault (dbConnection impl) = Some msg)
  ∧ (∀ name msg, (FindOneActive name impl).1 = Err msg ∨ (FindOne name impl).1 = Err msg →
                 msg = "failed to fetch cluster"
                 ∨ gorm.Error
                     (gorm.Find [ ("ClusterName = ?", gorm.AString name);
                                  ("Active = ?", gorm.ABool true) ]
                                Entity.zero (dbConnection impl)).1 = Some msg)
  ∧ (gorm.fault (dbConnection impl) = None →
     ∃ rs, (FindAllActive impl).1 = Ok rs ∧ (FindAll impl).1 = Ok rs)
  ∧ (∀ model, ∃ text e, json.Marshal (Config model) = Some text
                        ∧ convertToEntity model impl = (Ok e, impl)).
Proof.
  intros Hd. repeat split.
  - rewrite convertToModel_eq, Hd. reflexivity.
  - intros id Hf Hsel. rewrite (FindById_eq _ _ Hf).
    unfold selectedById in Hsel. rewrite Hsel, Hd. reflexivity.
  - intros id msg. destruct (gorm.fault (dbConnection impl)) as [e|] eqn:Hf.
    + rewrite (FindById_fault _ _ _ Hf). intros [= <-]. by right.
    + rewrite (FindById_eq _ _ Hf). destruct (decode (hd _ _)); [discriminate|].
      cbn [fst]. intros [= <-]. by left.
  - intros name msg H.
    assert ((FindOneActive name impl).1 = Err msg) as H' by (by destruct H).
    clear H. revert H'.
    unfold FindOneActive, mbind, M_bind, reading.
    destruct (gorm.Find _ _ _) as [[[err|]] ent];
      cbn [gorm.Error gorm.Limit fst snd].
    + intros [= <-]. by right.
    + rewrite convertToModel_eq. destruct (decode ent); [discriminate|].
      intros [= <-]. by left.
  - intros Hf. unfold FindAll. rewrite (FindAllActive_eq _ Hf).
    eexists. split; reflexivity.
  - intros model. destruct (convertToEntity_eq model impl) as (text & Hm & He).
    by eexists _, _.
Qed.

Lemma decode_failure_returns_generic_error_witness :
  decode row_corrupt = None
  ∧ (convertToModel row_corrupt (repository_of [row_corrupt])).1
    = Err "failed to process cluster data"
  ∧ (FindById 2 (repository_of [row_corrupt])).1 = Err "failed to fetch cluster".
Proof.
  split; [reflexivity|].
  destruct (decode_failure_returns_generic_error row_corrupt
              (repository_of [row_corrupt]) eq_refl) as (H1 & H2 & _).
  split; [exact H1|]. apply H2; reflexivity.
Defined.

(** ** The connection status *)

(** C9, at the store holding [row_c1]: the update of the connection
    status of cluster 1 returns "failed to update cluster status" and
    changes nothing; [FindById 1] afterwards still shows the old, empty
    [ErrorInConnecting]. *)
Theorem UpdateClusterConnectionStatus_does_not_update :
  UpdateClusterConnectionStatus 1 "dial timeout" (repository_of [row_c1])
  = (Some "failed to update cluster status",
     logged ["error occurred while updating cluster connection status"]
            (repository_of [row_c1]))
  ∧ (FindById 1 (UpdateClusterConnectionStatus 1 "dial timeout"
                   (repository_of [row_c1])).2).1 = Ok cluster_c1
  ∧ ErrorInConnecting cluster_c1 = "".
Proof. repeat split. Qed.

(** ** The read variants *)

(** C10: [FindOne] is [FindOneActive] and [FindAll] is [FindAllActive],
    in every state of the store and for every name; there is no read
    that includes the soft-deleted rows: what [FindAll] returns are
    decoded rows whose flag is true. *)
Theorem FindOne_and_FindAll_are_the_active_reads :
  (∀ name impl, FindOne name impl = FindOneActive name impl)
  ∧ (∀ impl, FindAll impl = FindAllActive impl)
  ∧ ∀ impl, match (FindAll impl).1 with
            | Ok rs => ∀ r, r ∈ rs → stored_active impl r ∧ Active r = true
            | Err _ => True
            end.
Proof.
  split; [reflexivity|]. split; [reflexivity|].
  intros impl. destruct (FindAll impl) as [[rs|e] impl'] eqn:H; [|done].
  intros r Hr. cbn in Hr.
  pose proof (FindAllActive_sound _ _ _ H r Hr) as Hs.
  split; [exact Hs|]. exact (stored_active_Active _ _ Hs).
Qed.

(** ** The round trip of the config *)

(** C1 as stated does not hold: a config value that is not valid UTF-8
    is encoded with the replacement character in place of each invalid
    byte, and decodes to a different string. *)
Lemma Config_round_trip_counterexample :
  ¬ (∀ model impl, ∃ entity c impl1 impl2,
       convertToEntity model impl = (Ok entity, impl1)
       ∧ convertToModel entity impl1 = (Ok c, impl2)
       ∧ entries (Config c) = entries (Config model)).
Proof.
  intros H.
  destruct (H cluster_invalid_utf8 (repository_of []))
    as (entity & c & impl1 & impl2 & H1 & H2 & H3).
  vm_compute in H1. injection H1 as <- <-.
  vm_compute in H2. injection H2 as <- _.
  apply (f_equal (fun m : gmap string string => m !! "k")) in H3.
  vm_compute in H3. discriminate H3.
Qed.

(** C1, amended: for every config mapping whose keys and values are
    valid UTF-8 (the empty and the nil mapping included),
    [convertToEntity] succeeds and [convertToModel] of its entity
    succeeds with a [Config] holding the same key-value pairs. *)
Theorem Config_round_trip model impl :
  valid_config (Config model) →
  ∃ entity c,
    convertToEntity model impl = (Ok entity, impl)
    ∧ convertToModel entity impl = (Ok c, impl)
    ∧ entries (Config c) = entries (Config model).
Proof.
  intros Hv.
  destruct (convertToEntity_eq model impl) as (text & Hm & He).
  destruct (Unmarshal_Marshal _ _ Hv Hm) as (Hlen & m' & Hu & Hent).
  exists (toEntity model text), (toModel (toEntity model text) m').
  split; [exact He|]. split; [|exact Hent].
  rewrite convertToModel_eq. unfold decode, decodeConfig. cbn [toEntity Entity.Config].
  apply Nat.ltb_lt in Hlen. rewrite Hlen, Hu. reflexivity.
Qed.

Lemma Config_round_trip_witness :
  valid_config (Config cluster_new)
  ∧ valid_config (Config cluster_c1)
  ∧ (∃ entity c,
       convertToEntity cluster_new (repository_of []) = (Ok entity, repository_of [])
       ∧ convertToModel entity (repository_of []) = (Ok c, repository_of [])
       ∧ entries (Config c) = entries (Config cluster_new))
  ∧ (∃ entity c,
       convertToEntity cluster_c1 (repository_of []) = (Ok entity, repository_of [])
       ∧ convertToModel entity (repository_of []) = (Ok c, repository_of [])
       ∧ entries (Config c) = entries (Config cluster_c1)).
Proof.
  assert (valid_config (Config cluster_new)) as H1.
  { intros k v H. unfold cluster_new, entries in H. cbn [Config default id] in H.
    apply lookup_insert_Some in H as [[<- <-]|[_ H]]; [by vm_compute|].
    by rewrite lookup_empty in H. }
  assert (valid_config (Config cluster_c1)) as H2.
  { intros k v H. unfold cluster_c1, entries in H. cbn [Config default id] in H.
    by rewrite lookup_empty in H. }
  split; [exact H1|]. split; [exact H2|]. split.
  - exact (Config_round_trip cluster_new (repository_of []) H1).
  - exact (Config_round_trip cluster_c1 (repository_of []) H2).
Defined.

(** ** The repository as a whole *)

(** The decoded map is the encoded one, the nil map included. *)
Lemma Unmarshal_Marshal_exact m text :
  valid_config m → json.Marshal m = Some text →
  (0 < String.length text)%nat ∧ json.Unmarshal text (Some ∅) = Some m.
Proof.
  intros Hv Hm. destruct (Unmarshal_Marshal m text Hv Hm) as (Hlen & m' & Hu & He).
  split; [done|]. rewrite Hu. f_equal.
  destruct m as [kvs|]; injection Hm as <-.
  - revert Hu. unfold json.Unmarshal.
    change (String "{"%char (of_bytes ?X)) with (of_bytes ("{"%char :: X)).
    rewrite to_of_bytes. cbv zeta.
    change (json.skipSpace ("{"%char :: ?X)) with ("{"%char :: X). cbv beta iota.
    change (b2z "{"%char =? 123) with true. cbv beta iota.
    destruct (match json.skipSpace _ with [] => None | _ => _ end) as [[m0 rest]|];
      [|discriminate].
    cbn [mbind option_bind]. destruct (json.skipSpace rest); [|discriminate].
    intros [= <-]. cbn in He. by rewrite He.
  - by vm_compute in Hu; injection Hu as <-.
Qed.

Lemma toModel_toEntity model text :
  toModel (toEntity model text) (Config model) = model.
Proof. destruct model as [? ? ? ? ? ? ? []]. reflexivity. Qed.

Lemma decode_toEntity model text :
  valid_config (Config model) → json.Marshal (Config model) = Some text →
  decode (toEntity model text) = Some model.
Proof.
  intros Hv Hm. destruct (Unmarshal_Marshal_exact _ _ Hv Hm) as [Hlen Hu].
  unfold decode, decodeConfig. cbn [toEntity Entity.Config].
  apply Nat.ltb_lt in Hlen. rewrite Hlen, Hu. cbn. by rewrite toModel_toEntity.
Qed.

(** X1: [convertToModel] inverts [convertToEntity] on the whole record:
    for every cluster whose config keys and values are valid UTF-8 the
    entity built by [convertToEntity] translates back to that very
    cluster, field by field (id, name, server url, flag, config, version,
    connection error and the four audit fields), and neither call logs
    anything. *)
Theorem convertToModel_inverts_convertToEntity model impl :
  valid_config (Config model) →
  ∃ entity, convertToEntity model impl = (Ok entity, impl)
            ∧ convertToModel entity impl = (Ok model, impl).
Proof.
  intros Hv. destruct (convertToEntity_eq model impl) as (text & Hm & He).
  exists (toEntity model text). split; [done|].
  by rewrite convertToModel_eq, (decode_toEntity _ _ Hv Hm).
Qed.

Lemma convertToModel_inverts_convertToEntity_witness :
  valid_config (Config cluster_new)
  ∧ ∃ entity,
      convertToEntity cluster_new (repository_of []) = (Ok entity, repository_of [])
      ∧ convertToModel entity (repository_of []) = (Ok cluster_new, repository_of []).
Proof.
  assert (valid_config (Config cluster_new)) as H1.
  { intros k v H. unfold cluster_new, entries in H. cbn [Config default id] in H.
    apply lookup_insert_Some in H as [[<- <-]|[_ H]]; [by vm_compute|].
    by rewrite lookup_empty in H. }
  split; [exact H1|].
  exact (convertToModel_inverts_convertToEntity cluster_new (repository_of []) H1).
Defined.

Lemma decode_set_ID i model text :
  valid_config (Config model) → json.Marshal (Config model) = Some text →
  decode (gorm.set_ID i (toEntity model text)) = Some (set_Id i model).
Proof.
  intros Hv Hm.
  change (gorm.set_ID i (toEntity model text)) with (toEntity (set_Id i model) text).
  by apply decode_toEntity.
Qed.

Lemma filter_fresh_id i (l : list ClusterEntity) :
  (∀ e, e ∈ l → Entity.ID e ≠ i) →
  List.filter (fun e => (Entity.ID e =? i) && isActive e) l = [].
Proof.
  induction l as [|e l IH]; intros H; [done|]. cbn [List.filter].
  destruct (Z.eqb_spec (Entity.ID e) i) as [Heq|_].
  - destruct (H e); [apply list_elem_of_here|done].
  - cbn [andb]. apply IH. intros e' He'. apply H. by apply list_elem_of_further.
Qed.

(** X2: a cluster that was saved is found under the id it was given.
    When the engine is in order, [Save] of a cluster without id and with a
    valid UTF-8 config succeeds and hands out a non-zero id; a [FindById]
    of that id on the resulting store returns exactly the saved cluster if
    it was saved active, and the not-found result (the zero cluster, nil
    error) if it was saved inactive. *)
Theorem FindById_after_Save model impl :
  Id model = 0 → valid_config (Config model) →
  gorm.fault (dbConnection impl) = None →
  ∃ model' impl',
    Save model impl = ((model', None), impl')
    ∧ Id model' ≠ 0
    ∧ model' = set_Id (Id model') model
    ∧ FindById (Id model') impl'
      = (Ok (if Active model then model' else notFound), impl').
Proof.
  intros Hid Hv Hf. destruct (Save_eq model impl Hid) as (text & Hm & ->).
  rewrite Hf. cbv zeta.
  set (i := Z.max (gorm.sequence (dbConnection impl)) (gorm.max_id (table impl)) + 1).
  assert (0 ≤ gorm.max_id (table impl)) as H0.
  { clear. induction (table impl); simpl; lia. }
  assert (∀ e, e ∈ table impl → Entity.ID e ≠ i) as Hfresh.
  { intros e He%max_id_ge. lia. }
  set (row := gorm.set_ID i (toEntity model text)).
  assert (Entity.ID row = i) as Hrow by reflexivity.
  assert (isActive row = Active model) as Hact.
  { unfold isActive. cbn. by destruct (Active model). }
  eexists _, _. split; [reflexivity|]. cbn [set_Id Id].
  split; [lia|]. split; [done|].
  rewrite FindById_eq by done. unfold table at 1. cbn [dbConnection gorm.rows].
  rewrite List.filter_app, (filter_fresh_id _ _ Hfresh). cbn [app List.filter].
  rewrite Hrow, Z.eqb_refl, Hact. cbn [andb].
  destruct (Active model); cbn [hd].
  - unfold row. by rewrite (decode_set_ID _ _ _ Hv Hm).
  - by rewrite decode_zero.
Qed.

Lemma FindById_after_Save_witness :
  Id cluster_new = 0
  ∧ valid_config (Config cluster_new)
  ∧ gorm.fault (dbConnection (repository_of [row_c1])) = None
  ∧ ∃ model' impl',
      Save cluster_new (repository_of [row_c1]) = ((model', None), impl')
      ∧ Id model' ≠ 0
      ∧ model' = set_Id (Id model') cluster_new
      ∧ FindById (Id model') impl'
        = (Ok (if Active cluster_new then model' else notFound), impl').
Proof.
  assert (valid_config (Config cluster_new)) as H1.
  { intros k v H. unfold cluster_new, entries in H. cbn [Config default id] in H.
    apply lookup_insert_Some in H as [[<- <-]|[_ H]]; [by vm_compute|].
    by rewrite lookup_empty in H. }
  split; [reflexivity|]. split; [exact H1|]. split; [reflexivity|].
  exact (FindById_after_Save cluster_new (repository_of [row_c1])
           eq_refl H1 eq_refl).
Defined.

Lemma Delete_eq model impl :
  Delete model impl =
  if (Id model =? 0) || bool_decide (is_Some (gorm.fault (dbConnection impl)))
  then (Some "failed to delete cluster",
        logged ["error occurred while deleting cluster"] impl)
  else (None,
        mkRepository (logger impl)
          (gorm.mkDB (List.filter (fun row => negb (Entity.ID row =? Id model))
                                  (table impl))
                     (gorm.sequence (dbConnection impl)) None)).
Proof.
  destruct (convertToEntity_eq model impl) as (text & Hm & He).
  unfold Delete, mbind, M_bind. rewrite He.
  unfold writing, gorm.Delete. cbn [Entity.ID toEntity].
  destruct (Id model =? 0); [reflexivity|].
  destruct (gorm.fault (dbConnection impl)); reflexivity.
Qed.

(** X3: [Delete] removes rows for good.  When [Delete model] returns nil
    the model has a non-zero id, the table holds exactly the former rows
    whose id differs from it (in their former order), nothing was logged,
    and [FindById] of that id reports not found on the resulting store. *)
Theorem Delete_removes_the_rows_of_the_id model impl impl' :
  Delete model impl = (None, impl') →
  Id model ≠ 0
  ∧ (∀ e, e ∈ table impl' ↔ e ∈ table impl ∧ Entity.ID e ≠ Id model)
  ∧ table impl' = List.filter (fun row => negb (Entity.ID row =? Id model)) (table impl)
  ∧ logger impl' = logger impl
  ∧ FindById (Id model) impl' = (Ok notFound, impl').
Proof.
  rewrite Delete_eq. destruct (Z.eqb_spec (Id model) 0) as [|Hid]; [discriminate|].
  cbn [orb]. case_bool_decide as Hf; [discriminate|]. intros [= <-].
  assert (∀ e, e ∈ List.filter (fun row => negb (Entity.ID row =? Id model)) (table impl)
               ↔ e ∈ table impl ∧ Entity.ID e ≠ Id model) as Hiff.
  { intros e. rewrite !list_elem_of_In, List.filter_In, negb_true_iff, Z.eqb_neq.
    done. }
  split; [done|]. split; [exact Hiff|]. split; [done|]. split; [done|].
  apply FindById_not_found; [done|].
  intros e He Heq. apply Hiff in He as [_ Hne]. done.
Qed.

Lemma Delete_removes_the_rows_of_the_id_witness :
  let impl := repository_of [row_c1; row_corrupt] in
  let impl' := (Delete cluster_c1 impl).2 in
  Delete cluster_c1 impl = (None, impl')
  ∧ table impl' = [row_corrupt]
  ∧ Id cluster_c1 ≠ 0
  ∧ (∀ e, e ∈ table impl' ↔ e ∈ table impl ∧ Entity.ID e ≠ Id cluster_c1)
  ∧ table impl'
    = List.filter (fun row => negb (Entity.ID row =? Id cluster_c1)) (table impl)
  ∧ logger impl' = logger impl
  ∧ FindById (Id cluster_c1) impl' = (Ok notFound, impl').
Proof.
  intros impl impl'.
  assert (Delete cluster_c1 impl = (None, impl')) as H by reflexivity.
  split; [exact H|]. split; [reflexivity|].
  exact (Delete_removes_the_rows_of_the_id cluster_c1 impl impl' H).
Defined.

(** X4: the writes that address a row by the id of the model refuse a
    model without id: [Update], [Delete] and [MarkClusterDeleted] of a
    cluster whose [Id] is 0 fail with their generic error, log once and
    leave the store as it was (gorm refuses a statement without WHERE
    clause, so no row is touched, let alone all of them).
    [MarkClusterDeleted] has cleared the flag of the model it returns all
    the same. *)
Theorem writes_without_id_are_refused model impl :
  Id model = 0 →
  Update model impl
  = (Some "failed to update cluster",
     logged ["error occurred while updating cluster"] impl)
  ∧ Delete model impl
    = (Some "failed to delete cluster",
       logged ["error occurred while deleting cluster"] impl)
  ∧ MarkClusterDeleted model impl
    = ((set_Active false model, Some "failed to update cluster"),
       logged ["error occurred while updating cluster"] impl).
Proof.
  intros Hid. split; [|split].
  - destruct (Update_eq model impl) as (text & _ & ->). by rewrite Hid.
  - rewrite Delete_eq. by rewrite Hid.
  - unfold MarkClusterDeleted, mbind, M_bind.
    destruct (Update_eq (set_Active false model) impl) as (text & _ & ->).
    cbn [set_Active Id]. by rewrite Hid.
Qed.

Lemma writes_without_id_are_refused_witness :
  Id cluster_new = 0
  ∧ Update cluster_new (repository_of [row_c1])
    = (Some "failed to update cluster",
       logged ["error occurred while updating cluster"] (repository_of [row_c1]))
  ∧ Delete cluster_new (repository_of [row_c1])
    = (Some "failed to delete cluster",
       logged ["error occurred while deleting cluster"] (repository_of [row_c1]))
  ∧ MarkClusterDeleted cluster_new (repository_of [row_c1])
    = ((set_Active false cluster_new, Some "failed to update cluster"),
       logged ["error occurred while updating cluster"] (repository_of [row_c1])).
Proof.
  split; [reflexivity|].
  exact (writes_without_id_are_refused cluster_new (repository_of [row_c1]) eq_refl).
Defined.







(** X6: a batch read isolates every row it cannot decode, however many
    there are.  When the engine is in order [FindAllActive] succeeds and
    returns the decoded active rows in table order; the undecodable active
    rows are left out, each at the price of two log entries, so that the
    clusters returned and the rows left out add up to the active rows. *)
Theorem FindAllActive_isolates_undecodable_rows impl :
  gorm.fault (dbConnection impl) = None →
  let actives := List.filter isActive (table impl) in
  let bad := List.filter undecodable actives in
  ∃ rs,
    FindAllActive impl = (Ok rs, logged (skipped actives) impl)
    ∧ rs = omap decode actives
    ∧ (length rs + length bad = length actives)%nat
    ∧ length (skipped actives) = (2 * length bad)%nat.
Proof.
  intros Hf actives bad. exists (omap decode actives).
  split; [by apply FindAllActive_eq|]. split; [done|].
  subst bad. generalize actives. clear. intros l.
  induction l as [|e l [IH1 IH2]]; [done|].
  unfold skipped, undecodable in *. cbn [omap list_omap List.filter flat_map].
  destruct (decode e) as [c|] eqn:E; cbn [length app]; rewrite ?length_app; cbn [length]; lia.
Qed.

Lemma FindAllActive_isolates_undecodable_rows_witness :
  let impl := repository_of [row_corrupt; row_c1; row_corrupt] in
  gorm.fault (dbConnection impl) = None
  ∧ List.filter undecodable (List.filter isActive (table impl))
    = [row_corrupt; row_corrupt]
  ∧ ∃ rs,
      FindAllActive impl
      = (Ok rs, logged (skipped (List.filter isActive (table impl))) impl)
      ∧ rs = omap decode (List.filter isActive (table impl))
      ∧ (length rs
         + length (List.filter undecodable (List.filter isActive (table impl)))
         = length (List.filter isActive (table impl)))%nat
      ∧ length (skipped (List.filter isActive (table impl)))
        = (2 * length (List.filter undecodable (List.filter isActive (table impl))))%nat.
Proof.
  intros impl. split; [reflexivity|]. split; [reflexivity|].
  exact (FindAllActive_isolates_undecodable_rows impl eq_refl).
Defined.



Lemma ids_logged msgs impl : ids (logged msgs impl) = ids impl.
Proof. reflexivity. Qed.

Lemma ids_updated entity l : map Entity.ID (updated entity l) = map Entity.ID l.
Proof.
  unfold updated. rewrite map_map. apply map_ext. intros row.
  by destruct (Entity.ID row =? Entity.ID entity).
Qed.

Lemma NoDup_map_filter {A B} (f : A → B) (p : A → bool) l :
  NoDup (map f l) → NoDup (map f (List.filter p l)).
Proof.
  induction l as [|a l IH]; [done|]. cbn [map List.filter].
  intros [Hn Hd]%NoDup_cons. destruct (p a); [|by apply IH].
  cbn [map]. apply NoDup_cons. split; [|by apply IH].
  intros (x & Hx & Hin)%list_elem_of_fmap. apply Hn.
  apply list_elem_of_fmap. exists x. split; [done|].
  apply list_elem_of_In in Hin. apply filter_In in Hin as [Hin _].
  by apply list_elem_of_In.
Qed.

Lemma NoDup_snoc_fresh (l : list Z) i : i ∉ l → NoDup l → NoDup (l ++ [i]).
Proof.
  intros Hi Hl. apply NoDup_app. split; [done|]. split.
  - intros x Hx ->%list_elem_of_singleton. by apply Hi.
  - apply NoDup_singleton.
Qed.

Lemma ids_Save model impl : NoDup (ids impl) → NoDup (ids (Save model impl).2).
Proof.
  intros Hn. destruct (convertToEntity_eq model impl) as (text & _ & He).
  unfold Save, mbind, M_bind. rewrite He. unfold writing, gorm.Create.
  destruct (gorm.fault (dbConnection impl)) eqn:Hf; [done|].
  cbn [Entity.ID toEntity].
  destruct (Id model =? 0) eqn:Hid.
  - cbn. unfold ids, table. cbn. rewrite map_app. cbn.
    apply NoDup_snoc_fresh; [|done].
    intros (e & He' & Hin)%list_elem_of_fmap.
    apply max_id_ge in Hin. lia.
  - destruct (existsb _ _) eqn:Hex; [done|].
    cbn. unfold ids, table. cbn. rewrite map_app. cbn.
    apply NoDup_snoc_fresh; [|done].
    intros (e & He' & Hin)%list_elem_of_fmap.
    assert (existsb (λ e0, Entity.ID e0 =? Id model) (gorm.rows (dbConnection impl)) = true);
      [|congruence].
    apply existsb_exists. exists e. split; [by apply list_elem_of_In|].
    apply Z.eqb_eq. done.
Qed.

Lemma ids_Update model impl : ids (Update model impl).2 = ids impl.
Proof.
  destruct (Update_eq model impl) as (text & _ & ->).
  destruct (_ || _); [done|]. cbn. unfold ids, table. cbn.
  apply ids_updated.
Qed.

Lemma ids_perform op impl : NoDup (ids impl) → NoDup (ids (perform op impl)).
Proof.
  intros Hn. destruct op as [m|m|m|m|i s]; cbn [perform].
  - by apply ids_Save.
  - by rewrite ids_Update.
  - rewrite Delete_eq. destruct (_ || _); [done|]. cbn. unfold ids, table. cbn.
    by apply NoDup_map_filter.
  - unfold MarkClusterDeleted, mbind, M_bind.
    destruct (Update (set_Active false m) impl) as [err impl1] eqn:HU.
    cbn. change impl1 with (err, impl1).2. rewrite <- HU. by rewrite ids_Update.
  - by rewrite UpdateClusterConnectionStatus_eq.
Qed.

(** X8: the primary key stays a key.  If no two rows of the table share
    an id, no sequence of [Save], [Update], [Delete], [MarkClusterDeleted]
    and [UpdateClusterConnectionStatus] calls, successful or not, leads to
    a table in which two rows share one. *)
Theorem primary_keys_stay_unique ops impl :
  NoDup (ids impl) → NoDup (ids (perform_all ops impl)).
Proof.
  revert impl. induction ops as [|op ops IH]; intros impl Hn; [done|].
  cbn. apply IH. by apply ids_perform.
Qed.

Lemma primary_keys_stay_unique_witness :
  let ops := [OpSave cluster_new; OpSave cluster_c1; OpUpdate cluster_c1_cleared;
              OpSave cluster_new] in
  NoDup (ids (repository_of [row_c1]))
  ∧ ids (perform_all ops (repository_of [row_c1])) = [1; 2; 3]
  ∧ NoDup (ids (perform_all ops (repository_of [row_c1]))).
Proof.
  intros ops.
  assert (NoDup (ids (repository_of [row_c1]))) as H.
  { apply NoDup_singleton. }
  split; [exact H|]. split; [reflexivity|].
  exact (primary_keys_stay_unique ops (repository_of [row_c1]) H).
Defined.

(** * The REST handler of the external links *)

Lemma String_length_0 (s : string) : String.length s = 0%nat → s = "".
Proof. by destruct s. Qed.

Lemma Atoi_empty : strconv.Atoi "" = (0, Some (strconv.syntaxError "Atoi" "")).
Proof. reflexivity. Qed.

Section ExternalLinkRestHandler_properties.

Import ExternalLinkRestHandlerImpl.

Context {Any : Type} {casbinConstants : casbin.Constants}
  {externalLinkConstants : externalLink.Constants}.

(** X9: [RoleCheck] never reports access.  Every run returns and writes
    exactly one response, and no response carries [Access: true].  When
    the enforcer is consulted (once, for every action ["*"] on the
    application), the response is the error "unauthorized" with
    [Access: false] whatever the enforcer says: status 200 when it denies
    and status 403 when it allows.  Without a verdict of the enforcer the
    status is 401 or 400. *)
Theorem RoleCheck_never_grants_access (r : http.Request) tr out :
  runs (RoleCheck (Any:=Any) r) tr out →
  out = Returned tt
  ∧ ∃ err payload status,
      responses tr = [(err, payload, status)]
      ∧ payload ≠ Response (mkRoleCheckResponse true)
      ∧ match enforcements tr with
        | [] => status = 401 ∨ status = 400
        | [(token, resource, action, object, ok)] =>
            token = http.Header_Get_token r
            ∧ resource = casbin.ResourceApplications
            ∧ action = "*"
            ∧ err = Some (errorString "unauthorized")
            ∧ payload = Response (mkRoleCheckResponse false)
            ∧ status = (if ok then 403 else 200)
        | _ => False
        end.
Proof.
  unfold RoleCheck. intros Hr. run_inv Hr; run_tidy.
  all: split; [done|]; eexists _, _, _; (split; [reflexivity|]); split; [done|]; cbn; auto 10.
Qed.

(** X10: every request gets one answer.  Whatever the collaborators
    answer, each of the six endpoints returns (no run ends otherwise)
    having written exactly one response, and the response is the last
    thing it does. *)
Theorem every_request_is_answered_once ep (r : http.Request) tr out :
  runs (handle (Any:=Any) ep r) tr out →
  out = Returned tt
  ∧ ∃ err payload status,
      last tr = Some (call (common_WriteJsonResp err payload status) tt)
      ∧ responses tr = [(err, payload, status)].
Proof.
  intros Hr.
  destruct ep; cbn [handle] in Hr;
    unfold RoleCheck, CreateExternalLinks, GetExternalLinkMonitoringTools,
      GetExternalLinks, UpdateExternalLink, DeleteExternalLink, roleCheckHelper in Hr;
    run_inv Hr; run_tidy.
  all: split; [done|]; eexists _, _, _; split; reflexivity.
Qed.

(** X11: nothing is done for an unknown caller.  Every endpoint first
    asks the user service who is logged in; when the answer is an error or
    the user id 0, the response "Unauthorized User" with status 401 is the
    only other thing that happens: no body is decoded, no policy checked,
    no service called. *)
Theorem unauthenticated_requests_are_turned_away ep (r : http.Request) tr out :
  runs (handle (Any:=Any) ep r) tr out →
  ∃ userId err tr',
    tr = call (userService_GetLoggedInUser r) (userId, err) :: tr'
    ∧ (userId = 0 ∨ err ≠ None →
       tr' = [call (common_WriteJsonResp err (Text "Unauthorized User")
                      http.StatusUnauthorized) tt]).
Proof.
  intros Hr.
  destruct ep; cbn [handle] in Hr;
    unfold RoleCheck, CreateExternalLinks, GetExternalLinkMonitoringTools,
      GetExternalLinks, UpdateExternalLink, DeleteExternalLink, roleCheckHelper in Hr;
    run_inv Hr; run_tidy.
  all: eexists _, _, _; (split; [reflexivity|]).
  all: try (intros _; reflexivity).
  all: by intros [->|Hne].
Qed.

(** X12: links are changed only with the enforcer's consent.  When
    [CreateExternalLinks], [UpdateExternalLink] or [DeleteExternalLink]
    reaches the service, the caller is logged in, the enforcer has been
    asked exactly once and has allowed the endpoint's action for the
    request's token, on the global resource and object ["*"] when the
    query has no [appName], on the application the enforcer util names
    for [appName] otherwise; the service is called exactly once, on
    behalf of the logged-in user and in the role that goes with the check
    (super admin without [appName], admin with it). *)
Theorem changes_need_a_permission ep action (r : http.Request) tr out :
  runs (handle (Any:=Any) ep r) tr out →
  action_of ep = Some action →
  ∀ c answer, (c, answer) ∈ service_calls tr →
    let scoped := http.Has (http.URL_Query r) "appName" in
    ∃ userId object,
      logins tr = [(userId, None)] ∧ userId ≠ 0
      ∧ enforcements tr
        = [(http.Header_Get_token r,
            if scoped then casbin.ResourceApplications else casbin.ResourceGlobal,
            action, object, true)]
      ∧ (if scoped
         then call (enforcerUtil_GetAppRBACName
                      (http.Get (http.URL_Query r) "appName")) object ∈ tr
         else object = "*")
      ∧ service_calls tr = [(c, answer)]
      ∧ caller c
        = Some (userId,
                if scoped then externalLink.ADMIN_ROLE else externalLink.SUPER_ADMIN_ROLE).
Proof.
  intros Hr Ha c answer Hc scoped. subst scoped.
  destruct ep; try discriminate Ha; injection Ha as <-; cbn [handle] in Hr;
    unfold CreateExternalLinks, UpdateExternalLink, DeleteExternalLink,
      roleCheckHelper in Hr;
    run_inv Hr; run_tidy; cbn in Hc.
  all: try (by apply elem_of_nil in Hc).
  all: apply list_elem_of_singleton in Hc; injection Hc as -> ->.
  all: repeat match goal with
              | Hh : http.Has _ _ = _ |- _ => rewrite Hh; clear Hh
              end.
  all: eexists _, _; cbn; repeat split; try done.
  all: set_solver.
Qed.

(** X13: [UpdateExternalLink] stamps the link with the caller.  The link
    handed to the service carries the id of the logged-in user, whatever
    user id the request body held; its other fields are those decoded from
    the body. *)
Theorem UpdateExternalLink_stamps_the_caller (r : http.Request) tr out :
  runs (UpdateExternalLink (Any:=Any) r) tr out →
  ∀ bean userRole answer,
    (SUpdate bean userRole, answer) ∈ service_calls tr →
    ∃ userId decoded,
      logins tr = [(userId, None)]
      ∧ call (Decode_ExternalLinkDto r) (decoded, None) ∈ tr
      ∧ bean = externalLink.mkExternalLinkDto userId (externalLink.fields decoded).
Proof.
  intros Hr bean userRole answer Hc.
  unfold UpdateExternalLink, roleCheckHelper in Hr; run_inv Hr; run_tidy; cbn in Hc.
  all: try (by apply elem_of_nil in Hc).
  all: apply list_elem_of_singleton in Hc; injection Hc as -> -> ->.
  all: eexists _, _; cbn; repeat split; try done.
  all: set_solver.
Qed.

(** X14: what [GetExternalLinks] asks of the service.  The service is
    called at most once, for a logged-in user, in one of two ways.
    Without any of [identifier], [type] and [clusterId] the enforcer has
    allowed the get action on the global resource, and all links are
    fetched for cluster 0 in the super-admin role.  With both
    [identifier] and [type] no policy is checked at all: the links of
    that identifier are fetched in the admin role, for the cluster that
    [clusterId] denotes (0 when it is absent); the [ClusterId] of the
    identifier itself is always 0. *)
Theorem GetExternalLinks_reads (r : http.Request) tr out :
  runs (GetExternalLinks (Any:=Any) r) tr out →
  ∀ c answer, (c, answer) ∈ service_calls tr →
    let v := http.URL_Query r in
    ∃ userId,
      logins tr = [(userId, None)] ∧ userId ≠ 0
      ∧ service_calls tr = [(c, answer)]
      ∧ ((http.Get v "identifier" = "" ∧ http.Get v "type" = ""
          ∧ http.Get v "clusterId" = ""
          ∧ enforcements tr
            = [(http.Header_Get_token r, casbin.ResourceGlobal, casbin.ActionGet,
                "*", true)]
          ∧ c = SFetchAllActiveLinksByLinkIdentifier None 0
                  externalLink.SUPER_ADMIN_ROLE userId)
         ∨ (http.Get v "identifier" ≠ "" ∧ http.Get v "type" ≠ ""
            ∧ enforcements tr = []
            ∧ ∃ id,
                (if String.eqb (http.Get v "clusterId") "" then id = 0
                 else strconv.Atoi (http.Get v "clusterId") = (id, None))
                ∧ c = SFetchAllActiveLinksByLinkIdentifier
                        (Some (externalLink.mkLinkIdentifier
                                 (http.Get v "type") (http.Get v "identifier") 0))
                        id externalLink.ADMIN_ROLE userId)).
Proof.
  intros Hr c answer Hc v. subst v.
  unfold GetExternalLinks in Hr; run_inv Hr; run_tidy; cbn in Hc.
  all: try (by apply elem_of_nil in Hc).
  all: apply list_elem_of_singleton in Hc; injection Hc as -> ->.
  all: eexists; (split; [reflexivity|]); (split; [done|]); (split; [reflexivity|]).
  all: repeat match goal with
              | Hb : _ && _ = true |- _ => apply andb_true_iff in Hb as [? ?]
              | Hb : (String.length _ =? 0)%nat = true |- _ =>
                  apply Nat.eqb_eq, String_length_0 in Hb
              | Hb : (String.length _ =? 0)%nat = false |- _ =>
                  apply Nat.eqb_neq in Hb
              end.
  all: try (left; repeat split; try done;
            match goal with
            | Hc : http.Get _ "clusterId" = "", Ha : strconv.Atoi _ = _ |- _ =>
                rewrite Hc, Atoi_empty in Ha; by injection Ha as <- <-
            end).
  all: right; split; [by intros Hx; rewrite Hx in *|];
       split; [by intros Hx; rewrite Hx in *|]; split; [reflexivity|].
  all: eexists; split; [|reflexivity].
  all: destruct (String.eqb_spec (http.Get (http.URL_Query r) "clusterId") "") as [Hx|Hx];
       try (rewrite Hx in *); simplify_eq; try done.
  all: match goal with
       | Ha : (if negb (String.length ?s =? 0)%nat then _ else _) = _ |- _ =>
           first [ cbn in Ha; by injection Ha
                 | destruct s; [done|exact Ha] ]
       end.
Qed.

(** X15: an incomplete filter is a bad request without an error.  For a
    logged-in user, a query that has only one of [identifier] and [type],
    or a [clusterId] alone, is answered with status 400, a nil result and
    a nil error, after one log entry; nothing else happens. *)
Theorem GetExternalLinks_rejects_incomplete_filters (r : http.Request) tr out userId :
  runs (GetExternalLinks (Any:=Any) r) tr out →
  logins tr = [(userId, None)] → userId ≠ 0 →
  let v := http.URL_Query r in
  http.Get v "identifier" = "" ∨ http.Get v "type" = "" →
  http.Get v "identifier" ≠ "" ∨ http.Get v "type" ≠ "" ∨ http.Get v "clusterId" ≠ "" →
  tr = [call (userService_GetLoggedInUser r) (userId, None);
        call (logger_Errorw "invalid request, FetchAllActive external links") tt;
        call (common_WriteJsonResp None Nil http.StatusBadRequest) tt].
Proof.
  intros Hr Hl Hu v H1 H2. subst v.
  unfold GetExternalLinks in Hr; run_inv Hr; run_tidy; cbn in Hl; simplify_eq.
  all: repeat match goal with
              | Hb : _ && _ = true |- _ => apply andb_true_iff in Hb as [? ?]
              | Hb : (String.length _ =? 0)%nat = true |- _ =>
                  apply Nat.eqb_eq, String_length_0 in Hb
              | Hb : (String.length _ =? 0)%nat = false |- _ =>
                  apply Nat.eqb_neq in Hb
              end.
  all: try done.
  all: try (exfalso; destruct H2 as [H2|[H2|H2]]; by apply H2).
  all: try (exfalso; destruct H1 as [H1|H1]; rewrite H1 in *; done).
  all: match goal with
       | Hb : (_ =? 0) || _ = true |- _ =>
           apply orb_true_iff in Hb as [Hb%Z.eqb_eq|Hb]; [done|discriminate]
       end.
Qed.

(** X16: [DeleteExternalLink] deletes only what the route variable [id]
    denotes.  The service is called with the integer [strconv.Atoi] reads
    from [id], and only if it reads one.  Otherwise the service is not
    called; a caller who got past the permission check is answered with
    the conversion error, status 400 and one log entry. *)
Theorem DeleteExternalLink_needs_a_numeric_id (r : http.Request) tr out :
  runs (DeleteExternalLink (Any:=Any) r) tr out →
  let id := default "" (http.Vars r !! "id") in
  (∀ c answer, (c, answer) ∈ service_calls tr →
     ∃ linkId userId userRole,
       c = SDeleteLink linkId userId userRole ∧ strconv.Atoi id = (linkId, None))
  ∧ (∀ n e, strconv.Atoi id = (n, Some e) →
       service_calls tr = []
       ∧ ∃ err payload status,
           responses tr = [(err, payload, status)]
           ∧ match enforcements tr with
             | [(_, _, _, _, true)] =>
                 err = Some (numError e) ∧ payload = Nil
                 ∧ status = http.StatusBadRequest
                 ∧ logs tr = ["request err, DeleteExternalLink"]
             | _ => status = http.StatusUnauthorized ∨ status = http.StatusForbidden
             end).
Proof.
  intros Hr id. subst id.
  unfold DeleteExternalLink, roleCheckHelper in Hr; run_inv Hr; run_tidy.
  all: split; [intros c answer Hc; cbn in Hc|intros n0 e0 Ha].
  all: try (by apply elem_of_nil in Hc).
  all: try (apply list_elem_of_singleton in Hc; injection Hc as -> ->;
            eexists _, _, _; split; [reflexivity|done]).
  all: try (rewrite Ha in *; simplify_eq).
  all: split; [reflexivity|]; eexists _, _, _; (split; [reflexivity|]); cbn; auto.
Qed.

(** X17: the monitoring tools are open to every logged-in user.
    [GetExternalLinkMonitoringTools] never consults the enforcer; it
    calls the service (once, [GetAllActiveTools]) exactly when the user
    service reports a user id other than 0 and no error. *)
Theorem GetExternalLinkMonitoringTools_asks_no_permission (r : http.Request) tr out :
  runs (GetExternalLinkMonitoringTools (Any:=Any) r) tr out →
  enforcements tr = []
  ∧ ∃ userId err,
      logins tr = [(userId, err)]
      ∧ (service_calls tr ≠ [] ↔ userId ≠ 0 ∧ err = None)
      ∧ ∀ c answer, (c, answer) ∈ service_calls tr →
                    c = SGetAllActiveTools ∧ service_calls tr = [(c, answer)].
Proof.
  intros Hr.
  unfold GetExternalLinkMonitoringTools in Hr; run_inv Hr; run_tidy.
  all: split; [reflexivity|]; eexists _, _; (split; [reflexivity|]); cbn.
  all: split; [|intros c answer Hc; try (by apply elem_of_nil in Hc);
                apply list_elem_of_singleton in Hc; by injection Hc as -> ->].
  all: split; [try done|try done].
  all: try (intros [? ?]; subst; try done).
  all: try match goal with Hb : _ || _ = true |- _ =>
         apply orb_true_iff in Hb as [Hb%Z.eqb_eq|Hb]; [done|discriminate] end.
Qed.

(** X18: the answer to a request that reached the service is the
    service's.  For every endpoint, when the service returns a value and
    no error, the response is that value with status 200 and nothing is
    logged; when it returns an error, the response is that error with a
    nil result and status 500, and exactly one message is logged. *)
Theorem the_service_decides_the_answer ep (r : http.Request) tr out :
  runs (handle (Any:=Any) ep r) tr out →
  ∀ c res err, (c, (res, err)) ∈ service_calls tr →
    match err with
    | None => responses tr = [(None, Value res, http.StatusOK)] ∧ logs tr = []
    | Some e =>
        responses tr = [(Some e, Nil, http.StatusInternalServerError)]
        ∧ length (logs tr) = 1%nat
    end.
Proof.
  intros Hr c res err Hc.
  destruct ep; cbn [handle] in Hr;
    unfold RoleCheck, CreateExternalLinks, GetExternalLinkMonitoringTools,
      GetExternalLinks, UpdateExternalLink, DeleteExternalLink, roleCheckHelper in Hr;
    run_inv Hr; run_tidy; cbn in Hc.
  all: try (by apply elem_of_nil in Hc).
  all: apply list_elem_of_singleton in Hc; injection Hc as -> -> ->.
  all: by split.
Qed.

End ExternalLinkRestHandler_properties.

Section ExternalLinkRestHandler_samples.

Import ExternalLinkRestHandlerImpl.

Lemma RoleCheck_never_grants_access_witness :
  let r := request [] [] in
  let p := RoleCheck (Any:=nat) (casbinConstants:=casbin_constants) r in
  let tr := (run (collaborators 7 true) p 0%nat).1 in
  runs p tr (Returned tt)
  ∧ responses tr
    = [(Some (errorString "unauthorized"), Response (mkRoleCheckResponse false),
        http.StatusForbidden)]
  ∧ ∃ err payload status,
      responses tr = [(err, payload, status)]
      ∧ payload ≠ Response (mkRoleCheckResponse true).
Proof.
  intros r p tr.
  assert (runs p tr (Returned tt)) as Hr by run_here.
  split; [exact Hr|]. split; [reflexivity|].
  destruct (RoleCheck_never_grants_access r tr (Returned tt) Hr)
    as (_ & err & payload & status & Hresp & Hne & _).
  exists err, payload, status. by split.
Defined.

Lemma every_request_is_answered_once_witness :
  let r := request [] [("id", "12")] in
  let p := handle (Any:=nat) (casbinConstants:=casbin_constants)
             (externalLinkConstants:=externalLink_constants) EpDeleteExternalLink r in
  let tr := (run (collaborators 7 true) p 0%nat).1 in
  runs p tr (Returned tt)
  ∧ ∃ err payload status,
      last tr = Some (call (common_WriteJsonResp err payload status) tt)
      ∧ responses tr = [(err, payload, status)].
Proof.
  intros r p tr.
  assert (runs p tr (Returned tt)) as Hr by run_here.
  split; [exact Hr|].
  exact (proj2 (every_request_is_answered_once EpDeleteExternalLink r tr (Returned tt) Hr)).
Defined.

Lemma unauthenticated_requests_are_turned_away_witness :
  let r := request [] [("id", "12")] in
  let p := handle (Any:=nat) (casbinConstants:=casbin_constants)
             (externalLinkConstants:=externalLink_constants) EpDeleteExternalLink r in
  let tr := (run (collaborators 0 true) p 0%nat).1 in
  runs p tr (Returned tt)
  ∧ tr = [call (userService_GetLoggedInUser r) (0, None);
          call (common_WriteJsonResp None (Text "Unauthorized User")
                  http.StatusUnauthorized) tt]
  ∧ ∃ userId err tr',
      tr = call (userService_GetLoggedInUser r) (userId, err) :: tr'
      ∧ (userId = 0 ∨ err ≠ None →
         tr' = [call (common_WriteJsonResp err (Text "Unauthorized User")
                        http.StatusUnauthorized) tt]).
Proof.
  intros r p tr.
  assert (runs p tr (Returned tt)) as Hr by run_here.
  split; [exact Hr|]. split; [reflexivity|].
  exact (unauthenticated_requests_are_turned_away EpDeleteExternalLink r tr
           (Returned tt) Hr).
Defined.

Lemma changes_need_a_permission_witness :
  let r := request [("appName", ["demo"])] [] in
  let p := handle (Any:=nat) (casbinConstants:=casbin_constants)
             (externalLinkConstants:=externalLink_constants) EpUpdateExternalLink r in
  let tr := (run (collaborators 7 true) p 0%nat).1 in
  let c := SUpdate (externalLink.mkExternalLinkDto 7 0%nat) "admin" in
  runs p tr (Returned tt)
  ∧ action_of (casbinConstants:=casbin_constants) EpUpdateExternalLink = Some "update"
  ∧ (c, (0%nat, None)) ∈ service_calls tr
  ∧ ∃ userId object,
      logins tr = [(userId, None)] ∧ userId ≠ 0
      ∧ enforcements tr
        = [(http.Header_Get_token r, "applications", "update", object, true)]
      ∧ service_calls tr = [(c, (0%nat, None))]
      ∧ caller c = Some (userId, "admin").
Proof.
  intros r p tr c.
  assert (runs p tr (Returned tt)) as Hr by run_here.
  assert ((c, (0%nat, None)) ∈ service_calls tr) as Hc by (vm_compute; left).
  split; [exact Hr|]. split; [reflexivity|]. split; [exact Hc|].
  destruct (changes_need_a_permission EpUpdateExternalLink "update" r tr (Returned tt)
              Hr eq_refl c (0%nat, None) Hc)
    as (userId & object & Hl & Hu & He & _ & Hs & Hcaller).
  exists userId, object. done.
Defined.

Lemma UpdateExternalLink_stamps_the_caller_witness :
  let r := request [] [] in
  let p := UpdateExternalLink (Any:=nat) (casbinConstants:=casbin_constants)
             (externalLinkConstants:=externalLink_constants) r in
  let tr := (run (collaborators 7 true) p 0%nat).1 in
  let bean := externalLink.mkExternalLinkDto 7 0%nat in
  runs p tr (Returned tt)
  ∧ (SUpdate bean "superAdmin", (0%nat, None)) ∈ service_calls tr
  ∧ call (Decode_ExternalLinkDto r) (externalLink.mkExternalLinkDto 99 0%nat, None) ∈ tr
  ∧ ∃ userId decoded,
      logins tr = [(userId, None)]
      ∧ call (Decode_ExternalLinkDto r) (decoded, None) ∈ tr
      ∧ bean = externalLink.mkExternalLinkDto userId (externalLink.fields decoded).
Proof.
  intros r p tr bean.
  assert (runs p tr (Returned tt)) as Hr by run_here.
  assert ((SUpdate bean "superAdmin", (0%nat, None)) ∈ service_calls tr) as Hc
    by (vm_compute; left).
  split; [exact Hr|]. split; [exact Hc|].
  split; [vm_compute; do 2 right; left|].
  exact (UpdateExternalLink_stamps_the_caller
              (casbinConstants:=casbin_constants) (externalLinkConstants:=externalLink_constants) r tr (Returned tt) Hr bean "superAdmin"
           (0%nat, None) Hc).
Defined.

Lemma GetExternalLinks_reads_witness :
  let r := request [("identifier", ["demo"]); ("type", ["appLevel"]);
                    ("clusterId", ["3"])] [] in
  let p := GetExternalLinks (Any:=nat) (casbinConstants:=casbin_constants)
             (externalLinkConstants:=externalLink_constants) r in
  let tr := (run (collaborators 7 false) p 0%nat).1 in
  let c := SFetchAllActiveLinksByLinkIdentifier
             (Some (externalLink.mkLinkIdentifier "appLevel" "demo" 0)) 3 "admin" 7 in
  runs p tr (Returned tt)
  ∧ (c, (0%nat, None)) ∈ service_calls tr
  ∧ ∃ userId,
      logins tr = [(userId, None)] ∧ userId ≠ 0
      ∧ service_calls tr = [(c, (0%nat, None))]
      ∧ enforcements tr = [].
Proof.
  intros r p tr c.
  assert (runs p tr (Returned tt)) as Hr by run_here.
  assert ((c, (0%nat, None)) ∈ service_calls tr) as Hc by (vm_compute; left).
  split; [exact Hr|]. split; [exact Hc|].
  destruct (GetExternalLinks_reads
              (casbinConstants:=casbin_constants) (externalLinkConstants:=externalLink_constants) r tr (Returned tt) Hr c (0%nat, None) Hc)
    as (userId & Hl & Hu & Hs & _).
  exists userId. done.
Defined.

Lemma GetExternalLinks_rejects_incomplete_filters_witness :
  let r := request [("identifier", ["demo"])] [] in
  let p := GetExternalLinks (Any:=nat) (casbinConstants:=casbin_constants)
             (externalLinkConstants:=externalLink_constants) r in
  let tr := (run (collaborators 7 true) p 0%nat).1 in
  runs p tr (Returned tt)
  ∧ logins tr = [(7, None)]
  ∧ http.Get (http.URL_Query r) "type" = ""
  ∧ http.Get (http.URL_Query r) "identifier" ≠ ""
  ∧ tr = [call (userService_GetLoggedInUser r) (7, None);
          call (logger_Errorw "invalid request, FetchAllActive external links") tt;
          call (common_WriteJsonResp None Nil http.StatusBadRequest) tt].
Proof.
  intros r p tr.
  assert (runs p tr (Returned tt)) as Hr by run_here.
  assert (http.Get (http.URL_Query r) "type" = "") as Ht by reflexivity.
  assert (http.Get (http.URL_Query r) "identifier" ≠ "") as Hi by (by vm_compute).
  split; [exact Hr|]. split; [reflexivity|]. split; [exact Ht|]. split; [exact Hi|].
  apply (GetExternalLinks_rejects_incomplete_filters
              (casbinConstants:=casbin_constants) (externalLinkConstants:=externalLink_constants) r tr (Returned tt) 7 Hr).
  - reflexivity.
  - lia.
  - right. exact Ht.
  - left. exact Hi.
Defined.

Lemma DeleteExternalLink_needs_a_numeric_id_witness :
  let r := request [] [("id", "x1")] in
  let p := DeleteExternalLink (Any:=nat) (casbinConstants:=casbin_constants)
             (externalLinkConstants:=externalLink_constants) r in
  let tr := (run (collaborators 7 true) p 0%nat).1 in
  runs p tr (Returned tt)
  ∧ strconv.Atoi "x1" = (0, Some (strconv.syntaxError "Atoi" "x1"))
  ∧ service_calls tr = []
  ∧ responses tr
    = [(Some (numError (strconv.syntaxError "Atoi" "x1")), Nil, http.StatusBadRequest)].
Proof.
  intros r p tr.
  assert (runs p tr (Returned tt)) as Hr by run_here.
  assert (strconv.Atoi "x1" = (0, Some (strconv.syntaxError "Atoi" "x1"))) as Ha
    by reflexivity.
  split; [exact Hr|]. split; [exact Ha|].
  destruct (DeleteExternalLink_needs_a_numeric_id
              (casbinConstants:=casbin_constants) (externalLinkConstants:=externalLink_constants) r tr (Returned tt) Hr) as [_ Hbad].
  split; [exact (proj1 (Hbad _ _ Ha))|reflexivity].
Defined.

Lemma GetExternalLinkMonitoringTools_asks_no_permission_witness :
  let r := request [] [] in
  let p := GetExternalLinkMonitoringTools (Any:=nat) r in
  let tr := (run (collaborators 7 false) p 0%nat).1 in
  runs p tr (Returned tt)
  ∧ enforcements tr = []
  ∧ service_calls tr = [(SGetAllActiveTools, (0%nat, None))].
Proof.
  intros r p tr.
  assert (runs p tr (Returned tt)) as Hr by run_here.
  split; [exact Hr|].
  split; [exact (proj1 (GetExternalLinkMonitoringTools_asks_no_permission r tr
                          (Returned tt) Hr))|reflexivity].
Defined.

Lemma the_service_decides_the_answer_witness :
  let r := request [] [] in
  let p := handle (Any:=nat) (casbinConstants:=casbin_constants)
             (externalLinkConstants:=externalLink_constants) EpCreateExternalLinks r in
  let tr := (run (collaborators 7 true) p 0%nat).1 in
  runs p tr (Returned tt)
  ∧ (SCreate [] 7 "superAdmin", (0%nat, None)) ∈ service_calls tr
  ∧ responses tr = [(None, Value 0%nat, http.StatusOK)]
  ∧ logs tr = [].
Proof.
  intros r p tr.
  assert (runs p tr (Returned tt)) as Hr by run_here.
  assert ((SCreate [] 7 "superAdmin", (0%nat, None)) ∈ service_calls tr) as Hc
    by (vm_compute; left).
  split; [exact Hr|]. split; [exact Hc|].
  exact (the_service_decides_the_answer EpCreateExternalLinks r tr (Returned tt) Hr
           _ _ _ Hc).
Defined.

End ExternalLinkRestHandler_samples.
